(** * The multi-source plugin system of ADS Reader, embedded in Rocq

    The development follows the JavaScript sources:
    - [lib/plugins/types.cjs]   ([createPaper], [validatePlugin]),
    - [lib/plugins/manager.cjs] (class [PluginManager]; the module that
      [lib/plugins/index.cjs] requires as [./manager.cjs]),
    - [plugins/ads/index.cjs]   ([esourcesToPdfSources],
      [translateQueryToADS]),
    - [shared/paper-utils.js]   ([extractArxivId], [normalizeBibcode],
      [sanitizeBibcodeForFilename], [generatePdfFilename],
      [getSourceTypeFromFilename], [titleSimilarity]),
    - [main/book-export-service.cjs] ([truncateText], [wrapText]).

    Conventions of the embedding.
    - A JavaScript string is a [string]; its characters are the code units
      below 256.
    - A property that is absent and a property that holds a falsy value are
      told apart only where the source does so.
    - A [Map] is an association list in insertion order ([JSMap]); a plain
      object used as a record of optional fields is a [gmap string JSVal].
    - Code that can throw, wait or read the clock runs in the monad [M]:
      a state transformer over [World] whose result is an [Outcome]. *)

From Stdlib Require Import ZArith QArith Ascii String List Bool Lia Permutation.
From stdpp Require Import base option list strings gmap pretty.

Local Open Scope Z_scope.

(* ===================================================================== *)
(** ** JavaScript strings *)
(* ===================================================================== *)

Module JSString.

Definition chars (s : string) : list ascii := list_ascii_of_string s.
Definition of_chars (l : list ascii) : string := string_of_list_ascii l.

Definition code (c : ascii) : N := N_of_ascii c.

(** [WhiteSpace] and [LineTerminator] code units below 256:
    TAB, LF, VT, FF, CR, SP and NBSP. *)
Definition is_white_space (c : ascii) : bool :=
  let n := code c in
  ((9 <=? n) && (n <=? 13) || (n =? 32) || (n =? 160))%N.

Fixpoint trim_start (l : list ascii) : list ascii :=
  match l with
  | c :: l' => if is_white_space c then trim_start l' else l
  | [] => []
  end.

(** [String.prototype.trim] *)
Definition trim (s : string) : string :=
  of_chars (rev (trim_start (rev (trim_start (chars s))))).

(** [String.prototype.startsWith] *)
Definition startsWith (s prefix : string) : bool := String.prefix prefix s.

(** [String.prototype.includes]: some suffix of [s] starts with [needle]. *)
Fixpoint includes (s needle : string) : bool :=
  String.prefix needle s ||
  match s with
  | String _ s' => includes s' needle
  | EmptyString => false
  end.

(** The [||] of two strings, the empty string being falsy. *)
Definition truthy (s : string) : bool := negb (String.eqb s EmptyString).

End JSString.

(* ===================================================================== *)
(** ** Regular expressions

    The fragment of the regular expressions that the sources use:
    character classes, bounded and unbounded repetition of a class,
    sequencing and an optional group. *)
(* ===================================================================== *)

Module RegExp.

(** A member of a bracket expression: a range [a-z] or a single
    character. *)
Inductive item :=
| Range (lo hi : ascii)
| One (c : ascii).

Definition class := list item.

Definition in_item (c : ascii) (i : item) : bool :=
  match i with
  | Range lo hi =>
      ((JSString.code lo <=? JSString.code c) &&
       (JSString.code c <=? JSString.code hi))%N
  | One c' => Ascii.eqb c c'
  end.

Definition in_class (cls : class) (c : ascii) : bool :=
  existsb (in_item c) cls.

Inductive regex :=
| Eps
| Chars (cls : class)                          (* [..]            *)
| Rep (cls : class) (lo : nat) (hi : option nat) (* [..]{lo,hi}   *)
| Seq (r1 r2 : regex)
| Opt (r : regex).                             (* (..)?           *)

(** [\d], a literal character, [x+] and a literal word. *)
Definition digit : class := [Range "0" "9"].
Definition chr (c : ascii) : regex := Chars [One c].
Definition plus (cls : class) : regex := Rep cls 1 None.
Fixpoint lit (s : string) : regex :=
  match s with
  | EmptyString => Eps
  | String c s' => Seq (chr c) (lit s')
  end.

Definition hi_pred (hi : option nat) : option (option nat) :=
  match hi with
  | None => Some None
  | Some O => None
  | Some (S h) => Some (Some h)
  end.

(** Matching [cls{lo,hi}] at the head of [s], then [k] on the rest. *)
Fixpoint rep (cls : class) (lo : nat) (hi : option nat)
    (s : list ascii) (k : list ascii -> bool) : bool :=
  (match lo with O => k s | S _ => false end) ||
  match s with
  | c :: s' =>
      match hi_pred hi with
      | Some hi' => in_class cls c && rep cls (Nat.pred lo) hi' s' k
      | None => false
      end
  | [] => false
  end.

(** A backtracking matcher in continuation-passing style: [run r s k]
    holds when [r] matches a prefix of [s] whose remainder [k] accepts. *)
Fixpoint run (r : regex) (s : list ascii) (k : list ascii -> bool) : bool :=
  match r with
  | Eps => k s
  | Chars cls =>
      match s with
      | c :: s' => in_class cls c && k s'
      | [] => false
      end
  | Rep cls lo hi => rep cls lo hi s k
  | Seq r1 r2 => run r1 s (fun s' => run r2 s' k)
  | Opt r1 => run r1 s k || k s
  end.

Definition at_end (s : list ascii) : bool :=
  match s with [] => true | _ => false end.

(** [/^r/.test(s)] and [/^r$/.test(s)] (no flags: [$] is the end of the
    input). *)
Definition test_prefix (r : regex) (s : string) : bool :=
  run r (JSString.chars s) (fun _ => true).
Definition test_full (r : regex) (s : string) : bool :=
  run r (JSString.chars s) at_end.

(** [s.replace(/^r/, '')] for a pattern [r] of fixed length [n]. *)
Definition remove_prefix (r : regex) (n : nat) (s : string) : string :=
  if test_prefix r s then JSString.of_chars (drop n (JSString.chars s))
  else s.

Fixpoint remove_suffix_chars (r : regex) (s : list ascii) : list ascii :=
  if run r s at_end then []
  else match s with
       | c :: s' => c :: remove_suffix_chars r s'
       | [] => []
       end.

(** [s.replace(/r$/, '')]: the leftmost position from which [r] matches
    up to the end of the input is where the string is cut. *)
Definition remove_suffix (r : regex) (s : string) : string :=
  JSString.of_chars (remove_suffix_chars r (JSString.chars s)).

Definition within (hi : option nat) (n : nat) : Prop :=
  match hi with Some h => (n <= h)%nat | None => True end.

(** The words a pattern denotes. *)
Fixpoint lang (r : regex) (w : list ascii) : Prop :=
  match r with
  | Eps => w = []
  | Chars cls => exists c, w = [c] /\ in_class cls c = true
  | Rep cls lo hi =>
      Forall (fun c => in_class cls c = true) w /\
      (lo <= length w)%nat /\ within hi (length w)
  | Seq r1 r2 => exists w1 w2, w = w1 ++ w2 /\ lang r1 w1 /\ lang r2 w2
  | Opt r1 => w = [] \/ lang r1 w
  end.

End RegExp.

(* ===================================================================== *)
(** ** JavaScript values, objects, maps and outcomes *)
(* ===================================================================== *)

(** The values a property of a paper record holds. *)
Inductive JSVal :=
| JUndefined
| JNull
| JBool (b : bool)
| JNum (n : Z)
| JStr (s : string)
| JArr (l : list string).

Module JS.

Definition truthy (v : JSVal) : bool :=
  match v with
  | JUndefined | JNull => false
  | JBool b => b
  | JNum n => negb (n =? 0)
  | JStr s => JSString.truthy s
  | JArr _ => true
  end.

(** [a || b] *)
Definition or (a b : JSVal) : JSVal := if truthy a then a else b.

(** [typeof v === 'string'] *)
Definition is_string (v : JSVal) : bool :=
  match v with JStr _ => true | _ => false end.

(** [o.k]: reading an absent property gives [undefined]. *)
Definition prop (o : gmap string JSVal) (k : string) : JSVal :=
  default JUndefined (o !! k).

(** [a || b] on optional strings, [null], [undefined] and [''] being
    falsy. *)
Definition truthy_str (o : option string) : bool :=
  match o with Some s => JSString.truthy s | None => false end.

End JS.

(** A paper is a plain object. *)
Abbreviation Paper := (gmap string JSVal).

(** An exception is represented by its message. *)
Definition Error := string.

Inductive Outcome (A : Type) :=
| Returns (a : A)
| Throws (e : Error).
Arguments Returns {A} a.
Arguments Throws {A} e.

(** A [Map] with string keys, in insertion order. *)
Module JSMap.

Definition t (V : Type) := list (string * V).

Definition empty {V} : t V := [].

Fixpoint get {V} (k : string) (m : t V) : option V :=
  match m with
  | (k', v) :: m' => if String.eqb k k' then Some v else get k m'
  | [] => None
  end.

Definition has {V} (k : string) (m : t V) : bool :=
  match get k m with Some _ => true | None => false end.

(** An update in place of the value stored under [k], when there is
    one. *)
Fixpoint alter {V} (f : V -> V) (k : string) (m : t V) : t V :=
  match m with
  | (k', v) :: m' =>
      if String.eqb k k' then (k', f v) :: m' else (k', v) :: alter f k m'
  | [] => []
  end.

(** [m.set(k, v)]: a present key keeps its place, a new one goes last. *)
Definition set {V} (k : string) (v : V) (m : t V) : t V :=
  if has k m then alter (fun _ => v) k m else m ++ [(k, v)].

(** [m.delete(k)] *)
Fixpoint delete {V} (k : string) (m : t V) : t V :=
  match m with
  | (k', v) :: m' => if String.eqb k k' then m' else (k', v) :: delete k m'
  | [] => []
  end.

Definition keys {V} (m : t V) : list string := map fst m.
Definition values {V} (m : t V) : list V := map snd m.

End JSMap.

(* ===================================================================== *)
(** ** lib/plugins/types.cjs *)
(* ===================================================================== *)

Module PdfSource.
Record t := {
  type : string;
  url : string;
  label : string;
  requiresAuth : bool;
  priority : Z
}.
End PdfSource.

Module SearchResult.
(** [papers] is [None] when the property is not an array. *)
Record t := {
  papers : option (list Paper);
  totalResults : Z;
  nextCursor : option string;
  metadata : option (gmap string JSVal)
}.
End SearchResult.

Module UnifiedQuery.
Record t := {
  raw : option string;
  title : option string;
  author : option string;
  abstract : option string;
  fullText : option string;
  year : option (Z * option Z);
  doi : option string;
  arxivId : option string;
  bibcode : option string;
  keywords : list string;
  sort : option string;
  sortDirection : option string;
  limit : option Z;
  offset : option Z
}.
End UnifiedQuery.

Module Capabilities.
Record t := {
  search : bool;
  lookup : bool;
  references : bool;
  citations : bool;
  pdfDownload : bool;
  bibtex : bool;
  metadata : bool
}.

(** [capabilities[key]], falsy for a key that is not a flag. *)
Definition flag (c : t) (key : string) : bool :=
  if String.eqb key "search" then search c
  else if String.eqb key "lookup" then lookup c
  else if String.eqb key "references" then references c
  else if String.eqb key "citations" then citations c
  else if String.eqb key "pdfDownload" then pdfDownload c
  else if String.eqb key "bibtex" then bibtex c
  else if String.eqb key "metadata" then metadata c
  else false.
End Capabilities.

Module RateLimitStatus.
Record t := {
  remaining : Z;
  limit : Z;
  resetAt : Z;
  retryAfter : option Z
}.
End RateLimitStatus.

Module AuthConfig.
Record t := {
  type : string;
  tokenKey : option string;
  description : option string;
  helpUrl : option string
}.
End AuthConfig.

(** A source plugin.  [id] and [name] are empty when the property is absent
    (an absent and an empty string are both falsy, and the sources only
    test them for that).  A method is [None] when the plugin has no such
    function; otherwise it is what the call answers, the external source
    being the plugin's own business. *)
Module SourcePlugin.
Record t := {
  id : string;
  name : string;
  capabilities : option Capabilities.t;
  auth : option AuthConfig.t;
  getRateLimitStatus : option (Outcome (option RateLimitStatus.t));
  search : option (UnifiedQuery.t -> Outcome SearchResult.t);
  getRecord : option (string -> Outcome (option Paper));
  getByDOI : option (string -> Outcome (option Paper));
  getByArxiv : option (string -> Outcome (option Paper));
  getReferences : option (string -> Outcome (list Paper));
  getCitations : option (string -> Outcome (list Paper));
  getPdfSources : option (string -> Outcome (list PdfSource.t));
  downloadPdf : bool;
  getBibtex : option (string -> Outcome string);
  initialize : option (Outcome unit);
  shutdown : option (Outcome unit)
}.

(** [plugin.capabilities[key]] of a plugin that has capabilities. *)
Definition capable (p : t) (key : string) : bool :=
  match capabilities p with
  | Some c => Capabilities.flag c key
  | None => false
  end.
End SourcePlugin.

Module Types.

Definition PDF_SOURCE_ARXIV : string := "arxiv".
Definition PDF_SOURCE_PUBLISHER : string := "publisher".
Definition PDF_SOURCE_ADS_SCAN : string := "ads_scan".

(** [{ title: data.title || 'Untitled', authors: data.authors || [],
       source, sourceId, ...data }]: the four properties are written
    first and every own property of [data] is then copied over them. *)
Definition createPaper (data : gmap string JSVal) (source sourceId : JSVal)
    : Paper :=
  data ∪
  (<["sourceId" := sourceId]>
   (<["source" := source]>
    (<["authors" := JS.or (JS.prop data "authors") (JArr [])]>
     (<["title" := JS.or (JS.prop data "title") (JStr "Untitled")]> ∅)))).

(** [/^[a-z][a-z0-9_-]*$/] *)
Definition re_plugin_id : RegExp.regex :=
  RegExp.Seq
    (RegExp.Chars [RegExp.Range "a" "z"])
    (RegExp.Rep [RegExp.Range "a" "z"; RegExp.Range "0" "9";
                 RegExp.One "_"; RegExp.One "-"] 0 None).

Definition is_some {A} (o : option A) : bool :=
  match o with Some _ => true | None => false end.

Definition error_if (b : bool) (msg : string) : list string :=
  if b then [msg] else [].

(** [validatePlugin]: the list of error messages, in the order they are
    pushed; the plugin is valid when there is none. *)
Definition validatePlugin (plugin : SourcePlugin.t) : list string :=
  let cap := SourcePlugin.capable plugin in
  error_if (negb (JSString.truthy (SourcePlugin.id plugin)))
    "Missing required property: id" ++
  error_if (negb (JSString.truthy (SourcePlugin.name plugin)))
    "Missing required property: name" ++
  error_if (negb (is_some (SourcePlugin.capabilities plugin)))
    "Missing required property: capabilities" ++
  error_if (negb (is_some (SourcePlugin.auth plugin)))
    "Missing required property: auth" ++
  error_if (cap "search" && negb (is_some (SourcePlugin.search plugin)))
    "Plugin declares search capability but has no search() method" ++
  error_if (cap "lookup" && negb (is_some (SourcePlugin.getRecord plugin)))
    "Plugin declares lookup capability but has no getRecord() method" ++
  (if cap "pdfDownload" then
     error_if (negb (is_some (SourcePlugin.getPdfSources plugin)))
       "Plugin declares pdfDownload capability but has no getPdfSources() method" ++
     error_if (negb (SourcePlugin.downloadPdf plugin))
       "Plugin declares pdfDownload capability but has no downloadPdf() method"
   else []) ++
  error_if (JSString.truthy (SourcePlugin.id plugin) &&
            negb (RegExp.test_full re_plugin_id (SourcePlugin.id plugin)))
    "Plugin ID must be lowercase alphanumeric with optional - or _".

Definition valid (plugin : SourcePlugin.t) : bool :=
  match validatePlugin plugin with [] => true | _ => false end.

End Types.

(* ===================================================================== *)
(** ** plugins/ads/index.cjs *)
(* ===================================================================== *)

Module Esource.
(** An esource record of ADS; a field is [None] when it is absent. *)
Record t := {
  link_type : option string;
  type : option string;
  url : option string
}.
End Esource.

Module AdsPlugin.

(** [/^arXiv:/i] *)
Definition re_arxiv_prefix : RegExp.regex :=
  RegExp.Seq (RegExp.Chars [RegExp.One "a"; RegExp.One "A"])
 (RegExp.Seq (RegExp.Chars [RegExp.One "r"; RegExp.One "R"])
 (RegExp.Seq (RegExp.Chars [RegExp.One "x"; RegExp.One "X"])
 (RegExp.Seq (RegExp.Chars [RegExp.One "i"; RegExp.One "I"])
 (RegExp.Seq (RegExp.Chars [RegExp.One "v"; RegExp.One "V"])
             (RegExp.chr ":"))))).

(** [/v\d+$/] *)
Definition re_version_suffix : RegExp.regex :=
  RegExp.Seq (RegExp.chr "v") (RegExp.plus RegExp.digit).

(** [arxivId.replace(/^arXiv:/i, '').replace(/v\d+$/, '')] *)
Definition cleanId (arxivId : string) : string :=
  RegExp.remove_suffix re_version_suffix
    (RegExp.remove_prefix re_arxiv_prefix 6 arxivId).

(** [source.link_type || source.type || ''] *)
Definition linkType (source : Esource.t) : string :=
  if JS.truthy_str (Esource.link_type source)
  then default EmptyString (Esource.link_type source)
  else if JS.truthy_str (Esource.type source)
  then default EmptyString (Esource.type source)
  else EmptyString.

Definition mk (type url label : string) (requiresAuth : bool) (priority : Z)
    : PdfSource.t :=
  {| PdfSource.type := type; PdfSource.url := url;
     PdfSource.label := label; PdfSource.requiresAuth := requiresAuth;
     PdfSource.priority := priority |}.

(** One turn of the loop over the esources; the state is the list built
    so far and the [priority] counter. *)
Definition add_esource (st : list PdfSource.t * Z) (source : Esource.t)
    : list PdfSource.t * Z :=
  let '(sources, priority) := st in
  let linkType := linkType source in
  match Esource.url source with
  | None => st
  | Some url =>
      if negb (JSString.truthy url) || negb (JSString.startsWith url "http")
      then st
      else if JSString.includes linkType "EPRINT_PDF" then
        (sources ++ [mk Types.PDF_SOURCE_ARXIV url "arXiv PDF" false priority],
         priority + 1)
      else if JSString.includes linkType "PUB_PDF" then
        (sources ++ [mk Types.PDF_SOURCE_PUBLISHER url "Publisher PDF" true priority],
         priority + 1)
      else if JSString.includes linkType "ADS_PDF" then
        (sources ++ [mk Types.PDF_SOURCE_ADS_SCAN url "ADS Scan" false priority],
         priority + 1)
      else st
  end.

Definition is_arxiv (s : PdfSource.t) : bool :=
  String.eqb (PdfSource.type s) Types.PDF_SOURCE_ARXIV.

Definition esourcesToPdfSources (esources : list Esource.t)
    (bibcode : string) (arxivId : option string) : list PdfSource.t :=
  let '(sources, priority) := fold_left add_esource esources ([], 0) in
  if negb (existsb is_arxiv sources) && JS.truthy_str arxivId then
    sources ++
    [mk Types.PDF_SOURCE_ARXIV
        ("https://arxiv.org/pdf/" +:+ cleanId (default EmptyString arxivId) +:+ ".pdf")
        "arXiv PDF" false priority]
  else sources.

End AdsPlugin.

(* ===================================================================== *)
(** ** lib/plugins/manager.cjs: the state of a manager and its world *)
(* ===================================================================== *)

(** The events a manager emits. *)
Inductive Event :=
| PluginRegistered (pluginId : string)
| PluginUnregistered (pluginId : string)
| ActiveChanged (previous : option string) (current : string)
| PluginEnabled (pluginId : string)
| PluginDisabled (pluginId : string)
| Initialized
| ShutDown.

Module PluginRegistration.
Record t := {
  id : string;
  plugin : SourcePlugin.t;
  enabled : bool;
  registeredAt : Z
}.

Definition set_enabled (b : bool) (r : t) : t :=
  {| id := id r; plugin := plugin r; enabled := b;
     registeredAt := registeredAt r |}.
End PluginRegistration.

(** The fields of a [PluginManager]; [emitted] is the trace of the events
    it has emitted, oldest first. *)
Module State.
Record t := {
  plugins : JSMap.t PluginRegistration.t;
  activePluginId : option string;
  lastRequestTime : gmap string Z;
  emitted : list Event
}.

Definition set_plugins (f : JSMap.t PluginRegistration.t ->
                            JSMap.t PluginRegistration.t) (s : t) : t :=
  {| plugins := f (plugins s); activePluginId := activePluginId s;
     lastRequestTime := lastRequestTime s; emitted := emitted s |}.

Definition set_active (a : option string) (s : t) : t :=
  {| plugins := plugins s; activePluginId := a;
     lastRequestTime := lastRequestTime s; emitted := emitted s |}.

Definition set_last (pluginId : string) (time : Z) (s : t) : t :=
  {| plugins := plugins s; activePluginId := activePluginId s;
     lastRequestTime := <[pluginId := time]> (lastRequestTime s);
     emitted := emitted s |}.

Definition emit (e : Event) (s : t) : t :=
  {| plugins := plugins s; activePluginId := activePluginId s;
     lastRequestTime := lastRequestTime s; emitted := emitted s ++ [e] |}.
End State.

(** The world a manager runs in: the clock in milliseconds, the number of
    suspensions so far, and how late each suspension resumes (a timer never
    fires early, an awaited answer takes some time). *)
Record World := {
  now : Z;
  awaited : nat;
  lateness : nat -> N;
  manager : State.t
}.

Definition M (A : Type) : Type := World -> Outcome A * World.

Module Eff.

Definition ret {A} (a : A) : M A := fun w => (Returns a, w).

Definition throw {A} (e : Error) : M A := fun w => (Throws e, w).

Definition bind {A B} (c : M A) (k : A -> M B) : M B :=
  fun w =>
    match c w with
    | (Returns a, w') => k a w'
    | (Throws e, w') => (Throws e, w')
    end.

(** [try { c } catch (err) { h err }]: what [c] did up to the exception
    stays done. *)
Definition try_catch {A} (c : M A) (h : Error -> M A) : M A :=
  fun w =>
    match c w with
    | (Returns a, w') => (Returns a, w')
    | (Throws e, w') => h e w'
    end.

Definition gets {A} (f : State.t -> A) : M A :=
  fun w => (Returns (f (manager w)), w).

Definition on_manager (f : State.t -> State.t) (w : World) : World :=
  {| now := now w; awaited := awaited w; lateness := lateness w;
     manager := f (manager w) |}.

Definition modify (f : State.t -> State.t) : M unit :=
  fun w => (Returns tt, on_manager f w).

(** [Date.now()] *)
Definition Date_now : M Z := fun w => (Returns (now w), w).

Definition suspend (ms : Z) (w : World) : World :=
  {| now := now w + Z.max 0 ms + Z.of_N (lateness w (awaited w));
     awaited := S (awaited w); lateness := lateness w;
     manager := manager w |}.

(** [await new Promise(resolve => setTimeout(resolve, ms))] *)
Definition setTimeout (ms : Z) : M unit :=
  fun w => (Returns tt, suspend ms w).

(** [await] of the answer of a plugin *)
Definition await {A} (answer : Outcome A) : M A :=
  fun w => (answer, suspend 0 w).

End Eff.

Notation "x <- c1 ;; c2" := (Eff.bind c1 (fun x => c2))
  (at level 100, c1 at next level, right associativity).
Notation "c1 ;;; c2" := (Eff.bind c1 (fun _ => c2))
  (at level 100, right associativity).

(* ===================================================================== *)
(** ** lib/plugins/manager.cjs: class PluginManager *)
(* ===================================================================== *)

Module IdType.
Inductive t := doi | arxiv | bibcode | inspire | unknown.
End IdType.

Module ListOptions.
Record t := {
  enabledOnly : bool;
  capability : option string
}.
(** [list()] without argument *)
Definition none : t := {| enabledOnly := false; capability := None |}.
End ListOptions.

(** What [delays[pluginId] || delays.default] evaluates to: a number of
    milliseconds, or a member that the object literal inherits from
    [Object.prototype]. *)
Inductive DelayValue :=
| Millis (ms : Z)
| Inherited (member : string).

Module PluginManager.

Definition dq : string := String (ascii_of_nat 34) EmptyString.

Definition constructor : State.t :=
  {| State.plugins := JSMap.empty;
     State.activePluginId := None;
     State.lastRequestTime := ∅;
     State.emitted := [] |}.

(* -------------------------------------------------------------- *)
(** *** Plugin access *)

(** [get(pluginId)] *)
Definition get (pluginId : string) (s : State.t) : option SourcePlugin.t :=
  match JSMap.get pluginId (State.plugins s) with
  | Some registration => Some (PluginRegistration.plugin registration)
  | None => None
  end.

(** [getActive()] *)
Definition getActive (s : State.t) : option SourcePlugin.t :=
  match State.activePluginId s with
  | Some a => if JSString.truthy a then get a s else None
  | None => None
  end.

Definition keep (options : ListOptions.t) (reg : PluginRegistration.t)
    : bool :=
  if ListOptions.enabledOnly options && negb (PluginRegistration.enabled reg)
  then false
  else if JS.truthy_str (ListOptions.capability options) &&
          negb (SourcePlugin.capable (PluginRegistration.plugin reg)
                  (default EmptyString (ListOptions.capability options)))
  then false
  else true.

(** [list(options)] *)
Definition list_ (options : ListOptions.t) (s : State.t)
    : list SourcePlugin.t :=
  map PluginRegistration.plugin
    (List.filter (keep options) (JSMap.values (State.plugins s))).

(** [xs.length > 0 ? xs[0].id : null] *)
Definition first_id (xs : list SourcePlugin.t) : option string :=
  match xs with
  | p :: _ => Some (SourcePlugin.id p)
  | [] => None
  end.

(** [this.activePluginId === pluginId] *)
Definition is_active (pluginId : string) (s : State.t) : bool :=
  match State.activePluginId s with
  | Some a => String.eqb a pluginId
  | None => false
  end.

Definition not_registered (pluginId : string) : Error :=
  "Plugin " +:+ dq +:+ pluginId +:+ dq +:+ " is not registered".

(* -------------------------------------------------------------- *)
(** *** Registration *)

(** [setActive(pluginId)] *)
Definition setActive (pluginId : string) : M unit :=
  registered <- Eff.gets (fun s => JSMap.has pluginId (State.plugins s));;
  if negb registered then Eff.throw (not_registered pluginId)
  else
    previous <- Eff.gets State.activePluginId;;
    Eff.modify (State.set_active (Some pluginId));;;
    Eff.modify (State.emit (ActiveChanged previous pluginId)).

(** [register(plugin)] *)
Definition register (plugin : SourcePlugin.t) : M unit :=
  let id := SourcePlugin.id plugin in
  let errors := Types.validatePlugin plugin in
  if negb (Types.valid plugin) then
    Eff.throw ("Invalid plugin " +:+ dq +:+ id +:+ dq +:+ ": " +:+
               String.concat ", " errors)
  else
    taken <- Eff.gets (fun s => JSMap.has id (State.plugins s));;
    if taken then
      Eff.throw ("Plugin " +:+ dq +:+ id +:+ dq +:+ " is already registered")
    else
      date <- Eff.Date_now;;
      Eff.modify (State.set_plugins (JSMap.set id
        {| PluginRegistration.id := id;
           PluginRegistration.plugin := plugin;
           PluginRegistration.enabled := true;
           PluginRegistration.registeredAt := date |}));;;
      Eff.modify (State.emit (PluginRegistered id));;;
      active <- Eff.gets State.activePluginId;;
      match active with
      | None => setActive id
      | Some _ => Eff.ret tt
      end.

(** A lifecycle hook whose failure is logged and not passed on. *)
Definition call_quietly (hook : option (Outcome unit)) : M unit :=
  match hook with
  | Some answer => Eff.try_catch (Eff.await answer) (fun _ => Eff.ret tt)
  | None => Eff.ret tt
  end.

(** [unregister(pluginId)] *)
Definition unregister (pluginId : string) : M unit :=
  registration <- Eff.gets (fun s => JSMap.get pluginId (State.plugins s));;
  match registration with
  | None => Eff.throw (not_registered pluginId)
  | Some reg =>
      call_quietly (SourcePlugin.shutdown (PluginRegistration.plugin reg));;;
      Eff.modify (State.set_plugins (JSMap.delete pluginId));;;
      Eff.modify (State.emit (PluginUnregistered pluginId));;;
      active <- Eff.gets (is_active pluginId);;
      if active then
        remaining <- Eff.gets (list_ ListOptions.none);;
        Eff.modify (State.set_active (first_id remaining))
      else Eff.ret tt
  end.

(* -------------------------------------------------------------- *)
(** *** Enable / disable *)

(** [enable(pluginId)] *)
Definition enable (pluginId : string) : M unit :=
  registered <- Eff.gets (fun s => JSMap.has pluginId (State.plugins s));;
  if negb registered then Eff.throw (not_registered pluginId)
  else
    Eff.modify (State.set_plugins
      (JSMap.alter (PluginRegistration.set_enabled true) pluginId));;;
    Eff.modify (State.emit (PluginEnabled pluginId)).

(** [disable(pluginId)] *)
Definition disable (pluginId : string) : M unit :=
  registered <- Eff.gets (fun s => JSMap.has pluginId (State.plugins s));;
  if negb registered then Eff.throw (not_registered pluginId)
  else
    Eff.modify (State.set_plugins
      (JSMap.alter (PluginRegistration.set_enabled false) pluginId));;;
    Eff.modify (State.emit (PluginDisabled pluginId));;;
    active <- Eff.gets (is_active pluginId);;
    if active then
      enabled <- Eff.gets (list_ {| ListOptions.enabledOnly := true;
                                    ListOptions.capability := None |});;
      Eff.modify (State.set_active (first_id enabled))
    else Eff.ret tt.

(* -------------------------------------------------------------- *)
(** *** Rate limiting *)

(** The names that every object literal inherits from
    [Object.prototype]. *)
Definition object_prototype_members : list string :=
  ["constructor"; "__defineGetter__"; "__defineSetter__";
   "hasOwnProperty"; "__lookupGetter__"; "__lookupSetter__";
   "isPrototypeOf"; "propertyIsEnumerable"; "toString"; "valueOf";
   "__proto__"; "toLocaleString"].

(** [_getMinDelay(pluginId)]: [delays[pluginId] || delays.default] *)
Definition _getMinDelay (pluginId : string) : DelayValue :=
  if String.eqb pluginId "ads" then Millis 50
  else if String.eqb pluginId "arxiv" then Millis 3000
  else if String.eqb pluginId "inspire" then Millis 350
  else if String.eqb pluginId "default" then Millis 100
  else if existsb (String.eqb pluginId) object_prototype_members
  then Inherited pluginId
  else Millis 100.

(** [elapsed < minDelay]: a member inherited from [Object.prototype]
    converts to [NaN], and no number is below [NaN]. *)
Definition below (elapsed : Z) (minDelay : DelayValue) : bool :=
  match minDelay with
  | Millis ms => elapsed <? ms
  | Inherited _ => false
  end.

(** [minDelay - elapsed], computed only where [elapsed < minDelay]. *)
Definition difference (minDelay : DelayValue) (elapsed : Z) : Z :=
  match minDelay with
  | Millis ms => ms - elapsed
  | Inherited _ => 0
  end.

(** [status.remaining <= 0 && status.retryAfter] *)
Definition must_retry_later (status : RateLimitStatus.t) : bool :=
  (RateLimitStatus.remaining status <=? 0) &&
  match RateLimitStatus.retryAfter status with
  | Some seconds => negb (seconds =? 0)
  | None => false
  end.

(** [_enforceRateLimit(pluginId)] *)
Definition _enforceRateLimit (pluginId : string) : M unit :=
  plugin <- Eff.gets (get pluginId);;
  match plugin with
  | None => Eff.ret tt
  | Some plugin =>
      match SourcePlugin.getRateLimitStatus plugin with
      | None => Eff.ret tt
      | Some (Throws e) => Eff.throw e
      | Some (Returns None) => Eff.ret tt
      | Some (Returns (Some status)) =>
          (if must_retry_later status then
             Eff.setTimeout
               (default 0 (RateLimitStatus.retryAfter status) * 1000)
           else Eff.ret tt);;;
          let minDelay := _getMinDelay pluginId in
          lastRequest <- Eff.gets (fun s =>
            default 0 (State.lastRequestTime s !! pluginId));;
          time <- Eff.Date_now;;
          let elapsed := time - lastRequest in
          (if below elapsed minDelay then
             Eff.setTimeout (difference minDelay elapsed)
           else Eff.ret tt);;;
          time' <- Eff.Date_now;;
          Eff.modify (State.set_last pluginId time')
      end
  end.

(* -------------------------------------------------------------- *)
(** *** Helpers *)

Definition times (cls : RegExp.class) (n : nat) : RegExp.regex :=
  RegExp.Rep cls n (Some n).

(** [/^10\.\d{4,}\//] *)
Definition re_doi : RegExp.regex :=
  RegExp.Seq (RegExp.lit "10.")
 (RegExp.Seq (RegExp.Rep RegExp.digit 4 None) (RegExp.chr "/")).

(** [/^\d{4}\.\d{4,5}(v\d+)?$/] *)
Definition re_arxiv : RegExp.regex :=
  RegExp.Seq (times RegExp.digit 4)
 (RegExp.Seq (RegExp.chr ".")
 (RegExp.Seq (RegExp.Rep RegExp.digit 4 (Some 5%nat))
             (RegExp.Opt (RegExp.Seq (RegExp.chr "v")
                                     (RegExp.plus RegExp.digit))))).

(** [/^[a-z-]+\/\d{7}$/] *)
Definition re_arxiv_legacy : RegExp.regex :=
  RegExp.Seq (RegExp.plus [RegExp.Range "a" "z"; RegExp.One "-"])
 (RegExp.Seq (RegExp.chr "/") (times RegExp.digit 7)).

(** [/^\d{4}[A-Za-z&.]{5}[A-Za-z0-9.]{9}[A-Z.]$/] *)
Definition re_bibcode : RegExp.regex :=
  RegExp.Seq (times RegExp.digit 4)
 (RegExp.Seq (times [RegExp.Range "A" "Z"; RegExp.Range "a" "z";
                     RegExp.One "&"; RegExp.One "."] 5)
 (RegExp.Seq (times [RegExp.Range "A" "Z"; RegExp.Range "a" "z";
                     RegExp.Range "0" "9"; RegExp.One "."] 9)
             (RegExp.Chars [RegExp.Range "A" "Z"; RegExp.One "."]))).

(** [/^\d+$/] *)
Definition re_numeric : RegExp.regex := RegExp.plus RegExp.digit.

(** [_detectIdentifierType(identifier)] *)
Definition _detectIdentifierType (identifier : string) : IdType.t :=
  let id := JSString.trim identifier in
  if RegExp.test_prefix re_doi id then IdType.doi
  else if RegExp.test_full re_arxiv id || RegExp.test_full re_arxiv_legacy id
  then IdType.arxiv
  else if RegExp.test_full re_bibcode id then IdType.bibcode
  else if RegExp.test_full re_numeric id && (String.length id <? 10)%nat
  then IdType.inspire
  else IdType.unknown.

(** Calling a method of a plugin and awaiting its answer; calling what
    is not a function throws a [TypeError]. *)
Definition call {A B} (method : option (A -> Outcome B)) (name : string)
    (arg : A) : M B :=
  match method with
  | Some f => Eff.await (f arg)
  | None => Eff.throw ("TypeError: plugin." +:+ name +:+ " is not a function")
  end.

(** [_lookupWithPlugin(plugin, identifier, idType)] *)
Definition _lookupWithPlugin (plugin : SourcePlugin.t) (identifier : string)
    (idType : IdType.t) : M (option Paper) :=
  _enforceRateLimit (SourcePlugin.id plugin);;;
  let getRecord := call (SourcePlugin.getRecord plugin) "getRecord" identifier in
  match idType with
  | IdType.doi =>
      match SourcePlugin.getByDOI plugin with
      | Some f => Eff.await (f identifier)
      | None => getRecord
      end
  | IdType.arxiv =>
      match SourcePlugin.getByArxiv plugin with
      | Some f => Eff.await (f identifier)
      | None => getRecord
      end
  | IdType.bibcode =>
      if String.eqb (SourcePlugin.id plugin) "ads" then getRecord
      else getRecord
  | IdType.inspire =>
      if String.eqb (SourcePlugin.id plugin) "inspire" then getRecord
      else getRecord
  | IdType.unknown => getRecord
  end.

(* -------------------------------------------------------------- *)
(** *** Unified operations *)

(** [result.papers = result.papers.map(p => ({ ...p, source: id }))] *)
Definition tag (pluginId : string) (result : SearchResult.t)
    : M SearchResult.t :=
  match SearchResult.papers result with
  | None => Eff.throw "TypeError: result.papers.map is not a function"
  | Some papers =>
      Eff.ret
        {| SearchResult.papers :=
             Some (map (fun p => <["source" := JStr pluginId]> p) papers);
           SearchResult.totalResults := SearchResult.totalResults result;
           SearchResult.nextCursor := SearchResult.nextCursor result;
           SearchResult.metadata := SearchResult.metadata result |}
  end.

(** [search(query)] *)
Definition search (query : UnifiedQuery.t) : M SearchResult.t :=
  active <- Eff.gets getActive;;
  match active with
  | None => Eff.throw "No active plugin"
  | Some plugin =>
      if negb (SourcePlugin.capable plugin "search") then
        Eff.throw ("Plugin " +:+ dq +:+ SourcePlugin.id plugin +:+ dq +:+
                   " does not support search")
      else
        _enforceRateLimit (SourcePlugin.id plugin);;;
        result <- call (SourcePlugin.search plugin) "search" query;;
        tag (SourcePlugin.id plugin) result
  end.

Definition Results : Type :=
  JSMap.t SearchResult.t * JSMap.t Error.

(** The body of the function mapped over the search plugins by
    [federatedSearch]: it records its own outcome and never throws. *)
Definition search_task (query : UnifiedQuery.t) (plugin : SourcePlugin.t)
    (acc : Results) : M Results :=
  Eff.try_catch
    (_enforceRateLimit (SourcePlugin.id plugin);;;
     result <- call (SourcePlugin.search plugin) "search" query;;
     result' <- tag (SourcePlugin.id plugin) result;;
     Eff.ret (JSMap.set (SourcePlugin.id plugin) result' (fst acc), snd acc))
    (fun err =>
     Eff.ret (fst acc, JSMap.set (SourcePlugin.id plugin) err (snd acc))).

Fixpoint all_settled (query : UnifiedQuery.t) (tasks : list SourcePlugin.t)
    (acc : Results) : M Results :=
  match tasks with
  | plugin :: tasks' =>
      acc' <- search_task query plugin acc;;
      all_settled query tasks' acc'
  | [] => Eff.ret acc
  end.

(** [federatedSearch(query)].  The tasks run concurrently and each ends
    by one write into [results] or [errors]; [completion] is the order in
    which they come to that write. *)
Definition federatedSearch (query : UnifiedQuery.t)
    (completion : list SourcePlugin.t -> list SourcePlugin.t) : M Results :=
  searchPlugins <- Eff.gets (list_ {| ListOptions.enabledOnly := true;
                                      ListOptions.capability := Some "search" |});;
  all_settled query (completion searchPlugins) (JSMap.empty, JSMap.empty).

(** One turn of a lookup: the paper found, or [None] on a miss or an
    error. *)
Definition try_lookup (plugin : SourcePlugin.t) (identifier : string)
    (idType : IdType.t) : M (option Paper) :=
  Eff.try_catch (_lookupWithPlugin plugin identifier idType)
                (fun _ => Eff.ret None).

(** The loop [for (const plugin of lookupPlugins)] of [lookup]. *)
Fixpoint try_others (active : option SourcePlugin.t)
    (lookupPlugins : list SourcePlugin.t) (identifier : string)
    (idType : IdType.t) : M (option Paper) :=
  match lookupPlugins with
  | plugin :: rest =>
      if match active with
         | Some a => String.eqb (SourcePlugin.id plugin) (SourcePlugin.id a)
         | None => false
         end
      then try_others active rest identifier idType
      else
        paper <- try_lookup plugin identifier idType;;
        match paper with
        | Some p => Eff.ret (Some p)
        | None => try_others active rest identifier idType
        end
  | [] => Eff.ret None
  end.

(** [lookup(identifier)] *)
Definition lookup (identifier : string) : M (option Paper) :=
  let idType := _detectIdentifierType identifier in
  lookupPlugins <- Eff.gets (list_ {| ListOptions.enabledOnly := true;
                                      ListOptions.capability := Some "lookup" |});;
  active <- Eff.gets getActive;;
  first <- match active with
           | Some a =>
               if SourcePlugin.capable a "lookup"
               then try_lookup a identifier idType
               else Eff.ret None
           | None => Eff.ret None
           end;;
  match first with
  | Some paper => Eff.ret (Some paper)
  | None => try_others active lookupPlugins identifier idType
  end.

(* -------------------------------------------------------------- *)
(** *** Lifecycle *)

(** The function mapped over the registrations by [initialize]: a
    plugin whose hook fails is disabled. *)
Definition initialize_one (reg : PluginRegistration.t) : M unit :=
  match SourcePlugin.initialize (PluginRegistration.plugin reg) with
  | Some answer =>
      Eff.try_catch (Eff.await answer)
        (fun _ => Eff.modify (State.set_plugins
           (JSMap.alter (PluginRegistration.set_enabled false)
                        (PluginRegistration.id reg))))
  | None => Eff.ret tt
  end.

Fixpoint for_each {A} (f : A -> M unit) (xs : list A) : M unit :=
  match xs with
  | x :: xs' => f x;;; for_each f xs'
  | [] => Eff.ret tt
  end.

(** [initialize()] *)
Definition initialize : M unit :=
  regs <- Eff.gets (fun s => JSMap.values (State.plugins s));;
  for_each initialize_one regs;;;
  Eff.modify (State.emit Initialized).

(** [shutdown()] *)
Definition shutdown : M unit :=
  regs <- Eff.gets (fun s => JSMap.values (State.plugins s));;
  for_each (fun reg => call_quietly
              (SourcePlugin.shutdown (PluginRegistration.plugin reg))) regs;;;
  Eff.modify (State.set_plugins (fun _ => JSMap.empty));;;
  Eff.modify (State.set_active None);;;
  Eff.modify (State.emit ShutDown).

End PluginManager.

(* ===================================================================== *)
(** ** The shapes of identifiers, as the specification words them

    These predicates do not come from the code: they say in terms of
    words and their parts what section 4.1 of the specification says, and
    the classifier is compared with them below. *)
(* ===================================================================== *)

Module Shape.

Definition digit (c : ascii) : Prop :=
  (48 <= JSString.code c <= 57)%N.
Definition upper (c : ascii) : Prop :=
  (65 <= JSString.code c <= 90)%N.
Definition lower (c : ascii) : Prop :=
  (97 <= JSString.code c <= 122)%N.
Definition letter (c : ascii) : Prop := upper c \/ lower c.
Definition alnum (c : ascii) : Prop := letter c \/ digit c.
Definition white_space (c : ascii) : Prop :=
  JSString.is_white_space c = true.

Definition digits (w : list ascii) : Prop := Forall digit w.

(** [10.] followed by at least 4 digits, a slash, then any suffix. *)
Definition doi (w : list ascii) : Prop :=
  exists registrant suffix,
    w = JSString.chars "10." ++ registrant ++ "/"%char :: suffix /\
    digits registrant /\ (4 <= length registrant)%nat.

(** An optional version suffix [vN]. *)
Definition version (w : list ascii) : Prop :=
  w = [] \/ exists n, w = "v"%char :: n /\ digits n /\ n <> [].

(** [YYMM.NNNNN]: 4 digits, a dot, 4 or 5 digits, an optional version. *)
Definition arxiv_new (w : list ascii) : Prop :=
  exists yymm number v,
    w = yymm ++ "."%char :: number ++ v /\
    digits yymm /\ length yymm = 4%nat /\
    digits number /\ (4 <= length number <= 5)%nat /\
    version v.

(** [archive-name/YYMMNNN] *)
Definition arxiv_legacy (w : list ascii) : Prop :=
  exists archive number,
    w = archive ++ "/"%char :: number /\
    Forall (fun c => lower c \/ c = "-"%char) archive /\ archive <> [] /\
    digits number /\ length number = 7%nat.

Definition arxiv (w : list ascii) : Prop := arxiv_new w \/ arxiv_legacy w.

(** A word of four parts: a 4-digit year, 5 characters of the class
    [journal], 9 alphanumeric-or-dot characters, and one upper-case
    letter or dot. *)
Definition bibcode_with (journal : ascii -> Prop) (w : list ascii) : Prop :=
  exists year j volume_page initial,
    w = year ++ j ++ volume_page ++ [initial] /\
    digits year /\ length year = 4%nat /\
    Forall journal j /\ length j = 5%nat /\
    Forall (fun c => alnum c \/ c = "."%char) volume_page /\
    length volume_page = 9%nat /\
    (upper initial \/ initial = "."%char).

(** The bibcode of the specification: the 5 characters are alphanumeric,
    ampersand or dot. *)
Definition bibcode_claimed : list ascii -> Prop :=
  bibcode_with (fun c => alnum c \/ c = "&"%char \/ c = "."%char).

(** The bibcode without digits among the 5 characters. *)
Definition bibcode : list ascii -> Prop :=
  bibcode_with (fun c => letter c \/ c = "&"%char \/ c = "."%char).

(** A bare numeric string under 10 digits. *)
Definition inspire (w : list ascii) : Prop :=
  digits w /\ w <> [] /\ (length w < 10)%nat.


End Shape.

(** What the specification says of the list of PDF sources. *)
Module PdfSpec.

(** An esource whose URL the plugin can use. *)
Definition usable (e : Esource.t) : bool :=
  match Esource.url e with
  | Some url => JSString.startsWith url "http"
  | None => false
  end.

(** An arXiv-type link among the esources. *)
Definition arxiv_link (e : Esource.t) : bool :=
  usable e && JSString.includes (AdsPlugin.linkType e) "EPRINT_PDF".


(** The entry constructed from an arXiv identifier without its prefix
    and version. *)
Definition constructed (bare : string) (priority : Z) : PdfSource.t :=
  {| PdfSource.type := "arxiv";
     PdfSource.url := "https://arxiv.org/pdf/" +:+ bare +:+ ".pdf";
     PdfSource.label := "arXiv PDF";
     PdfSource.requiresAuth := false;
     PdfSource.priority := priority |}.

(** A word that ends with a version of its own. *)
Definition has_version (w : list ascii) : Prop :=
  exists pre n, w = pre ++ "v"%char :: n /\ Shape.digits n /\ n <> [].

(** [id] is [bare] with an optional prefix [arXiv:], in any case, and an
    optional version suffix. *)
Definition decorated (bare id : list ascii) : Prop :=
  exists prefix v,
    id = prefix ++ bare ++ v /\
    (prefix = [] \/ RegExp.lang AdsPlugin.re_arxiv_prefix prefix) /\
    Shape.version v.

End PdfSpec.

(** The registry of a manager and the calls that change it. *)
Module Registry.

Definition registered (pluginId : string) (s : State.t) : Prop :=
  JSMap.has pluginId (State.plugins s) = true.

(** The active-plugin pointer is [null] or the ID of a registered
    plugin. *)
Definition active_ok (s : State.t) : Prop :=
  match State.activePluginId s with
  | Some a => registered a s
  | None => True
  end.

(** Every registration is stored under the ID of its plugin, and no ID is
    stored twice. *)
Definition keyed (s : State.t) : Prop :=
  Forall (fun kv => SourcePlugin.id (PluginRegistration.plugin (snd kv)) = fst kv)
         (State.plugins s) /\
  NoDup (JSMap.keys (State.plugins s)).

Definition invariant (s : State.t) : Prop := keyed s /\ active_ok s.

(** [p] is the plugin registered under its own ID. *)
Definition known (m : JSMap.t PluginRegistration.t) (p : SourcePlugin.t)
    : Prop :=
  exists reg, JSMap.get (SourcePlugin.id p) m = Some reg /\
              PluginRegistration.plugin reg = p.

(** The registrations with their plugins, whatever their flags. *)
Definition skeleton (m : JSMap.t PluginRegistration.t)
    : list (string * SourcePlugin.t) :=
  map (fun kv => (fst kv, PluginRegistration.plugin (snd kv))) m.

(** The registration that [register] stores. *)
Definition entry (plugin : SourcePlugin.t) (date : Z) : PluginRegistration.t :=
  {| PluginRegistration.id := SourcePlugin.id plugin;
     PluginRegistration.plugin := plugin;
     PluginRegistration.enabled := true;
     PluginRegistration.registeredAt := date |}.

(** A call of one of the operations that change the registry. *)
Inductive Op :=
| Register (plugin : SourcePlugin.t)
| Unregister (pluginId : string)
| SetActive (pluginId : string)
| Enable (pluginId : string)
| Disable (pluginId : string)
| Initialize
| Shutdown.

Definition perform (op : Op) : M unit :=
  match op with
  | Register plugin => PluginManager.register plugin
  | Unregister pluginId => PluginManager.unregister pluginId
  | SetActive pluginId => PluginManager.setActive pluginId
  | Enable pluginId => PluginManager.enable pluginId
  | Disable pluginId => PluginManager.disable pluginId
  | Initialize => PluginManager.initialize
  | Shutdown => PluginManager.shutdown
  end.

(** A caller that performs the calls one after the other and goes on
    after a call that throws. *)
Fixpoint perform_all (ops : list Op) : M unit :=
  match ops with
  | op :: ops' =>
      Eff.try_catch (perform op) (fun _ => Eff.ret tt);;;
      perform_all ops'
  | [] => Eff.ret tt
  end.

(** The world of a manager that has just been constructed. *)
Definition fresh (time : Z) (late : nat -> N) : World :=
  {| now := time; awaited := 0; lateness := late;
     manager := PluginManager.constructor |}.

End Registry.

(** What the specification says of interface validation. *)
Module Validation.

Definition nonempty {A} (l : list A) : bool :=
  match l with [] => false | _ => true end.

(** A lower-case letter followed by lower-case letters, digits, [-] and
    [_]. *)
Definition id_shape (w : list ascii) : Prop :=
  exists c rest,
    w = c :: rest /\ Shape.lower c /\
    Forall (fun c => Shape.lower c \/ Shape.digit c \/
                     c = "_"%char \/ c = "-"%char) rest.

Definition missing_field (p : SourcePlugin.t) : Prop :=
  SourcePlugin.id p = EmptyString \/ SourcePlugin.name p = EmptyString \/
  SourcePlugin.capabilities p = None \/ SourcePlugin.auth p = None.

Definition malformed_id (p : SourcePlugin.t) : Prop :=
  SourcePlugin.id p <> EmptyString /\
  ~ id_shape (JSString.chars (SourcePlugin.id p)).

Definition declares (p : SourcePlugin.t) (key : string) : Prop :=
  SourcePlugin.capable p key = true.

(** A declared capability among search, lookup and pdfDownload without
    its method. *)
Definition unbacked (p : SourcePlugin.t) : Prop :=
  (declares p "search" /\ SourcePlugin.search p = None) \/
  (declares p "lookup" /\ SourcePlugin.getRecord p = None) \/
  (declares p "pdfDownload" /\
   (SourcePlugin.getPdfSources p = None \/ SourcePlugin.downloadPdf p = false)).

(** A declared capability without its method, references, citations and
    bibtex included (the interface names no method for metadata). *)
Definition unbacked_claimed (p : SourcePlugin.t) : Prop :=
  unbacked p \/
  (declares p "references" /\ SourcePlugin.getReferences p = None) \/
  (declares p "citations" /\ SourcePlugin.getCitations p = None) \/
  (declares p "bibtex" /\ SourcePlugin.getBibtex p = None).

Definition fails (p : SourcePlugin.t) : Prop :=
  missing_field p \/ malformed_id p \/ unbacked p.

Definition fails_claimed (p : SourcePlugin.t) : Prop :=
  missing_field p \/ malformed_id p \/ unbacked_claimed p.

End Validation.

(** What the specification says of [lookup]. *)
Module LookupSpec.

Definition options : ListOptions.t :=
  {| ListOptions.enabledOnly := true; ListOptions.capability := Some "lookup" |}.

(** The method that fits the type of the identifier: [getByDOI] for a
    DOI, [getByArxiv] for an arXiv identifier, and the generic [getRecord]
    when the plugin has no such method or the type asks for none. *)
Definition method (p : SourcePlugin.t) (idType : IdType.t)
    : option (string -> Outcome (option Paper)) :=
  match idType with
  | IdType.doi =>
      match SourcePlugin.getByDOI p with
      | Some f => Some f
      | None => SourcePlugin.getRecord p
      end
  | IdType.arxiv =>
      match SourcePlugin.getByArxiv p with
      | Some f => Some f
      | None => SourcePlugin.getRecord p
      end
  | _ => SourcePlugin.getRecord p
  end.

(** A plugin whose rate-limit status cannot be read. *)
Definition status_fails (p : SourcePlugin.t) : bool :=
  match SourcePlugin.getRateLimitStatus p with
  | Some (Throws _) => true
  | _ => false
  end.

(** What one plugin contributes: the paper it finds; a miss when it
    answers [null] or fails. *)
Definition answer (p : SourcePlugin.t) (identifier : string)
    (idType : IdType.t) : option Paper :=
  if status_fails p then None
  else match method p idType with
       | Some f =>
           match f identifier with
           | Returns (Some paper) => Some paper
           | _ => None
           end
       | None => None
       end.

Definition is_plugin (a : option SourcePlugin.t) (p : SourcePlugin.t) : bool :=
  match a with
  | Some a => String.eqb (SourcePlugin.id p) (SourcePlugin.id a)
  | None => false
  end.

(** The plugins in the order in which they are tried: the active plugin
    when it is lookup-capable, then every other enabled lookup-capable
    plugin in registration order. *)
Definition candidates (s : State.t) : list SourcePlugin.t :=
  let active := PluginManager.getActive s in
  match active with
  | Some a => if SourcePlugin.capable a "lookup" then [a] else []
  | None => []
  end ++
  List.filter (fun p => negb (is_plugin active p)) (PluginManager.list_ options s).


End LookupSpec.

(** What the specification says of [federatedSearch]. *)
Module FederatedSpec.

Definition options : ListOptions.t :=
  {| ListOptions.enabledOnly := true; ListOptions.capability := Some "search" |}.

(** The plugins the search is dispatched to. *)
Definition dispatched (s : State.t) : list SourcePlugin.t :=
  PluginManager.list_ options s.

(** The result of a plugin with its papers tagged by the plugin's ID. *)
Definition tagged (pluginId : string) (r : SearchResult.t)
    (papers : list Paper) : SearchResult.t :=
  {| SearchResult.papers :=
       Some (map (fun p => <["source" := JStr pluginId]> p) papers);
     SearchResult.totalResults := SearchResult.totalResults r;
     SearchResult.nextCursor := SearchResult.nextCursor r;
     SearchResult.metadata := SearchResult.metadata r |}.

(** The search of plugin [p] succeeds with result [r]. *)
Definition succeeds (p : SourcePlugin.t) (query : UnifiedQuery.t)
    (r : SearchResult.t) : Prop :=
  LookupSpec.status_fails p = false /\
  exists f raw papers,
    SourcePlugin.search p = Some f /\ f query = Returns raw /\
    SearchResult.papers raw = Some papers /\
    r = tagged (SourcePlugin.id p) raw papers.

(** The search of plugin [p] fails with exception [e]: the plugin throws
    it from [getRateLimitStatus] or from [search], or it is the
    [TypeError] of a search that is not a function or of a result without
    papers. *)
Definition fails (p : SourcePlugin.t) (query : UnifiedQuery.t) (e : Error)
    : Prop :=
  SourcePlugin.getRateLimitStatus p = Some (Throws e) \/
  (LookupSpec.status_fails p = false /\
   match SourcePlugin.search p with
   | Some f =>
       match f query with
       | Throws e' => e = e'
       | Returns raw =>
           SearchResult.papers raw = None /\
           e = "TypeError: result.papers.map is not a function"
       end
   | None => e = "TypeError: plugin.search is not a function"
   end).


End FederatedSpec.

(** Plugins to run the manager on. *)
Module Example.

Definition capabilities (search lookup references : bool) : Capabilities.t :=
  {| Capabilities.search := search; Capabilities.lookup := lookup;
     Capabilities.references := references; Capabilities.citations := false;
     Capabilities.pdfDownload := false; Capabilities.bibtex := false;
     Capabilities.metadata := false |}.

Definition no_auth : AuthConfig.t :=
  {| AuthConfig.type := "none"; AuthConfig.tokenKey := None;
     AuthConfig.description := None; AuthConfig.helpUrl := None |}.

Definition status : RateLimitStatus.t :=
  {| RateLimitStatus.remaining := 5000; RateLimitStatus.limit := 5000;
     RateLimitStatus.resetAt := 86400000; RateLimitStatus.retryAfter := None |}.

Definition paper (title source : string) : Paper :=
  Types.createPaper {[ "title" := JStr title ]} (JStr source) (JStr title).

Definition result (papers : list Paper) : SearchResult.t :=
  {| SearchResult.papers := Some papers;
     SearchResult.totalResults := Z.of_nat (length papers);
     SearchResult.nextCursor := None; SearchResult.metadata := None |}.

Definition query : UnifiedQuery.t :=
  {| UnifiedQuery.raw := None; UnifiedQuery.title := Some "galaxy";
     UnifiedQuery.author := None; UnifiedQuery.abstract := None;
     UnifiedQuery.fullText := None; UnifiedQuery.year := None;
     UnifiedQuery.doi := None; UnifiedQuery.arxivId := None;
     UnifiedQuery.bibcode := None; UnifiedQuery.keywords := [];
     UnifiedQuery.sort := None; UnifiedQuery.sortDirection := None;
     UnifiedQuery.limit := None; UnifiedQuery.offset := None |}.

(** A search-and-lookup plugin with the given answers. *)
Definition plugin (id : string)
    (status : option (Outcome (option RateLimitStatus.t)))
    (search : Outcome SearchResult.t)
    (getByDOI : Outcome (option Paper)) : SourcePlugin.t :=
  {| SourcePlugin.id := id; SourcePlugin.name := id;
     SourcePlugin.capabilities := Some (capabilities true true false);
     SourcePlugin.auth := Some no_auth;
     SourcePlugin.getRateLimitStatus := status;
     SourcePlugin.search := Some (fun _ => search);
     SourcePlugin.getRecord := Some (fun _ => Returns None);
     SourcePlugin.getByDOI := Some (fun _ => getByDOI);
     SourcePlugin.getByArxiv := None;
     SourcePlugin.getReferences := None;
     SourcePlugin.getCitations := None;
     SourcePlugin.getPdfSources := None;
     SourcePlugin.downloadPdf := false;
     SourcePlugin.getBibtex := None;
     SourcePlugin.initialize := None;
     SourcePlugin.shutdown := None |}.

(** A plugin that declares the references capability and has no
    [getReferences]. *)
Definition without_getReferences : SourcePlugin.t :=
  {| SourcePlugin.id := "crossref"; SourcePlugin.name := "Crossref";
     SourcePlugin.capabilities := Some (capabilities false false true);
     SourcePlugin.auth := Some no_auth;
     SourcePlugin.getRateLimitStatus := None;
     SourcePlugin.search := None;
     SourcePlugin.getRecord := None;
     SourcePlugin.getByDOI := None;
     SourcePlugin.getByArxiv := None;
     SourcePlugin.getReferences := None;
     SourcePlugin.getCitations := None;
     SourcePlugin.getPdfSources := None;
     SourcePlugin.downloadPdf := false;
     SourcePlugin.getBibtex := None;
     SourcePlugin.initialize := None;
     SourcePlugin.shutdown := None |}.

Definition punctual : nat -> N := fun _ => 0%N.

(** The world of a manager after the given registrations. *)
Definition after (plugins : list SourcePlugin.t) : World :=
  snd (Registry.perform_all (map Registry.Register plugins)
         (Registry.fresh 1700000000000 punctual)).

End Example.

(* ===================================================================== *)
(** ** lib/plugins/manager.cjs: getPdfSources *)
(* ===================================================================== *)

Module ManagerPdf.

Definition options : ListOptions.t :=
  {| ListOptions.enabledOnly := true;
     ListOptions.capability := Some "pdfDownload" |}.

(** The loop [for (const p of pdfPlugins)]: the sources of a plugin whose
    call fails are left out. *)
Fixpoint collect (pdfPlugins : list SourcePlugin.t) (sourceId : string)
    (allSources : list PdfSource.t) : M (list PdfSource.t) :=
  match pdfPlugins with
  | p :: rest =>
      allSources' <-
        Eff.try_catch
          (sources <- PluginManager.call (SourcePlugin.getPdfSources p)
                        "getPdfSources" sourceId;;
           Eff.ret (allSources ++ sources))
          (fun _ => Eff.ret allSources);;
      collect rest sourceId allSources'
  | [] => Eff.ret allSources
  end.

(** [getPdfSources(paper)], on the two properties of the paper that it
    reads: [paper.source], any value, and [paper.sourceId], a string as
    the type of a paper has it.  A [Map] keyed by strings holds nothing
    under a key that is no string. *)
Definition getPdfSources (source : JSVal) (sourceId : string)
    : M (list PdfSource.t) :=
  plugin <- Eff.gets (fun s =>
    match source with
    | JStr pluginId => PluginManager.get pluginId s
    | _ => None
    end);;
  match plugin with
  | Some plugin =>
      if SourcePlugin.capable plugin "pdfDownload" then
        PluginManager.call (SourcePlugin.getPdfSources plugin)
          "getPdfSources" sourceId
      else
        pdfPlugins <- Eff.gets (PluginManager.list_ options);;
        collect pdfPlugins sourceId []
  | None =>
      pdfPlugins <- Eff.gets (PluginManager.list_ options);;
      collect pdfPlugins sourceId []
  end.

(** The sources that a plugin contributes to the fallback. *)
Definition contribution (sourceId : string) (p : SourcePlugin.t)
    : list PdfSource.t :=
  match SourcePlugin.getPdfSources p with
  | Some f => match f sourceId with Returns sources => sources | Throws _ => [] end
  | None => []
  end.

(** The plugin that provided the paper, when it is registered and
    declares the pdfDownload capability. *)
Definition provider (source : JSVal) (s : State.t) : option SourcePlugin.t :=
  match source with
  | JStr pluginId =>
      match PluginManager.get pluginId s with
      | Some plugin =>
          if SourcePlugin.capable plugin "pdfDownload" then Some plugin
          else None
      | None => None
      end
  | _ => None
  end.

End ManagerPdf.

(** More plugins and worlds to run the manager on. *)
Module Sample.

Definition ok : option (Outcome (option RateLimitStatus.t)) :=
  Some (Returns (Some Example.status)).

Definition ads : SourcePlugin.t :=
  Example.plugin "ads" ok (Returns (Example.result [Example.paper "A" "x"]))
    (Returns None).

Definition arxiv : SourcePlugin.t :=
  Example.plugin "arxiv" ok (Returns (Example.result [])) (Returns None).

(** A plugin that reports an exhausted quota. *)
Definition exhausted : RateLimitStatus.t :=
  {| RateLimitStatus.remaining := 0; RateLimitStatus.limit := 5000;
     RateLimitStatus.resetAt := 86400000; RateLimitStatus.retryAfter := Some 2 |}.

Definition throttled : SourcePlugin.t :=
  Example.plugin "inspire" (Some (Returns (Some exhausted)))
    (Returns (Example.result [])) (Returns None).

Definition link : PdfSource.t :=
  {| PdfSource.type := "publisher"; PdfSource.url := "https://doi.org/10.1086/305772";
     PdfSource.label := "Publisher PDF"; PdfSource.requiresAuth := true;
     PdfSource.priority := 0 |}.

(** A plugin with the pdfDownload capability and the given answer. *)
Definition pdf_plugin (id : string) (enabled_init : option (Outcome unit))
    (answer : Outcome (list PdfSource.t)) : SourcePlugin.t :=
  {| SourcePlugin.id := id; SourcePlugin.name := id;
     SourcePlugin.capabilities :=
       Some {| Capabilities.search := false; Capabilities.lookup := false;
               Capabilities.references := false; Capabilities.citations := false;
               Capabilities.pdfDownload := true; Capabilities.bibtex := false;
               Capabilities.metadata := false |};
     SourcePlugin.auth := Some Example.no_auth;
     SourcePlugin.getRateLimitStatus := ok;
     SourcePlugin.search := None;
     SourcePlugin.getRecord := None;
     SourcePlugin.getByDOI := None;
     SourcePlugin.getByArxiv := None;
     SourcePlugin.getReferences := None;
     SourcePlugin.getCitations := None;
     SourcePlugin.getPdfSources := Some (fun _ => answer);
     SourcePlugin.downloadPdf := true;
     SourcePlugin.getBibtex := None;
     SourcePlugin.initialize := enabled_init;
     SourcePlugin.shutdown := None |}.

(** The world after the given calls on a new manager. *)
Definition run (ops : list Registry.Op) : World :=
  snd (Registry.perform_all ops (Registry.fresh 1700000000000 Example.punctual)).

End Sample.

(** The fields of the manager after a call that succeeds, as functions of
    the fields before it. *)
Module After.

Definition enabledOnly : ListOptions.t :=
  {| ListOptions.enabledOnly := true; ListOptions.capability := None |}.

Definition setActive (pluginId : string) (s : State.t) : State.t :=
  State.emit (ActiveChanged (State.activePluginId s) pluginId)
    (State.set_active (Some pluginId) s).

Definition register (plugin : SourcePlugin.t) (date : Z) (s : State.t)
    : State.t :=
  let id := SourcePlugin.id plugin in
  let s1 := State.emit (PluginRegistered id)
              (State.set_plugins
                 (fun m => m ++ [(id, Registry.entry plugin date)]) s) in
  match State.activePluginId s with
  | None => setActive id s1
  | Some _ => s1
  end.

Definition unregister (pluginId : string) (s : State.t) : State.t :=
  let s1 := State.emit (PluginUnregistered pluginId)
              (State.set_plugins (JSMap.delete pluginId) s) in
  if PluginManager.is_active pluginId s
  then State.set_active
         (PluginManager.first_id (PluginManager.list_ ListOptions.none s1)) s1
  else s1.

Definition enable (pluginId : string) (s : State.t) : State.t :=
  State.emit (PluginEnabled pluginId)
    (State.set_plugins
       (JSMap.alter (PluginRegistration.set_enabled true) pluginId) s).

Definition disable (pluginId : string) (s : State.t) : State.t :=
  let s1 := State.emit (PluginDisabled pluginId)
              (State.set_plugins
                 (JSMap.alter (PluginRegistration.set_enabled false) pluginId)
                 s) in
  if PluginManager.is_active pluginId s
  then State.set_active
         (PluginManager.first_id (PluginManager.list_ enabledOnly s1)) s1
  else s1.

(** A plugin is enabled in a registry. *)
Definition is_enabled (pluginId : string) (s : State.t) : bool :=
  match JSMap.get pluginId (State.plugins s) with
  | Some reg => PluginRegistration.enabled reg
  | None => false
  end.

End After.

(** The registries that the calls on a manager can build. *)
Module Reachable.

(** Every registered plugin passes [validatePlugin]. *)
Definition all_valid (s : State.t) : Prop :=
  Forall (fun kv => Types.valid (PluginRegistration.plugin (snd kv)) = true)
         (State.plugins s).

(** The manager after the given calls on a new manager. *)
Definition state (time : Z) (late : nat -> N) (ops : list Registry.Op)
    : State.t :=
  manager (snd (Registry.perform_all ops (Registry.fresh time late))).

End Reachable.

(** The start of the plugins. *)
Module Lifecycle.

(** The [initialize] hook of the plugin throws. *)
Definition fails_to_initialize (p : SourcePlugin.t) : bool :=
  match SourcePlugin.initialize p with
  | Some (Throws _) => true
  | _ => false
  end.

(** Every registration carries the ID that it is stored under. *)
Definition ids_match (s : State.t) : Prop :=
  Forall (fun kv => PluginRegistration.id (snd kv) = fst kv) (State.plugins s).

(** What the start of one plugin does to the registry. *)
Definition step (reg : PluginRegistration.t) (m : JSMap.t PluginRegistration.t)
    : JSMap.t PluginRegistration.t :=
  if fails_to_initialize (PluginRegistration.plugin reg)
  then JSMap.alter (PluginRegistration.set_enabled false)
         (PluginRegistration.id reg) m
  else m.

(** The registration of a plugin after [initialize]. *)
Definition started (reg : PluginRegistration.t) : PluginRegistration.t :=
  if fails_to_initialize (PluginRegistration.plugin reg)
  then PluginRegistration.set_enabled false reg
  else reg.

End Lifecycle.

(* ===================================================================== *)
(** ** shared/paper-utils.js *)
(* ===================================================================== *)

Module PaperUtils.

(** [s.match(/^(r1)r2$/)[1]] for a group [r1] whose only choice is the
    length of a greedy repetition at its end: the longest prefix of the
    input that [r1] matches while [r2] matches the rest.  [pre] is the
    prefix gone through. *)
Fixpoint first_group (r1 r2 : RegExp.regex) (pre rest : list ascii)
    : option (list ascii) :=
  match rest with
  | c :: rest' =>
      match first_group r1 r2 (pre ++ [c]) rest' with
      | Some g => Some g
      | None =>
          if RegExp.run r1 pre RegExp.at_end && RegExp.run r2 rest RegExp.at_end
          then Some pre else None
      end
  | [] =>
      if RegExp.run r1 pre RegExp.at_end && RegExp.run r2 [] RegExp.at_end
      then Some pre else None
  end.

(** The two groups of [/^(\d{4}\.\d{4,5})(v\d+)?$/] *)
Definition re_number : RegExp.regex :=
  RegExp.Seq (RegExp.Rep RegExp.digit 4 (Some 4%nat))
 (RegExp.Seq (RegExp.chr ".") (RegExp.Rep RegExp.digit 4 (Some 5%nat))).

Definition re_version : RegExp.regex :=
  RegExp.Opt (RegExp.Seq (RegExp.chr "v") (RegExp.plus RegExp.digit)).

(** The loop [for (const id of identifiers)] of [extractArxivId]. *)
Fixpoint extract (identifiers : list string) : option string :=
  match identifiers with
  | id :: rest =>
      if JSString.startsWith id "arXiv:"
      then Some (JSString.of_chars (drop 6 (JSString.chars id)))
      else
        match first_group re_number re_version [] (JSString.chars id) with
        | Some number => Some (JSString.of_chars number)
        | None => extract rest
        end
  | [] => None
  end.

(** [extractArxivId(identifiers)]; [None] is [null]. *)
Definition extractArxivId (identifiers : option (list string))
    : option string :=
  match identifiers with
  | Some ids => extract ids
  | None => None
  end.

(** [String.prototype.toLowerCase] on a code unit below 256: the letters
    A to Z and the capital letters of Latin-1, which are 32 below their
    small letters. *)
Definition toLowerCase_char (c : ascii) : ascii :=
  let n := JSString.code c in
  if ((65 <=? n) && (n <=? 90) ||
      (192 <=? n) && (n <=? 222) && negb (n =? 215))%N
  then ascii_of_N (n + 32)
  else c.

Definition is_dot (c : ascii) : bool := Ascii.eqb c ".".

(** [normalizeBibcode(bibcode)]: [bibcode.replace(/\./g, '').toLowerCase()] *)
Definition normalizeBibcode (bibcode : option string) : string :=
  if JS.truthy_str bibcode
  then JSString.of_chars
         (map toLowerCase_char
            (List.filter (fun c => negb (is_dot c))
               (JSString.chars (default EmptyString bibcode))))
  else EmptyString.

(** [[a-zA-Z0-9._-]] *)
Definition safe : RegExp.class :=
  [RegExp.Range "a" "z"; RegExp.Range "A" "Z"; RegExp.Range "0" "9";
   RegExp.One "."; RegExp.One "_"; RegExp.One "-"].

Definition sanitize_char (c : ascii) : ascii :=
  if RegExp.in_class safe c then c else "_"%char.

(** [sanitizeBibcodeForFilename(bibcode)]:
    [bibcode.replace(/[^a-zA-Z0-9._-]/g, '_')] *)
Definition sanitizeBibcodeForFilename (bibcode : option string) : string :=
  if JS.truthy_str bibcode
  then JSString.of_chars
         (map sanitize_char (JSString.chars (default EmptyString bibcode)))
  else "unknown".

(** [generatePdfFilename(bibcode, sourceType)] *)
Definition generatePdfFilename (bibcode : option string) (sourceType : string)
    : string :=
  sanitizeBibcodeForFilename bibcode +:+ "_" +:+ sourceType +:+ ".pdf".

(** [getSourceTypeFromFilename(filename)] *)
Definition getSourceTypeFromFilename (filename : option string)
    : option string :=
  if negb (JS.truthy_str filename) then None
  else
    let name := default EmptyString filename in
    if JSString.includes name "_EPRINT_PDF" then Some "EPRINT_PDF"
    else if JSString.includes name "_PUB_PDF" then Some "PUB_PDF"
    else if JSString.includes name "_ADS_PDF" then Some "ADS_PDF"
    else None.

End PaperUtils.

(* ===================================================================== *)
(** ** main/book-export-service.cjs: the helpers of the table of contents *)
(* ===================================================================== *)

Module BookExport.

(** [text.substring(0, n)]: a negative [n] counts as 0. *)
Definition substring_to (text : string) (n : Z) : string :=
  JSString.of_chars (take (Z.to_nat n) (JSString.chars text)).

(** [truncateText(text, maxLength)] *)
Definition truncateText (text : option string) (maxLength : Z) : string :=
  if negb (JS.truthy_str text) then EmptyString
  else
    let text := default EmptyString text in
    if Z.of_nat (String.length text) <=? maxLength then text
    else substring_to text (maxLength - 3) +:+ "...".

(** [text.split(/\s+/)] on the characters of the text: [piece] holds the
    characters of the piece that is being read, last first, and [gap]
    says that the character before was white space. *)
Fixpoint split_chars (piece : list ascii) (gap : bool) (s : list ascii)
    : list string :=
  match s with
  | c :: s' =>
      if JSString.is_white_space c then
        if gap then split_chars piece true s'
        else JSString.of_chars (rev piece) :: split_chars [] true s'
      else split_chars (c :: piece) false s'
  | [] => [JSString.of_chars (rev piece)]
  end.

Definition split_white_space (text : string) : list string :=
  split_chars [] false (JSString.chars text).

Section Wrap.

(** [font.widthOfTextAtSize(line, size) > maxWidth], for the font, the
    size and the width of the call; the font is one that measures every
    line. *)
Variable too_wide : string -> bool.

(** One turn of the loop over the words; the state is [lines] and
    [currentLine]. *)
Definition wrap_step (st : list string * string) (word : string)
    : list string * string :=
  let '(lines, currentLine) := st in
  let testLine := if JSString.truthy currentLine
                  then currentLine +:+ " " +:+ word
                  else word in
  if too_wide testLine && JSString.truthy currentLine
  then (lines ++ [currentLine], word)
  else (lines, testLine).

(** [if (currentLine) lines.push(currentLine)] *)
Definition flush (st : list string * string) : list string :=
  if JSString.truthy (snd st) then fst st ++ [snd st] else fst st.

(** What the loop keeps: no line is empty, and a line is one of the words
    or fits. *)
Definition wrapped (words : list string) (st : list string * string) : Prop :=
  Forall (fun line => line <> EmptyString /\
                      (line ∈ words \/ too_wide line = false))
         (flush st).

(** [wrapText(text, font, size, maxWidth)] *)
Definition wrapText (text : option string) : list string :=
  if negb (JS.truthy_str text) then []
  else flush (fold_left wrap_step
                (split_white_space (default EmptyString text))
                ([], EmptyString)).

End Wrap.

End BookExport.

(** Searching a needle in a string made of two parts. *)
Module Substring.

(** No nonempty suffix of [m] starts [b]. *)
Fixpoint no_overlap (m b : string) : bool :=
  match m with
  | EmptyString => true
  | String _ m' => negb (String.prefix m b) && no_overlap m' b
  end.

Definition tail (m : string) : string :=
  match m with
  | EmptyString => EmptyString
  | String _ m' => m'
  end.

End Substring.

(* ===================================================================== *)
(** ** shared/paper-utils.js: titleSimilarity *)
(* ===================================================================== *)

Module Similarity.

Definition stopWords : gset string :=
  list_to_set
    ["the"; "and"; "for"; "with"; "from"; "that"; "this"; "have"; "been";
     "were"; "their"; "which"; "through"; "about"; "into"; "using"; "based"].

(** [\w] *)
Definition word_char : RegExp.class :=
  [RegExp.Range "a" "z"; RegExp.Range "A" "Z"; RegExp.Range "0" "9";
   RegExp.One "_"].

(** [.replace(/[^\w\s]/g, ' ')] on one character *)
Definition blank (c : ascii) : ascii :=
  if RegExp.in_class word_char c || JSString.is_white_space c then c
  else " "%char.

(** [s.toLowerCase().replace(/[^\w\s]/g, ' ')] on the characters *)
Definition plain (l : list ascii) : list ascii :=
  map blank (map PaperUtils.toLowerCase_char l).

(** The function [normalize] of [titleSimilarity]. *)
Definition normalize (s : string) : list string :=
  List.filter (fun w => negb (bool_decide (w ∈ stopWords)))
    (List.filter (fun w => (2 <? String.length w)%nat)
       (BookExport.split_white_space
          (JSString.of_chars (plain (JSString.chars s))))).

(** [new Set(normalize(title))] *)
Definition words (title : string) : gset string :=
  list_to_set (normalize title).

(** [titleSimilarity(title1, title2)]; the quotient is a rational, and
    the number of the source is the double next to it. *)
Definition titleSimilarity (title1 title2 : option string) : Q :=
  if negb (JS.truthy_str title1) || negb (JS.truthy_str title2) then 0%Q
  else
    let words1 := words (default EmptyString title1) in
    let words2 := words (default EmptyString title2) in
    if (size words1 =? 0)%nat || (size words2 =? 0)%nat then 0%Q
    else
      let intersection := size (filter (fun w => w ∈ words2) words1) in
      let union := size (words1 ∪ words2) in
      (Z.of_nat intersection # Pos.of_nat union)%Q.

End Similarity.

(** The arXiv identifiers that [extractArxivId] recognises. *)
Module ArxivId.

(** [YYMM.NNNNN] without a version: 4 digits, a dot, 4 or 5 digits. *)
Definition number (w : list ascii) : Prop :=
  exists yymm n,
    w = yymm ++ "."%char :: n /\
    Shape.digits yymm /\ length yymm = 4%nat /\
    Shape.digits n /\ (4 <= length n <= 5)%nat.

(** A character of a number. *)
Definition numeric (c : ascii) : Prop := Shape.digit c \/ c = "."%char.

(** [r] is what the identifier [id] is recognised as: what follows the
    prefix [arXiv:], or the number of an identifier that is a number with
    an optional version. *)
Definition recognised (id r : string) : Prop :=
  id = "arXiv:" +:+ r \/
  (JSString.startsWith id "arXiv:" = false /\
   number (JSString.chars r) /\
   exists v, Shape.version v /\ JSString.chars id = JSString.chars r ++ v).

Definition unrecognised (id : string) : Prop :=
  JSString.startsWith id "arXiv:" = false /\
  ~ Shape.arxiv_new (JSString.chars id).

End ArxivId.

(** What the queries of a manager leave alone. *)
Module Frame.

(** From [w] to [w']: the registry, the pointer and the events are the
    same, the records of the rate limiter are the same for the IDs that
    are not registered, and time has not gone back. *)
Definition read_only (w w' : World) : Prop :=
  State.plugins (manager w') = State.plugins (manager w) /\
  State.activePluginId (manager w') = State.activePluginId (manager w) /\
  State.emitted (manager w') = State.emitted (manager w) /\
  (forall k, JSMap.has k (State.plugins (manager w)) = false ->
     State.lastRequestTime (manager w') !! k
     = State.lastRequestTime (manager w) !! k) /\
  now w <= now w' /\ (awaited w <= awaited w')%nat /\
  lateness w' = lateness w.

Definition preserves {A} (c : M A) : Prop :=
  forall w, read_only w (snd (c w)).

End Frame.

(* ===================================================================== *)
(** ** plugins/ads/index.cjs: translateQueryToADS *)
(* ===================================================================== *)

Module AdsQuery.

(** [`field:"value"`] *)
Definition quoted (field value : string) : string :=
  field +:+ ":" +:+ PluginManager.dq +:+ value +:+ PluginManager.dq.

(** [`${n}`] for an integer below 10^21 in absolute value. *)
Definition number (n : Z) : string := pretty n.

(** [if (query.field) parts.push(`name:"${query.field}"`)] *)
Definition part (name : string) (value : option string) : list string :=
  if JS.truthy_str value then [quoted name (default EmptyString value)]
  else [].

(** The year filter: a number, or the array of a range. *)
Definition year_part (year : option (Z * option Z)) : list string :=
  match year with
  | Some (first, Some last) =>
      ["year:[" +:+ number first +:+ " TO " +:+ number last +:+ "]"]
  | Some (year, None) =>
      if year =? 0 then [] else ["year:" +:+ number year]
  | None => []
  end.

Definition keywords_part (keywords : list string) : list string :=
  match keywords with
  | [] => []
  | _ => ["(" +:+ String.concat " OR " (map (quoted "keyword") keywords)
          +:+ ")"]
  end.

Definition parts (query : UnifiedQuery.t) : list string :=
  part "title" (UnifiedQuery.title query) ++
  part "author" (UnifiedQuery.author query) ++
  part "abs" (UnifiedQuery.abstract query) ++
  part "full" (UnifiedQuery.fullText query) ++
  year_part (UnifiedQuery.year query) ++
  keywords_part (UnifiedQuery.keywords query).

(** [translateQueryToADS(query)] *)
Definition translateQueryToADS (query : UnifiedQuery.t) : string :=
  if JS.truthy_str (UnifiedQuery.raw query)
  then default EmptyString (UnifiedQuery.raw query)
  else if JS.truthy_str (UnifiedQuery.bibcode query)
  then quoted "bibcode" (default EmptyString (UnifiedQuery.bibcode query))
  else if JS.truthy_str (UnifiedQuery.doi query)
  then quoted "doi" (default EmptyString (UnifiedQuery.doi query))
  else if JS.truthy_str (UnifiedQuery.arxivId query)
  then "arxiv:" +:+
       RegExp.remove_prefix AdsPlugin.re_arxiv_prefix 6
         (default EmptyString (UnifiedQuery.arxivId query))
  else String.concat " " (parts query).

(** The query names no criterion. *)
Definition blank (query : UnifiedQuery.t) : Prop :=
  JS.truthy_str (UnifiedQuery.raw query) = false /\
  JS.truthy_str (UnifiedQuery.bibcode query) = false /\
  JS.truthy_str (UnifiedQuery.doi query) = false /\
  JS.truthy_str (UnifiedQuery.arxivId query) = false /\
  JS.truthy_str (UnifiedQuery.title query) = false /\
  JS.truthy_str (UnifiedQuery.author query) = false /\
  JS.truthy_str (UnifiedQuery.abstract query) = false /\
  JS.truthy_str (UnifiedQuery.fullText query) = false /\
  (UnifiedQuery.year query = None \/ UnifiedQuery.year query = Some (0, None)) /\
  UnifiedQuery.keywords query = [].

End AdsQuery.

(* ===================================================================== *)
(** * Properties *)
(* ===================================================================== *)

(** ** Strings *)

Lemma chars_of_chars (l : list ascii) : JSString.chars (JSString.of_chars l) = l.
Proof. apply list_ascii_of_string_of_list_ascii. Qed.

Lemma of_chars_chars (s : string) : JSString.of_chars (JSString.chars s) = s.
Proof. apply string_of_list_ascii_of_string. Qed.

Lemma length_chars (s : string) : length (JSString.chars s) = String.length s.
Proof. induction s; simpl; congruence. Qed.


Lemma trim_start_id (l : list ascii) :
  (forall c, head l = Some c -> ~ Shape.white_space c) ->
  JSString.trim_start l = l.
Proof.
  destruct l as [|c l]; [done |]. simpl. intros H.
  destruct (JSString.is_white_space c) eqn:E; [|done].
  exfalso. by apply (H c).
Qed.


Lemma head_rev {A} (l : list A) : head (rev l) = last l.
Proof.
  induction l as [|a l IH] using rev_ind; [done |].
  rewrite rev_unit, last_snoc. done.
Qed.



(** A string that neither starts nor ends with white space is its own
    trim. *)
Lemma trim_id (s : string) :
  (forall c, head (JSString.chars s) = Some c -> ~ Shape.white_space c) ->
  (forall c, last (JSString.chars s) = Some c -> ~ Shape.white_space c) ->
  JSString.trim s = s.
Proof.
  intros Hh Hl. unfold JSString.trim.
  rewrite (trim_start_id (JSString.chars s)) by done.
  rewrite (trim_start_id (rev (JSString.chars s))).
  - rewrite rev_involutive. apply of_chars_chars.
  - intros c. rewrite head_rev. apply Hl.
Qed.

(** ** The matcher and the words of a pattern *)

Lemma rep_spec cls lo hi s k :
  RegExp.rep cls lo hi s k = true <->
  exists w1 w2,
    s = w1 ++ w2 /\ Forall (fun c => RegExp.in_class cls c = true) w1 /\
    (lo <= length w1)%nat /\ RegExp.within hi (length w1) /\ k w2 = true.
Proof.
  revert lo hi. induction s as [|c s IH]; intros lo hi; simpl.
  - rewrite orb_false_r. split.
    + destruct lo; [|discriminate]. intros Hk.
      exists [], []. repeat split; [constructor | simpl; lia | | done].
      destruct hi; simpl; lia.
    + intros (w1 & w2 & Hs & _ & Hlo & _ & Hk).
      symmetry in Hs. apply app_eq_nil in Hs as [-> ->].
      simpl in Hlo. destruct lo; [done | lia].
  - rewrite orb_true_iff. split.
    + intros [H | H].
      * destruct lo; [|discriminate].
        exists [], (c :: s). repeat split; [constructor | simpl; lia | | done].
        destruct hi; simpl; lia.
      * destruct (RegExp.hi_pred hi) as [hi'|] eqn:Ehi; [|discriminate].
        apply andb_true_iff in H as [Hc H].
        apply IH in H as (w1 & w2 & -> & Hall & Hlo & Hhi & Hk).
        exists (c :: w1), w2. repeat split; [by constructor | simpl; lia | | done].
        destruct hi as [[|h]|]; simpl in *; simplify_eq; simpl in *; try lia; done.
    + intros (w1 & w2 & Hs & Hall & Hlo & Hhi & Hk).
      destruct w1 as [|c' w1]; simpl in *.
      * left. subst. destruct lo; [done | lia].
      * right. inversion Hs; subst c' s. inversion Hall; subst.
        assert (exists hi', RegExp.hi_pred hi = Some hi' /\
                            RegExp.within hi' (length w1)) as (hi' & -> & Hhi').
        { destruct hi as [[|h]|]; simpl in *; [lia | |];
            eexists; split; try reflexivity; simpl; lia. }
        apply andb_true_iff. split; [done |].
        apply IH. exists w1, w2. repeat split; [done | lia | done | done].
Qed.

(** The matcher accepts exactly the splits of the input into a word of
    the pattern and a remainder that the continuation accepts. *)
Lemma run_spec r : forall s k,
  RegExp.run r s k = true <->
  exists w1 w2, s = w1 ++ w2 /\ RegExp.lang r w1 /\ k w2 = true.
Proof.
  induction r as [|cls|cls lo hi|r1 IH1 r2 IH2|r IH]; intros s k; simpl.
  - split.
    + intros Hk. by exists [], s.
    + by intros (w1 & w2 & -> & -> & Hk).
  - split.
    + destruct s as [|c s]; [discriminate |].
      intros [Hc Hk]%andb_true_iff. exists [c], s. eauto.
    + intros (w1 & w2 & -> & (c & -> & Hc) & Hk). simpl.
      by rewrite Hc, Hk.
  - rewrite rep_spec. split.
    + intros (w1 & w2 & -> & Hall & Hlo & Hhi & Hk).
      exists w1, w2. repeat split; done.
    + intros (w1 & w2 & -> & (Hall & Hlo & Hhi) & Hk).
      exists w1, w2. repeat split; done.
  - rewrite IH1. split.
    + intros (w1 & w' & -> & H1 & H2). apply IH2 in H2 as (w2 & w3 & -> & H2 & Hk).
      exists (w1 ++ w2), w3. rewrite <- app_assoc. eauto 10.
    + intros (w & w3 & -> & (w1 & w2 & -> & H1 & H2) & Hk).
      exists w1, (w2 ++ w3). rewrite <- app_assoc. repeat split; [done |].
      apply IH2. eauto.
  - rewrite orb_true_iff, IH. split.
    + intros [(w1 & w2 & -> & H1 & Hk) | Hk].
      * exists w1, w2. eauto.
      * exists [], s. eauto.
    + intros (w1 & w2 & -> & [-> | H1] & Hk); [by right |].
      left. eauto.
Qed.

(** [/^r$/.test(s)]: the whole input is a word of [r]. *)
Lemma test_full_spec r s :
  RegExp.test_full r s = true <-> RegExp.lang r (JSString.chars s).
Proof.
  unfold RegExp.test_full. rewrite run_spec. split.
  - intros (w1 & w2 & -> & H & Hk). destruct w2; [|discriminate].
    by rewrite app_nil_r.
  - intros H. exists (JSString.chars s), []. by rewrite app_nil_r.
Qed.

(** [/^r/.test(s)]: a prefix of the input is a word of [r]. *)
Lemma test_prefix_spec r s :
  RegExp.test_prefix r s = true <->
  exists w1 w2, JSString.chars s = w1 ++ w2 /\ RegExp.lang r w1.
Proof.
  unfold RegExp.test_prefix. rewrite run_spec. split.
  - intros (w1 & w2 & ? & ? & _). eauto.
  - intros (w1 & w2 & ? & ?). eauto.
Qed.

(** ** Character classes *)

Ltac class_iff :=
  unfold RegExp.in_class, RegExp.in_item;
  unfold Shape.alnum; unfold Shape.letter;
  unfold Shape.digit, Shape.upper, Shape.lower; cbn [existsb];
  change (JSString.code "0") with 48%N;
  change (JSString.code "9") with 57%N;
  change (JSString.code "A") with 65%N;
  change (JSString.code "Z") with 90%N;
  change (JSString.code "a") with 97%N;
  change (JSString.code "z") with 122%N;
  rewrite ?orb_false_r, ?orb_true_iff, ?andb_true_iff, ?N.leb_le,
    ?Ascii.eqb_eq;
  tauto.

Lemma class_digit c : RegExp.in_class RegExp.digit c = true <-> Shape.digit c.
Proof. unfold RegExp.digit. class_iff. Qed.

Lemma class_lower c :
  RegExp.in_class [RegExp.Range "a" "z"] c = true <-> Shape.lower c.
Proof. class_iff. Qed.

Lemma class_one c c' : RegExp.in_class [RegExp.One c'] c = true <-> c = c'.
Proof. class_iff. Qed.

Lemma class_archive c :
  RegExp.in_class [RegExp.Range "a" "z"; RegExp.One "-"] c = true <->
  Shape.lower c \/ c = "-"%char.
Proof. class_iff. Qed.

Lemma class_journal c :
  RegExp.in_class [RegExp.Range "A" "Z"; RegExp.Range "a" "z";
                   RegExp.One "&"; RegExp.One "."] c = true <->
  Shape.letter c \/ c = "&"%char \/ c = "."%char.
Proof. class_iff. Qed.

Lemma class_volume_page c :
  RegExp.in_class [RegExp.Range "A" "Z"; RegExp.Range "a" "z";
                   RegExp.Range "0" "9"; RegExp.One "."] c = true <->
  Shape.alnum c \/ c = "."%char.
Proof. class_iff. Qed.

Lemma class_initial c :
  RegExp.in_class [RegExp.Range "A" "Z"; RegExp.One "."] c = true <->
  Shape.upper c \/ c = "."%char.
Proof. class_iff. Qed.

Lemma class_plugin_id_rest c :
  RegExp.in_class [RegExp.Range "a" "z"; RegExp.Range "0" "9";
                   RegExp.One "_"; RegExp.One "-"] c = true <->
  Shape.lower c \/ Shape.digit c \/ c = "_"%char \/ c = "-"%char.
Proof. class_iff. Qed.

(** ** The words of the derived patterns *)

Lemma lang_chr c w : RegExp.lang (RegExp.chr c) w <-> w = [c].
Proof.
  simpl. split.
  - intros (c' & -> & H). apply class_one in H. by subst.
  - intros ->. exists c. split; [done | by apply class_one].
Qed.

Lemma lang_lit s w : RegExp.lang (RegExp.lit s) w <-> w = JSString.chars s.
Proof.
  revert w. induction s as [|c s IH]; intros w; simpl; [done |].
  split.
  - intros (w1 & w2 & -> & H1 & H2).
    apply (lang_chr c) in H1. apply IH in H2. by subst.
  - intros ->. exists [c], (JSString.chars s). repeat split.
    + by apply (lang_chr c).
    + by apply IH.
Qed.

Lemma lang_rep (P : ascii -> Prop) cls lo hi w :
  (forall c, RegExp.in_class cls c = true <-> P c) ->
  RegExp.lang (RegExp.Rep cls lo hi) w <->
  Forall P w /\ (lo <= length w)%nat /\ RegExp.within hi (length w).
Proof. intros H. simpl. by rewrite (Forall_iff _ w P H). Qed.

Lemma lang_times (P : ascii -> Prop) cls n w :
  (forall c, RegExp.in_class cls c = true <-> P c) ->
  RegExp.lang (PluginManager.times cls n) w <-> Forall P w /\ length w = n.
Proof.
  intros H. unfold PluginManager.times. rewrite (lang_rep P) by done.
  simpl. intuition lia.
Qed.

Lemma lang_plus (P : ascii -> Prop) cls w :
  (forall c, RegExp.in_class cls c = true <-> P c) ->
  RegExp.lang (RegExp.plus cls) w <-> Forall P w /\ w <> [].
Proof.
  intros H. unfold RegExp.plus. rewrite (lang_rep P) by done.
  simpl. destruct w; simpl; intuition (try lia; try congruence).
Qed.

Lemma lang_seq r1 r2 w :
  RegExp.lang (RegExp.Seq r1 r2) w <->
  exists w1 w2, w = w1 ++ w2 /\ RegExp.lang r1 w1 /\ RegExp.lang r2 w2.
Proof. done. Qed.

Lemma lang_opt r w : RegExp.lang (RegExp.Opt r) w <-> w = [] \/ RegExp.lang r w.
Proof. done. Qed.

Lemma lang_chars (P : ascii -> Prop) cls w :
  (forall c, RegExp.in_class cls c = true <-> P c) ->
  RegExp.lang (RegExp.Chars cls) w <-> exists c, w = [c] /\ P c.
Proof.
  intros H. simpl. split; intros (c & -> & Hc); exists c; split; try done;
    by apply H.
Qed.

(** ** The patterns of the classifier denote the shapes of section 4.1 *)

Lemma lang_re_doi w :
  RegExp.lang PluginManager.re_doi w <->
  exists registrant,
    w = JSString.chars "10." ++ registrant ++ ["/"%char] /\
    Shape.digits registrant /\ (4 <= length registrant)%nat.
Proof.
  unfold PluginManager.re_doi. rewrite lang_seq. split.
  - intros (w1 & w' & -> & H1 & H2). apply lang_lit in H1.
    apply lang_seq in H2 as (w2 & w3 & -> & H2 & H3).
    apply (lang_rep Shape.digit) in H2 as (Hd & Hlen & _);
      [|apply class_digit].
    apply lang_chr in H3. subst. eauto.
  - intros (registrant & -> & Hd & Hlen).
    exists (JSString.chars "10."), (registrant ++ ["/"%char]).
    split; [done |]. split; [by apply lang_lit |].
    apply lang_seq. exists registrant, ["/"%char].
    split; [done |]. split; [| by apply lang_chr].
    apply (lang_rep Shape.digit); [apply class_digit | done].
Qed.

Lemma doi_test s :
  RegExp.test_prefix PluginManager.re_doi s = true <->
  Shape.doi (JSString.chars s).
Proof.
  rewrite test_prefix_spec. unfold Shape.doi. split.
  - intros (w1 & w2 & Hs & (registrant & -> & Hd & Hlen)%lang_re_doi).
    exists registrant, w2. rewrite Hs, <- !app_assoc. done.
  - intros (registrant & suffix & Hs & Hd & Hlen).
    exists (JSString.chars "10." ++ registrant ++ ["/"%char]), suffix.
    split; [by rewrite Hs, <- !app_assoc |].
    apply lang_re_doi. eauto.
Qed.

Lemma lang_version w :
  RegExp.lang (RegExp.Opt (RegExp.Seq (RegExp.chr "v")
                                     (RegExp.plus RegExp.digit))) w <->
  Shape.version w.
Proof.
  rewrite lang_opt, lang_seq. unfold Shape.version. split.
  - intros [-> | (w1 & w2 & -> & ->%lang_chr & H2)]; [by left | right].
    apply (lang_plus Shape.digit) in H2 as [Hd Hne]; [|apply class_digit].
    by exists w2.
  - intros [-> | (n & -> & Hd & Hne)]; [by left | right].
    exists ["v"%char], n. split; [done |]. split; [by apply lang_chr |].
    apply (lang_plus Shape.digit); [apply class_digit | done].
Qed.

Lemma arxiv_new_test s :
  RegExp.test_full PluginManager.re_arxiv s = true <->
  Shape.arxiv_new (JSString.chars s).
Proof.
  rewrite test_full_spec. generalize (JSString.chars s) as w. intros w.
  unfold PluginManager.re_arxiv, Shape.arxiv_new. rewrite lang_seq. split.
  - intros (yymm & w1 & -> & H1 & H2).
    apply (lang_times Shape.digit) in H1 as [Hy Hylen]; [|apply class_digit].
    apply lang_seq in H2 as (dot & w2 & -> & ->%lang_chr & H3).
    apply lang_seq in H3 as (number & v & -> & H3 & Hv%lang_version).
    apply (lang_rep Shape.digit) in H3 as (Hn & Hlo & Hhi);
      [|apply class_digit].
    exists yymm, number, v. simpl in Hhi. repeat split; done.
  - intros (yymm & number & v & -> & Hy & Hylen & Hn & [Hlo Hhi] & Hv).
    exists yymm, ("."%char :: number ++ v). split; [done |].
    split; [apply (lang_times Shape.digit); [apply class_digit | done] |].
    apply lang_seq. exists ["."%char], (number ++ v).
    split; [done |]. split; [by apply lang_chr |].
    apply lang_seq. exists number, v. split; [done |].
    split; [| by apply lang_version].
    apply (lang_rep Shape.digit); [apply class_digit | done].
Qed.

Lemma arxiv_legacy_test s :
  RegExp.test_full PluginManager.re_arxiv_legacy s = true <->
  Shape.arxiv_legacy (JSString.chars s).
Proof.
  rewrite test_full_spec. generalize (JSString.chars s) as w. intros w.
  unfold PluginManager.re_arxiv_legacy, Shape.arxiv_legacy.
  rewrite lang_seq. split.
  - intros (archive & w1 & -> & H1 & H2).
    apply (lang_plus (fun c => Shape.lower c \/ c = "-"%char)) in H1
      as [Ha Hne]; [|apply class_archive].
    apply lang_seq in H2 as (slash & number & -> & ->%lang_chr & H3).
    apply (lang_times Shape.digit) in H3 as [Hn Hlen]; [|apply class_digit].
    exists archive, number. repeat split; done.
  - intros (archive & number & -> & Ha & Hne & Hn & Hlen).
    exists archive, ("/"%char :: number). split; [done |]. split.
    + apply (lang_plus (fun c => Shape.lower c \/ c = "-"%char));
        [apply class_archive | done].
    + apply lang_seq. exists ["/"%char], number.
      split; [done |]. split; [by apply lang_chr |].
      apply (lang_times Shape.digit); [apply class_digit | done].
Qed.

Lemma arxiv_test s :
  RegExp.test_full PluginManager.re_arxiv s ||
  RegExp.test_full PluginManager.re_arxiv_legacy s = true <->
  Shape.arxiv (JSString.chars s).
Proof.
  rewrite orb_true_iff, arxiv_new_test, arxiv_legacy_test. done.
Qed.

Lemma bibcode_test s :
  RegExp.test_full PluginManager.re_bibcode s = true <->
  Shape.bibcode (JSString.chars s).
Proof.
  rewrite test_full_spec. generalize (JSString.chars s) as w. intros w.
  unfold PluginManager.re_bibcode, Shape.bibcode, Shape.bibcode_with.
  rewrite lang_seq. split.
  - intros (year & w1 & -> & H1 & H2).
    apply (lang_times Shape.digit) in H1 as [Hy Hylen]; [|apply class_digit].
    apply lang_seq in H2 as (j & w2 & -> & H2 & H3).
    apply (lang_times _ _ _ _ class_journal) in H2 as [Hj Hjlen].
    apply lang_seq in H3 as (vp & w3 & -> & H3 & H4).
    apply (lang_times _ _ _ _ class_volume_page) in H3 as [Hv Hvlen].
    apply (lang_chars _ _ _ class_initial) in H4 as (initial & -> & Hi).
    exists year, j, vp, initial. repeat split; done.
  - intros (year & j & vp & initial & -> & Hy & Hylen & Hj & Hjlen & Hv &
            Hvlen & Hi).
    exists year, (j ++ vp ++ [initial]). split; [done |].
    split; [apply (lang_times Shape.digit); [apply class_digit | done] |].
    apply lang_seq. exists j, (vp ++ [initial]). split; [done |].
    split; [by apply (lang_times _ _ _ _ class_journal) |].
    apply lang_seq. exists vp, [initial]. split; [done |].
    split; [by apply (lang_times _ _ _ _ class_volume_page) |].
    apply (lang_chars _ _ _ class_initial). eauto.
Qed.


(** ** The identifier classifier *)


Lemma class_journal_claimed c :
  RegExp.in_class [RegExp.Range "A" "Z"; RegExp.Range "a" "z";
                   RegExp.Range "0" "9"; RegExp.One "&"; RegExp.One "."] c
    = true <->
  Shape.alnum c \/ c = "&"%char \/ c = "."%char.
Proof. class_iff. Qed.

Lemma white_space_codes c :
  Shape.white_space c <->
  ((9 <= JSString.code c <= 13) \/ JSString.code c = 32 \/
   JSString.code c = 160)%N.
Proof.
  unfold Shape.white_space, JSString.is_white_space.
  rewrite !orb_true_iff, andb_true_iff, !N.leb_le, !N.eqb_eq. tauto.
Qed.

Lemma digit_not_white_space c : Shape.digit c -> ~ Shape.white_space c.
Proof. unfold Shape.digit. rewrite white_space_codes. lia. Qed.

Lemma initial_not_white_space c :
  Shape.upper c \/ c = "."%char -> ~ Shape.white_space c.
Proof.
  rewrite white_space_codes. intros [H | ->].
  - unfold Shape.upper in H. lia.
  - change (JSString.code ".") with 46%N. lia.
Qed.

(** A word of the bibcode shape has no white space at its ends. *)
Lemma bibcode_trimmed journal s :
  Shape.bibcode_with journal (JSString.chars s) -> JSString.trim s = s.
Proof.
  intros (year & j & vp & initial & Hs & Hy & Hylen & _ & _ & _ & _ & Hi).
  apply trim_id; rewrite Hs.
  - destruct year as [|c year]; [discriminate |].
    simpl. intros c' [= <-]. apply digit_not_white_space.
    by inversion Hy.
  - rewrite !app_assoc, last_snoc. intros c [= <-].
    by apply initial_not_white_space.
Qed.

(** C4, as the code has it.  A string of the shape: 4-digit year, 5
    characters that are letters, ampersand or dot, 9 alphanumeric-or-dot
    characters, 1 upper-case letter or dot, that satisfies neither the DOI
    nor the arXiv rule, is classified as a bibcode. *)
Theorem bibcode_rule_without_digits (s : string) :
  Shape.bibcode (JSString.chars s) ->
  ~ Shape.doi (JSString.chars s) ->
  ~ Shape.arxiv (JSString.chars s) ->
  PluginManager._detectIdentifierType s = IdType.bibcode.
Proof.
  intros Hb Hd Ha. unfold PluginManager._detectIdentifierType.
  rewrite (bibcode_trimmed _ s Hb).
  rewrite <- doi_test in Hd. rewrite <- arxiv_test in Ha.
  apply bibcode_test in Hb.
  apply not_true_is_false in Hd, Ha. by rewrite Hd, Ha, Hb.
Qed.

Lemma bibcode_rule_without_digits_witness :
  Shape.bibcode (JSString.chars "2024ApJ...123..456A") /\
  ~ Shape.doi (JSString.chars "2024ApJ...123..456A") /\
  ~ Shape.arxiv (JSString.chars "2024ApJ...123..456A") /\
  PluginManager._detectIdentifierType "2024ApJ...123..456A" = IdType.bibcode.
Proof.
  assert (Hb : Shape.bibcode (JSString.chars "2024ApJ...123..456A"))
    by (apply bibcode_test; reflexivity).
  assert (Hd : ~ Shape.doi (JSString.chars "2024ApJ...123..456A"))
    by (intros H%doi_test; discriminate).
  assert (Ha : ~ Shape.arxiv (JSString.chars "2024ApJ...123..456A"))
    by (intros H%arxiv_test; discriminate).
  split; [exact Hb |]. split; [exact Hd |]. split; [exact Ha |].
  exact (bibcode_rule_without_digits "2024ApJ...123..456A" Hb Hd Ha).
Defined.

(** C4 as stated fails: ["2003JPhy4.107..123A"] has 19 characters of the
    claimed shape (its 5-character part holds the digit 4) and satisfies
    neither the DOI nor the arXiv rule, and the classifier answers
    [unknown]. *)
Lemma bibcode_rule_with_digits_fails :
  String.length "2003JPhy4.107..123A" = 19%nat /\
  Shape.bibcode_claimed (JSString.chars "2003JPhy4.107..123A") /\
  ~ Shape.doi (JSString.chars "2003JPhy4.107..123A") /\
  ~ Shape.arxiv (JSString.chars "2003JPhy4.107..123A") /\
  PluginManager._detectIdentifierType "2003JPhy4.107..123A" = IdType.unknown.
Proof.
  split_and!.
  - reflexivity.
  - exists (JSString.chars "2003"), (JSString.chars "JPhy4"),
      (JSString.chars ".107..123"), "A"%char.
    split_and!; try reflexivity.
    + repeat (constructor; [apply class_digit; reflexivity |]).
      constructor.
    + repeat (constructor; [apply class_journal_claimed; reflexivity |]).
      constructor.
    + repeat (constructor; [apply class_volume_page; reflexivity |]).
      constructor.
    + apply class_initial. reflexivity.
  - intros H%doi_test. discriminate.
  - intros H%arxiv_test. discriminate.
  - vm_compute. reflexivity.
Qed.

(** ** createPaper *)

Lemma createPaper_own_title data source sourceId v :
  data !! "title" = Some v ->
  Types.createPaper data source sourceId !! "title" = Some v.
Proof. intros H. unfold Types.createPaper. by apply lookup_union_Some_l. Qed.

Lemma createPaper_default_title data source sourceId :
  data !! "title" = None ->
  Types.createPaper data source sourceId !! "title" = Some (JStr "Untitled").
Proof.
  intros H. unfold Types.createPaper.
  rewrite lookup_union_r by done.
  rewrite !lookup_insert_ne by done. rewrite lookup_insert_eq.
  unfold JS.prop. by rewrite H.
Qed.

(** C9 fails on the code.  The default is computed from [data.title], but
    the properties of [data] are spread after it: a title that [data]
    holds as [undefined], [null] or [''] replaces the sentinel, and the
    paper returned has that title, not the string ["Untitled"]. *)
Theorem createPaper_falsy_title_kept :
  JS.prop (Types.createPaper {[ "title" := JUndefined ]} (JStr "ads") (JStr "x"))
          "title" = JUndefined /\
  JS.prop (Types.createPaper {[ "title" := JNull ]} (JStr "ads") (JStr "x"))
          "title" = JNull /\
  JS.prop (Types.createPaper {[ "title" := JStr EmptyString ]} (JStr "ads")
             (JStr "x")) "title" = JStr EmptyString /\
  JS.is_string
    (JS.prop (Types.createPaper {[ "title" := JUndefined ]} (JStr "ads")
                (JStr "x")) "title") = false.
Proof.
  unfold JS.prop.
  rewrite !(createPaper_own_title _ _ _ _ (lookup_singleton_eq _ _)).
  done.
Qed.

(** ** esourcesToPdfSources *)

(** One turn of the loop adds an arXiv-type entry exactly for an
    arXiv-type link. *)
Lemma add_esource_arxiv sources priority e :
  existsb AdsPlugin.is_arxiv (fst (AdsPlugin.add_esource (sources, priority) e))
  = existsb AdsPlugin.is_arxiv sources || PdfSpec.arxiv_link e.
Proof.
  unfold AdsPlugin.add_esource, PdfSpec.arxiv_link, PdfSpec.usable.
  destruct (Esource.url e) as [url|]; simpl; [| by rewrite orb_false_r].
  destruct url as [|c url].
  { simpl. by rewrite orb_false_r. }
  change (JSString.truthy (String c url)) with true. simpl negb at 1.
  rewrite orb_false_l.
  destruct (JSString.startsWith (String c url) "http"); simpl;
    [| by rewrite orb_false_r].
  destruct (JSString.includes _ "EPRINT_PDF"); simpl.
  { rewrite existsb_app. simpl. by rewrite !orb_true_r. }
  destruct (JSString.includes _ "PUB_PDF"); simpl.
  { rewrite existsb_app. simpl. by rewrite !orb_false_r. }
  destruct (JSString.includes _ "ADS_PDF"); simpl.
  { rewrite existsb_app. simpl. by rewrite !orb_false_r. }
  by rewrite orb_false_r.
Qed.

Lemma fold_esources_arxiv es : forall sources priority,
  existsb AdsPlugin.is_arxiv
    (fst (fold_left AdsPlugin.add_esource es (sources, priority)))
  = existsb AdsPlugin.is_arxiv sources || existsb PdfSpec.arxiv_link es.
Proof.
  induction es as [|e es IH]; intros sources priority; cbn [fold_left existsb fst].
  - by rewrite orb_false_r.
  - destruct (AdsPlugin.add_esource (sources, priority) e) as [s' p'] eqn:E.
    rewrite IH. change s' with (fst (s', p')). rewrite <- E.
    rewrite add_esource_arxiv. by rewrite orb_assoc.
Qed.

(** The counter is the number of entries built so far. *)
Lemma add_esource_priority sources priority e :
  priority = Z.of_nat (length sources) ->
  snd (AdsPlugin.add_esource (sources, priority) e)
  = Z.of_nat (length (fst (AdsPlugin.add_esource (sources, priority) e))).
Proof.
  intros ->. unfold AdsPlugin.add_esource.
  destruct (Esource.url e) as [url|]; [| done].
  repeat match goal with
         | |- context [if ?b then _ else _] => destruct b
         end; simpl; rewrite ?length_app; simpl; lia.
Qed.

Lemma fold_esources_priority es : forall sources priority,
  priority = Z.of_nat (length sources) ->
  snd (fold_left AdsPlugin.add_esource es (sources, priority))
  = Z.of_nat (length (fst (fold_left AdsPlugin.add_esource es
                                      (sources, priority)))).
Proof.
  induction es as [|e es IH]; intros sources priority H; cbn [fold_left];
    [done |].
  pose proof (add_esource_priority sources priority e H) as H'.
  destruct (AdsPlugin.add_esource (sources, priority) e) as [s' p'].
  by apply IH.
Qed.

(** Without a known arXiv identifier the list is the one built from the
    links. *)
Lemma esources_without_id es bibcode :
  AdsPlugin.esourcesToPdfSources es bibcode None
  = fst (fold_left AdsPlugin.add_esource es ([], 0)).
Proof.
  unfold AdsPlugin.esourcesToPdfSources.
  destruct (fold_left _ _ _) as [sources priority]. simpl.
  by rewrite andb_false_r.
Qed.


(** *** The identifier without its decoration *)

Lemma lang_arxiv_prefix w :
  RegExp.lang AdsPlugin.re_arxiv_prefix w ->
  exists p, w = p ++ [":"%char] /\ length p = 5%nat.
Proof.
  unfold AdsPlugin.re_arxiv_prefix.
  intros (w1 & ? & -> & (c1 & -> & _) & H).
  destruct H as (w2 & ? & -> & (c2 & -> & _) & H).
  destruct H as (w3 & ? & -> & (c3 & -> & _) & H).
  destruct H as (w4 & ? & -> & (c4 & -> & _) & H).
  destruct H as (w5 & ? & -> & (c5 & -> & _) & H).
  apply lang_chr in H as ->.
  by exists [c1; c2; c3; c4; c5].
Qed.

Lemma version_suffix_test w :
  RegExp.run AdsPlugin.re_version_suffix w RegExp.at_end = true <->
  exists n, w = "v"%char :: n /\ Shape.digits n /\ n <> [].
Proof.
  rewrite run_spec. unfold AdsPlugin.re_version_suffix. split.
  - intros (w1 & w2 & -> & H & Hk). destruct w2; [|discriminate].
    rewrite app_nil_r.
    apply lang_seq in H as (? & n & -> & ->%lang_chr & H).
    apply (lang_plus Shape.digit) in H as [Hd Hne]; [|apply class_digit].
    by exists n.
  - intros (n & -> & Hd & Hne). exists ("v"%char :: n), [].
    rewrite app_nil_r. split; [done |]. split; [| done].
    apply lang_seq. exists ["v"%char], n. split; [done |].
    split; [by apply lang_chr |].
    apply (lang_plus Shape.digit); [apply class_digit | done].
Qed.

Lemma v_not_digit : ~ Shape.digit "v".
Proof. unfold Shape.digit. change (JSString.code "v") with 118%N. lia. Qed.

Lemma colon_not_digit : ~ Shape.digit ":".
Proof. unfold Shape.digit. change (JSString.code ":") with 58%N. lia. Qed.

Lemma remove_suffix_chars_eq r s :
  RegExp.remove_suffix_chars r s =
  if RegExp.run r s RegExp.at_end then []
  else match s with
       | c :: s' => c :: RegExp.remove_suffix_chars r s'
       | [] => []
       end.
Proof. by destruct s. Qed.

(** Cutting at the version: the leftmost match of [/v\d+$/] in a word
    [bare ++ v] is the version [v] itself. *)
Lemma remove_version bare v :
  ~ PdfSpec.has_version bare -> Shape.version v ->
  RegExp.remove_suffix_chars AdsPlugin.re_version_suffix (bare ++ v) = bare.
Proof.
  intros Hbare Hv. induction bare as [|c bare IH];
    rewrite remove_suffix_chars_eq; cbn [app].
  - destruct Hv as [-> | Hv]; [by destruct (RegExp.run _ _ _) |].
    apply version_suffix_test in Hv. by rewrite Hv.
  - destruct (RegExp.run _ (c :: bare ++ v) _) eqn:E.
    + exfalso. apply version_suffix_test in E as (n & [= -> Hn] & Hd & Hne).
      destruct Hv as [-> | (m & -> & Hm & Hmne)].
      * rewrite app_nil_r in Hn. subst n.
        apply Hbare. by exists [], bare.
      * rewrite <- Hn in Hd. apply Forall_app in Hd as [_ Hd].
        inversion Hd; subst. by apply v_not_digit.
    + f_equal. apply IH. intros (pre & n & -> & Hd & Hne).
      apply Hbare. by exists (c :: pre), n.
Qed.

Lemma version_without_colon v : Shape.version v -> ":"%char ∉ v.
Proof.
  intros [-> | (n & -> & Hd & _)]; [apply not_elem_of_nil |].
  intros [? | H]%elem_of_cons; [done |].
  unfold Shape.digits in Hd. rewrite Forall_forall in Hd.
  by apply colon_not_digit, Hd.
Qed.

(** An identifier that carries the prefix [arXiv:] (in any case) or a
    version suffix, or both, or none, is cleaned to the bare identifier. *)
Lemma cleanId_decorated (bare id : string) :
  PdfSpec.decorated (JSString.chars bare) (JSString.chars id) ->
  ":"%char ∉ JSString.chars bare ->
  ~ PdfSpec.has_version (JSString.chars bare) ->
  AdsPlugin.cleanId id = bare.
Proof.
  intros (prefix & v & Hid & Hp & Hv) Hcolon Hbare.
  unfold AdsPlugin.cleanId, RegExp.remove_suffix.
  assert (JSString.chars (RegExp.remove_prefix AdsPlugin.re_arxiv_prefix 6 id)
          = JSString.chars bare ++ v) as ->.
  { unfold RegExp.remove_prefix. destruct Hp as [-> | Hp].
    - destruct (RegExp.test_prefix _ id) eqn:E; [| by rewrite Hid].
      exfalso. apply test_prefix_spec in E as (w1 & w2 & Hw & H1).
      apply lang_arxiv_prefix in H1 as (p & -> & _).
      assert (H : ":"%char ∈ JSString.chars id).
      { rewrite Hw. rewrite !elem_of_app, list_elem_of_singleton. auto. }
      rewrite Hid in H. simpl in H. apply elem_of_app in H as [H | H];
        [done | by apply (version_without_colon v)].
    - assert (RegExp.test_prefix AdsPlugin.re_arxiv_prefix id = true) as ->.
      { apply test_prefix_spec. eauto. }
      apply lang_arxiv_prefix in Hp as (p & -> & Hlen).
      rewrite chars_of_chars, Hid.
      destruct p as [|? [|? [|? [|? [|? [|]]]]]]; try discriminate. done. }
  rewrite remove_version by done. apply of_chars_chars.
Qed.




(** ** Maps in insertion order *)

Section JSMapFacts.
Context {V : Type}.
Implicit Types (m : JSMap.t V) (k : string) (v : V).

Lemma has_keys k m : JSMap.has k m = true <-> k ∈ JSMap.keys m.
Proof.
  unfold JSMap.has, JSMap.keys. induction m as [|[k' v] m IH]; simpl.
  - split; [discriminate | by intros ?%elem_of_nil].
  - rewrite elem_of_cons. destruct (String.eqb_spec k k') as [->|Hne].
    + split; auto.
    + rewrite IH. split; [auto | by intros [? | ?]].
Qed.

Lemma get_has k m : JSMap.has k m = true <-> exists v, JSMap.get k m = Some v.
Proof.
  unfold JSMap.has. destruct (JSMap.get k m); split; eauto; try discriminate.
  by intros [? ?].
Qed.

Lemma get_in k v m : JSMap.get k m = Some v -> (k, v) ∈ m.
Proof.
  induction m as [|[k' v'] m IH]; simpl; [discriminate |].
  destruct (String.eqb_spec k k') as [->|Hne].
  - intros [= ->]. by left.
  - intros H. right. by apply IH.
Qed.

Lemma in_has k v m : (k, v) ∈ m -> JSMap.has k m = true.
Proof.
  intros H. apply has_keys. unfold JSMap.keys.
  apply list_elem_of_fmap. by exists (k, v).
Qed.

Lemma keys_alter (f : V -> V) k m : JSMap.keys (JSMap.alter f k m) = JSMap.keys m.
Proof.
  unfold JSMap.keys. induction m as [|[k' v] m IH]; simpl; [done |].
  destruct (String.eqb k k'); simpl; [done | by rewrite IH].
Qed.

Lemma has_alter (f : V -> V) k k' m :
  JSMap.has k' (JSMap.alter f k m) = JSMap.has k' m.
Proof.
  apply eq_true_iff_eq. by rewrite !has_keys, keys_alter.
Qed.

Lemma keys_append k v m : JSMap.keys (m ++ [(k, v)]) = JSMap.keys m ++ [k].
Proof. unfold JSMap.keys. by rewrite map_app. Qed.

Lemma delete_sublist k m : sublist (JSMap.delete k m) m.
Proof.
  induction m as [|[k' v] m IH]; simpl; [done |].
  destruct (String.eqb k k').
  - by apply sublist_cons.
  - by apply sublist_skip.
Qed.

Lemma has_delete_ne k k' m :
  k' <> k -> JSMap.has k' (JSMap.delete k m) = JSMap.has k' m.
Proof.
  intros Hne. unfold JSMap.has.
  induction m as [|[k0 v] m IH]; simpl; [done |].
  destruct (String.eqb_spec k k0) as [->|Hk].
  - destruct (String.eqb_spec k' k0) as [->|]; done.
  - simpl. destruct (String.eqb k' k0); [done | apply IH].
Qed.

Lemma has_delete_eq k m :
  NoDup (JSMap.keys m) -> JSMap.has k (JSMap.delete k m) = false.
Proof.
  intros Hnd. apply not_true_is_false. rewrite has_keys.
  unfold JSMap.keys in *. induction m as [|[k0 v] m IH]; simpl in *.
  - apply not_elem_of_nil.
  - apply NoDup_cons in Hnd as [Hk0 Hnd].
    destruct (String.eqb_spec k k0) as [->|Hk]; [done |].
    simpl. rewrite elem_of_cons. intros [? | ?]; [done | by apply IH].
Qed.

Lemma keys_delete_NoDup k m :
  NoDup (JSMap.keys m) -> NoDup (JSMap.keys (JSMap.delete k m)).
Proof.
  unfold JSMap.keys. intros H.
  eapply sublist_NoDup; [exact H |].
  apply (fmap_sublist fst), delete_sublist.
Qed.

End JSMapFacts.

(** ** What the operations on the registry do *)

Ltac eff :=
  unfold Eff.bind, Eff.gets, Eff.modify, Eff.ret, Eff.throw, Eff.try_catch,
    Eff.Date_now, Eff.setTimeout, Eff.await, Eff.on_manager, Eff.suspend;
  cbn [fst snd manager now awaited lateness State.plugins
       State.activePluginId State.lastRequestTime State.emitted
       State.set_plugins State.set_active State.set_last State.emit].

Lemma setActive_effect pluginId w :
  if JSMap.has pluginId (State.plugins (manager w)) then
    fst (PluginManager.setActive pluginId w) = Returns tt /\
    State.plugins (manager (snd (PluginManager.setActive pluginId w)))
      = State.plugins (manager w) /\
    State.activePluginId (manager (snd (PluginManager.setActive pluginId w)))
      = Some pluginId
  else
    PluginManager.setActive pluginId w
      = (Throws (PluginManager.not_registered pluginId), w).
Proof.
  unfold PluginManager.setActive. eff.
  destruct (JSMap.has pluginId _); simpl; eff; done.
Qed.

Lemma has_append_eq {V} k (v : V) m : JSMap.has k (m ++ [(k, v)]) = true.
Proof.
  apply has_keys. rewrite keys_append, elem_of_app, list_elem_of_singleton.
  by right.
Qed.

Lemma register_effect plugin w :
  let id := SourcePlugin.id plugin in
  let s := manager w in
  let w' := snd (PluginManager.register plugin w) in
  if Types.valid plugin && negb (JSMap.has id (State.plugins s)) then
    fst (PluginManager.register plugin w) = Returns tt /\
    State.plugins (manager w')
      = State.plugins s ++ [(id, Registry.entry plugin (now w))] /\
    State.activePluginId (manager w')
      = Some (default id (State.activePluginId s)) /\
    State.lastRequestTime (manager w') = State.lastRequestTime s /\
    now w' = now w
  else
    exists e, PluginManager.register plugin w = (Throws e, w).
Proof.
  cbv zeta. unfold PluginManager.register.
  destruct (Types.valid plugin); simpl; [| eexists; reflexivity].
  eff.
  destruct (JSMap.has _ (State.plugins (manager w))) eqn:Ehas; simpl;
    [eexists; reflexivity |].
  destruct (State.activePluginId (manager w)) eqn:Eact; simpl; eff;
    unfold JSMap.set; rewrite ?Ehas; [done |].
  unfold PluginManager.setActive. eff.
  unfold JSMap.set; rewrite ?Ehas, ?has_append_eq. simpl. eff.
  rewrite ?Ehas. done.
Qed.

Lemma filter_all {A} (p : A -> bool) (l : list A) :
  (forall x, p x = true) -> List.filter p l = l.
Proof.
  intros H. induction l as [|a l IH]; simpl; [done |].
  by rewrite H, IH.
Qed.

Lemma list_none s :
  PluginManager.list_ ListOptions.none s
  = map PluginRegistration.plugin (JSMap.values (State.plugins s)).
Proof. unfold PluginManager.list_. by rewrite filter_all. Qed.

Lemma skeleton_alter b k m :
  Registry.skeleton (JSMap.alter (PluginRegistration.set_enabled b) k m)
  = Registry.skeleton m.
Proof.
  unfold Registry.skeleton. induction m as [|[k' v] m IH]; simpl; [done |].
  destruct (String.eqb k k'); simpl; [done | by rewrite IH].
Qed.

Lemma call_quietly_effect hook w :
  fst (PluginManager.call_quietly hook w) = Returns tt /\
  manager (snd (PluginManager.call_quietly hook w)) = manager w.
Proof. destruct hook as [[[]|e]|]; done. Qed.

Lemma unregister_effect pluginId w :
  let s := manager w in
  let w' := snd (PluginManager.unregister pluginId w) in
  match JSMap.get pluginId (State.plugins s) with
  | Some _ =>
      fst (PluginManager.unregister pluginId w) = Returns tt /\
      State.plugins (manager w') = JSMap.delete pluginId (State.plugins s) /\
      State.activePluginId (manager w')
        = (if PluginManager.is_active pluginId s
           then PluginManager.first_id
                  (map PluginRegistration.plugin
                     (JSMap.values (JSMap.delete pluginId (State.plugins s))))
           else State.activePluginId s) /\
      State.lastRequestTime (manager w') = State.lastRequestTime s
  | None =>
      PluginManager.unregister pluginId w
        = (Throws (PluginManager.not_registered pluginId), w)
  end.
Proof.
  cbv zeta. unfold PluginManager.unregister. eff.
  destruct (JSMap.get pluginId _) as [reg|]; [| reflexivity].
  destruct (call_quietly_effect
              (SourcePlugin.shutdown (PluginRegistration.plugin reg)) w)
    as [Hr Hm].
  destruct (PluginManager.call_quietly _ w) as [r w1].
  simpl in Hr, Hm. subst r. eff. rewrite Hm.
  unfold PluginManager.is_active. eff.
  destruct (State.activePluginId (manager w)) as [a|] eqn:Ea; simpl;
    [| by rewrite ?Ea].
  destruct (String.eqb a pluginId); simpl; eff; rewrite ?Ea; [| done].
  by rewrite list_none.
Qed.

Lemma enable_effect pluginId w :
  let w' := snd (PluginManager.enable pluginId w) in
  if JSMap.has pluginId (State.plugins (manager w)) then
    fst (PluginManager.enable pluginId w) = Returns tt /\
    State.plugins (manager w')
      = JSMap.alter (PluginRegistration.set_enabled true) pluginId
          (State.plugins (manager w)) /\
    State.activePluginId (manager w') = State.activePluginId (manager w)
  else
    PluginManager.enable pluginId w
      = (Throws (PluginManager.not_registered pluginId), w).
Proof.
  cbv zeta. unfold PluginManager.enable. eff.
  destruct (JSMap.has pluginId _); simpl; eff; done.
Qed.

Lemma disable_effect pluginId w :
  let s := manager w in
  let w' := snd (PluginManager.disable pluginId w) in
  let plugins' := JSMap.alter (PluginRegistration.set_enabled false) pluginId
                    (State.plugins s) in
  if JSMap.has pluginId (State.plugins s) then
    fst (PluginManager.disable pluginId w) = Returns tt /\
    State.plugins (manager w') = plugins' /\
    State.activePluginId (manager w')
      = (if PluginManager.is_active pluginId s
         then PluginManager.first_id
                (PluginManager.list_
                   {| ListOptions.enabledOnly := true;
                      ListOptions.capability := None |}
                   (State.set_plugins (fun _ => plugins') s))
         else State.activePluginId s)
  else
    PluginManager.disable pluginId w
      = (Throws (PluginManager.not_registered pluginId), w).
Proof.
  cbv zeta. unfold PluginManager.disable. eff.
  destruct (JSMap.has pluginId _); simpl; eff; [| done].
  unfold PluginManager.is_active. eff.
  destruct (State.activePluginId (manager w)) as [a|] eqn:Ea; simpl;
    [| by rewrite ?Ea].
  destruct (String.eqb a pluginId); simpl; eff; by rewrite ?Ea.
Qed.

Lemma for_each_invariant {A} (f : A -> M unit) (P : World -> Prop) xs :
  (forall x w, P w -> fst (f x w) = Returns tt /\ P (snd (f x w))) ->
  forall w, P w ->
  fst (PluginManager.for_each f xs w) = Returns tt /\
  P (snd (PluginManager.for_each f xs w)).
Proof.
  intros Hf. induction xs as [|x xs IH]; intros w Hw; simpl; [done |].
  unfold Eff.bind. destruct (Hf x w Hw) as [Hr Hp].
  destruct (f x w) as [r w1]. simpl in Hr, Hp. subst r. by apply IH.
Qed.

Lemma initialize_one_effect reg w :
  let w' := snd (PluginManager.initialize_one reg w) in
  fst (PluginManager.initialize_one reg w) = Returns tt /\
  Registry.skeleton (State.plugins (manager w'))
    = Registry.skeleton (State.plugins (manager w)) /\
  State.activePluginId (manager w') = State.activePluginId (manager w).
Proof.
  cbv zeta. unfold PluginManager.initialize_one.
  destruct (SourcePlugin.initialize _) as [[[]|e]|]; eff; try done.
  by rewrite skeleton_alter.
Qed.

Lemma initialize_effect w :
  let w' := snd (PluginManager.initialize w) in
  fst (PluginManager.initialize w) = Returns tt /\
  Registry.skeleton (State.plugins (manager w'))
    = Registry.skeleton (State.plugins (manager w)) /\
  State.activePluginId (manager w') = State.activePluginId (manager w).
Proof.
  cbv zeta. unfold PluginManager.initialize. eff.
  pose proof (for_each_invariant PluginManager.initialize_one
    (fun w' => Registry.skeleton (State.plugins (manager w'))
                 = Registry.skeleton (State.plugins (manager w)) /\
               State.activePluginId (manager w')
                 = State.activePluginId (manager w))
    (JSMap.values (State.plugins (manager w)))) as H.
  destruct (H) with (w := w) as [Hr Hp]; [| done |].
  { intros reg w1 [H1 H2].
    destruct (initialize_one_effect reg w1) as (? & ? & ?).
    split; [done |]. split; congruence. }
  destruct (PluginManager.for_each _ _ w) as [r w1].
  simpl in Hr, Hp. subst r. eff. done.
Qed.

Lemma shutdown_effect w :
  let w' := snd (PluginManager.shutdown w) in
  fst (PluginManager.shutdown w) = Returns tt /\
  State.plugins (manager w') = [] /\
  State.activePluginId (manager w') = None.
Proof.
  cbv zeta. unfold PluginManager.shutdown. eff.
  destruct (for_each_invariant
    (fun reg => PluginManager.call_quietly
       (SourcePlugin.shutdown (PluginRegistration.plugin reg)))
    (fun _ => True) (JSMap.values (State.plugins (manager w)))) with (w := w)
    as [Hr _]; [| done |].
  { intros reg w1 _. split; [apply call_quietly_effect | done]. }
  destruct (PluginManager.for_each _ _ w) as [r w1].
  simpl in Hr. subst r. eff. done.
Qed.

(** ** The invariant of the registry *)

Lemma keyed_skeleton s s' :
  Registry.skeleton (State.plugins s') = Registry.skeleton (State.plugins s) ->
  Registry.keyed s -> Registry.keyed s'.
Proof.
  unfold Registry.keyed, Registry.skeleton, JSMap.keys.
  intros H [Hk Hnd]. split.
  - rewrite Forall_forall in *. intros [k v] Hin.
    assert ((k, PluginRegistration.plugin v) ∈
            map (fun kv => (fst kv, PluginRegistration.plugin (snd kv)))
                (State.plugins s')) as Hin'.
    { apply list_elem_of_fmap. by exists (k, v). }
    rewrite H in Hin'. apply list_elem_of_fmap in Hin' as ([k0 v0] & [= -> Hp] & Hin0).
    simpl. rewrite Hp. by apply (Hk (k0, v0)).
  - assert (map fst (State.plugins s') = map fst (State.plugins s)) as ->; [| done].
    apply (f_equal (map fst)) in H. by rewrite !map_map in H.
Qed.

Lemma has_skeleton k m m' :
  Registry.skeleton m' = Registry.skeleton m -> JSMap.has k m' = JSMap.has k m.
Proof.
  intros H. apply eq_true_iff_eq. rewrite !has_keys. unfold JSMap.keys.
  assert (map fst m' = map fst m) as ->; [| done].
  apply (f_equal (map fst)) in H. unfold Registry.skeleton in H.
  by rewrite !map_map in H.
Qed.

Lemma first_id_in xs a :
  PluginManager.first_id xs = Some a ->
  exists p, p ∈ xs /\ SourcePlugin.id p = a.
Proof.
  destruct xs as [|p xs]; [discriminate |]. intros [= <-].
  exists p. split; [by left | done].
Qed.

(** A plugin that [list] returns is registered under its ID. *)
Lemma listed_registered options s p :
  Registry.keyed s -> p ∈ PluginManager.list_ options s ->
  exists reg,
    JSMap.get (SourcePlugin.id p) (State.plugins s) = Some reg /\
    PluginRegistration.plugin reg = p /\
    PluginManager.keep options reg = true.
Proof.
  intros [Hk Hnd] Hp. unfold PluginManager.list_, JSMap.values in Hp.
  apply list_elem_of_fmap in Hp as (reg & -> & Hreg).
  apply list_elem_of_In, filter_In in Hreg as [Hreg Hkeep].
  apply list_elem_of_In, list_elem_of_fmap in Hreg as ([k reg'] & -> & Hin).
  simpl in *. rewrite Forall_forall in Hk. pose proof (Hk _ Hin) as Hid.
  simpl in Hid. rewrite Hid.
  destruct (JSMap.get k (State.plugins s)) as [reg0|] eqn:Eget.
  - apply get_in in Eget.
    assert (reg0 = reg') as ->; [| eauto].
    clear -Hnd Hin Eget. unfold JSMap.keys in Hnd.
    induction (State.plugins s) as [|[k1 v1] m IH]; simpl in *.
    { by apply elem_of_nil in Hin. }
    apply NoDup_cons in Hnd as [Hk1 Hnd].
    apply elem_of_cons in Hin as [[= <- <-] | Hin];
      apply elem_of_cons in Eget as [[= ?] | Eget]; subst; try done.
    + exfalso. apply Hk1. apply list_elem_of_fmap. by exists (k, reg0).
    + exfalso. apply Hk1. apply list_elem_of_fmap. by exists (k1, reg').
    + by apply IH.
  - exfalso. apply in_has in Hin. unfold JSMap.has in Hin.
    by rewrite Eget in Hin.
Qed.

Lemma first_id_registered options s a :
  Registry.keyed s ->
  PluginManager.first_id (PluginManager.list_ options s) = Some a ->
  Registry.registered a s.
Proof.
  intros Hk (p & Hp & <-)%first_id_in.
  destruct (listed_registered options s p Hk Hp) as (reg & Hget & _).
  apply get_has. eauto.
Qed.

Lemma register_invariant plugin w :
  Registry.invariant (manager w) ->
  Registry.invariant (manager (snd (PluginManager.register plugin w))).
Proof.
  intros [[Hk Hnd] Ha]. pose proof (register_effect plugin w) as H.
  cbv zeta in H.
  destruct (Types.valid plugin && negb (JSMap.has _ _)) eqn:E.
  - destruct H as (_ & Hp & Hact & _).
    apply andb_true_iff in E as [_ Hfresh%negb_true_iff].
    unfold Registry.invariant, Registry.keyed, Registry.active_ok,
      Registry.registered.
    rewrite Hp, Hact. split_and!.
    + apply Forall_app. split; [done |]. by constructor.
    + rewrite keys_append. apply NoDup_app. split_and!; [done | | ].
      * intros k Hk1 ->%list_elem_of_singleton.
        apply has_keys in Hk1. congruence.
      * apply NoDup_singleton.
    + unfold Registry.active_ok, Registry.registered in Ha.
      destruct (State.activePluginId (manager w)) as [a|]; simpl.
      * apply has_keys. rewrite keys_append, elem_of_app. left.
        by apply has_keys.
      * apply has_append_eq.
  - destruct H as [e ->]. done.
Qed.

Lemma setActive_invariant pluginId w :
  Registry.invariant (manager w) ->
  Registry.invariant (manager (snd (PluginManager.setActive pluginId w))).
Proof.
  intros [[Hk Hnd] Ha]. pose proof (setActive_effect pluginId w) as H.
  destruct (JSMap.has pluginId _) eqn:E.
  - destruct H as (_ & Hp & Hact).
    unfold Registry.invariant, Registry.keyed, Registry.active_ok,
      Registry.registered.
    by rewrite Hp, Hact.
  - by rewrite H.
Qed.

Lemma Forall_delete {V} (P : string * V -> Prop) k (m : JSMap.t V) :
  Forall P m -> Forall P (JSMap.delete k m).
Proof.
  induction 1 as [|[k' v] m Hkv Hm IH]; simpl; [done |].
  destruct (String.eqb k k'); [done | by constructor].
Qed.

Lemma unregister_invariant pluginId w :
  Registry.invariant (manager w) ->
  Registry.invariant (manager (snd (PluginManager.unregister pluginId w))).
Proof.
  intros [[Hk Hnd] Ha]. pose proof (unregister_effect pluginId w) as H.
  cbv zeta in H.
  destruct (JSMap.get pluginId _) as [reg|] eqn:E; [| by rewrite H].
  destruct H as (_ & Hp & Hact & _).
  set (s' := manager (snd (PluginManager.unregister pluginId w))) in *.
  assert (Hk' : Registry.keyed s').
  { unfold Registry.keyed. rewrite Hp. split.
    - by apply Forall_delete.
    - by apply keys_delete_NoDup. }
  split; [done |].
  unfold Registry.active_ok. rewrite Hact.
  unfold PluginManager.is_active.
  unfold Registry.active_ok, Registry.registered in Ha.
  destruct (State.activePluginId (manager w)) as [a|]; [| done].
  destruct (String.eqb_spec a pluginId) as [->|Hne]; cbn match.
  - rewrite <- Hp, <- list_none. clear Hact.
    destruct (PluginManager.first_id (PluginManager.list_ _ s'))
      as [a'|] eqn:E'; [| done].
    by apply (first_id_registered ListOptions.none).
  - unfold Registry.registered. rewrite Hp. by rewrite has_delete_ne.
Qed.

(** The invariant looks at the registrations with their plugins and at the
    pointer only. *)
Lemma invariant_skeleton s s' :
  Registry.skeleton (State.plugins s') = Registry.skeleton (State.plugins s) ->
  State.activePluginId s' = State.activePluginId s ->
  Registry.invariant s -> Registry.invariant s'.
Proof.
  intros Hp Hact [Hk Ha]. split; [by apply (keyed_skeleton s) |].
  unfold Registry.active_ok, Registry.registered in *. rewrite Hact.
  destruct (State.activePluginId s); [| done].
  by rewrite (has_skeleton _ _ _ Hp).
Qed.

Lemma enable_invariant pluginId w :
  Registry.invariant (manager w) ->
  Registry.invariant (manager (snd (PluginManager.enable pluginId w))).
Proof.
  intros Hinv. pose proof (enable_effect pluginId w) as H. cbv zeta in H.
  destruct (JSMap.has pluginId _); [| by rewrite H].
  destruct H as (_ & Hp & Hact).
  apply (invariant_skeleton (manager w)); [| done | done].
  by rewrite Hp, skeleton_alter.
Qed.

Lemma disable_invariant pluginId w :
  Registry.invariant (manager w) ->
  Registry.invariant (manager (snd (PluginManager.disable pluginId w))).
Proof.
  intros [Hk Ha]. pose proof (disable_effect pluginId w) as H. cbv zeta in H.
  destruct (JSMap.has pluginId _); [| by rewrite H].
  destruct H as (_ & Hp & Hact).
  set (s' := manager (snd (PluginManager.disable pluginId w))) in *.
  assert (Hk' : Registry.keyed s').
  { apply (keyed_skeleton (manager w)); [| done].
    by rewrite Hp, skeleton_alter. }
  split; [done |]. unfold Registry.active_ok. rewrite Hact.
  destruct (PluginManager.is_active pluginId (manager w)).
  - destruct (PluginManager.first_id _) as [a|] eqn:E; [| done].
    apply first_id_registered in E.
    + unfold Registry.registered in *. by rewrite Hp.
    + apply (keyed_skeleton (manager w)); [| done].
      simpl. by rewrite skeleton_alter.
  - unfold Registry.active_ok, Registry.registered in *.
    destruct (State.activePluginId (manager w)); [| done].
    by rewrite Hp, has_alter.
Qed.

Lemma initialize_invariant w :
  Registry.invariant (manager w) ->
  Registry.invariant (manager (snd (PluginManager.initialize w))).
Proof.
  intros Hinv. destruct (initialize_effect w) as (_ & Hp & Hact).
  by apply (invariant_skeleton (manager w)).
Qed.

Lemma shutdown_invariant w :
  Registry.invariant (manager (snd (PluginManager.shutdown w))).
Proof.
  destruct (shutdown_effect w) as (_ & Hp & Hact).
  unfold Registry.invariant, Registry.keyed, Registry.active_ok.
  rewrite Hp, Hact. split_and!; [constructor | constructor | done].
Qed.

Lemma perform_invariant op w :
  Registry.invariant (manager w) ->
  Registry.invariant (manager (snd (Registry.perform op w))).
Proof.
  destruct op; simpl;
    auto using register_invariant, unregister_invariant, setActive_invariant,
               enable_invariant, disable_invariant, initialize_invariant,
               shutdown_invariant.
Qed.

Lemma perform_all_invariant ops : forall w,
  Registry.invariant (manager w) ->
  Registry.invariant (manager (snd (Registry.perform_all ops w))).
Proof.
  induction ops as [|op ops IH]; intros w Hinv; simpl; [done |].
  unfold Eff.bind, Eff.try_catch.
  pose proof (perform_invariant op w Hinv) as H.
  destruct (Registry.perform op w) as [[[]|e] w1]; simpl in *; by apply IH.
Qed.

Lemma constructor_invariant : Registry.invariant PluginManager.constructor.
Proof.
  unfold Registry.invariant, Registry.keyed, Registry.active_ok. simpl.
  split_and!; [constructor | constructor | done].
Qed.

(** C10.  After any sequence of calls of [register], [unregister],
    [setActive], [enable], [disable], [initialize] and [shutdown] on a new
    manager, failed calls included, the active-plugin pointer is [null] or
    the ID of a plugin that is registered. *)
Theorem active_pointer_registered (time : Z) (late : nat -> N)
    (ops : list Registry.Op) :
  Registry.active_ok
    (manager (snd (Registry.perform_all ops (Registry.fresh time late)))).
Proof.
  apply perform_all_invariant. apply constructor_invariant.
Qed.

(** ** Registration and the active plugin *)

Lemma in_delete {V} (kv : string * V) k (m : JSMap.t V) :
  kv ∈ JSMap.delete k m -> kv ∈ m.
Proof.
  induction m as [|[k' v] m IH]; simpl; [done |].
  destruct (String.eqb k k').
  - by right.
  - intros [-> | H]%elem_of_cons; [by left | right; by apply IH].
Qed.

Lemma empty_registry_no_active s :
  Registry.active_ok s -> State.plugins s = [] -> State.activePluginId s = None.
Proof.
  unfold Registry.active_ok, Registry.registered. intros Ha Hp.
  destruct (State.activePluginId s); [| done].
  rewrite Hp in Ha. discriminate.
Qed.

(** C6.  In a manager whose registry is empty, a successful [register]
    makes the plugin active.  Unregistering the active plugin while others
    remain makes the first of the remaining registrations active, which is
    another plugin and is registered.  Unregistering the only plugin
    leaves the registry empty and no plugin active. *)
Theorem active_auto_promotion (w : World) :
  Registry.invariant (manager w) ->
  (forall plugin,
     State.plugins (manager w) = [] -> Types.valid plugin = true ->
     fst (PluginManager.register plugin w) = Returns tt /\
     State.activePluginId (manager (snd (PluginManager.register plugin w)))
       = Some (SourcePlugin.id plugin)) /\
  (forall pluginId k reg rest,
     State.activePluginId (manager w) = Some pluginId ->
     JSMap.delete pluginId (State.plugins (manager w)) = (k, reg) :: rest ->
     let w' := snd (PluginManager.unregister pluginId w) in
     fst (PluginManager.unregister pluginId w) = Returns tt /\
     State.plugins (manager w') = (k, reg) :: rest /\
     State.activePluginId (manager w') = Some k /\
     k <> pluginId /\ Registry.registered k (manager w')) /\
  (forall pluginId reg,
     State.plugins (manager w) = [(pluginId, reg)] ->
     let w' := snd (PluginManager.unregister pluginId w) in
     fst (PluginManager.unregister pluginId w) = Returns tt /\
     State.plugins (manager w') = [] /\
     State.activePluginId (manager w') = None).
Proof.
  intros [[Hk Hnd] Ha]. split_and!.
  - intros plugin Hempty Hvalid.
    pose proof (register_effect plugin w) as H. cbv zeta in H.
    rewrite Hvalid, Hempty in H. simpl in H.
    destruct H as (Hr & _ & Hact & _). split; [done |].
    by rewrite Hact, (empty_registry_no_active _ Ha Hempty).
  - intros pluginId k reg rest Hact Hrest w'. subst w'.
    pose proof (unregister_effect pluginId w) as H. cbv zeta in H.
    unfold Registry.active_ok in Ha. rewrite Hact in Ha.
    apply get_has in Ha as [reg0 Hget]. rewrite Hget in H.
    destruct H as (Hr & Hp & Hact' & _).
    unfold PluginManager.is_active in Hact'.
    rewrite Hact, String.eqb_refl, Hrest in Hact'. simpl in Hact'.
    assert (Hin : (k, reg) ∈ State.plugins (manager w)).
    { apply (in_delete _ pluginId). rewrite Hrest. by left. }
    rewrite Forall_forall in Hk. pose proof (Hk _ Hin) as Hkey.
    simpl in Hkey. rewrite Hkey in Hact'.
    rewrite Hp, Hrest. split_and!; try done.
    + intros ->. pose proof (has_delete_eq pluginId _ Hnd) as Hno.
      rewrite Hrest in Hno. unfold JSMap.has in Hno. simpl in Hno.
      by rewrite String.eqb_refl in Hno.
    + unfold Registry.registered. rewrite Hp, Hrest.
      unfold JSMap.has. simpl. by rewrite String.eqb_refl.
  - intros pluginId reg Hone w'. subst w'.
    pose proof (unregister_effect pluginId w) as H. cbv zeta in H.
    rewrite Hone in H. simpl in H. rewrite String.eqb_refl in H.
    destruct H as (Hr & Hp & Hact' & _). split_and!; try done.
    rewrite Hact'. destruct (PluginManager.is_active _ _) eqn:E; [done |].
    unfold PluginManager.is_active in E.
    unfold Registry.active_ok, Registry.registered in Ha.
    destruct (State.activePluginId (manager w)) as [a|]; [| done].
    rewrite Hone in Ha. unfold JSMap.has in Ha. simpl in Ha.
    destruct (String.eqb a pluginId); discriminate.
Qed.

Lemma after_invariant plugins : Registry.invariant (manager (Example.after plugins)).
Proof. apply perform_all_invariant, constructor_invariant. Qed.

Lemma active_auto_promotion_witness :
  let ads := Example.plugin "ads" (Some (Returns (Some Example.status)))
               (Returns (Example.result [])) (Returns None) in
  let arxiv := Example.plugin "arxiv" (Some (Returns (Some Example.status)))
                 (Returns (Example.result [])) (Returns None) in
  State.activePluginId
    (manager (snd (PluginManager.register ads (Example.after []))))
    = Some "ads" /\
  State.activePluginId
    (manager (snd (PluginManager.unregister "ads" (Example.after [ads; arxiv]))))
    = Some "arxiv" /\
  State.activePluginId
    (manager (snd (PluginManager.unregister "ads" (Example.after [ads]))))
    = None.
Proof.
  intros ads arxiv. split_and!.
  - destruct (active_auto_promotion (Example.after []) (after_invariant []))
      as (H & _ & _).
    destruct (H ads) as [_ ->]; reflexivity.
  - destruct (active_auto_promotion (Example.after [ads; arxiv])
                (after_invariant [ads; arxiv])) as (_ & H & _).
    destruct (H "ads" "arxiv" (Registry.entry arxiv 1700000000000) [])
      as (_ & _ & -> & _); reflexivity.
  - destruct (active_auto_promotion (Example.after [ads])
                (after_invariant [ads])) as (_ & _ & H).
    destruct (H "ads" (Registry.entry ads 1700000000000))
      as (_ & _ & ->); reflexivity.
Defined.

(** ** Interface validation *)

Lemma plugin_id_test s :
  RegExp.test_full Types.re_plugin_id s = true <->
  Validation.id_shape (JSString.chars s).
Proof.
  rewrite test_full_spec. generalize (JSString.chars s) as w. intros w.
  unfold Types.re_plugin_id, Validation.id_shape. rewrite lang_seq. split.
  - intros (w1 & rest & -> & H1 & H2).
    apply (lang_chars _ _ _ class_lower) in H1 as (c & -> & Hc).
    apply (lang_rep _ _ _ _ _ class_plugin_id_rest) in H2 as (Hrest & _).
    by exists c, rest.
  - intros (c & rest & -> & Hc & Hrest). exists [c], rest.
    split; [done |]. split.
    + apply (lang_chars _ _ _ class_lower). eauto.
    + apply (lang_rep _ _ _ _ _ class_plugin_id_rest).
      split; [done |]. split; [lia | done].
Qed.

Lemma nonempty_app {A} (l1 l2 : list A) :
  Validation.nonempty (l1 ++ l2)
  = Validation.nonempty l1 || Validation.nonempty l2.
Proof. by destruct l1. Qed.

Lemma nonempty_error_if b msg :
  Validation.nonempty (Types.error_if b msg) = b.
Proof. by destruct b. Qed.

Lemma falsy_string s : negb (JSString.truthy s) = true <-> s = EmptyString.
Proof.
  unfold JSString.truthy. rewrite negb_involutive.
  destruct (String.eqb_spec s EmptyString); split; congruence.
Qed.

Lemma absent_option {A} (o : option A) :
  negb (Types.is_some o) = true <-> o = None.
Proof. destruct o; simpl; split; congruence. Qed.

Lemma unbacked_flag {A} (c : bool) (o : option A) :
  c && negb (Types.is_some o) = true <-> c = true /\ o = None.
Proof. destruct c, o; simpl; intuition congruence. Qed.

Lemma unbacked_pdf {A} (c d : bool) (g : option A) m1 m2 :
  Validation.nonempty (if c then Types.error_if (negb (Types.is_some g)) m1 ++
                      Types.error_if (negb d) m2
            else []) = true <->
  c = true /\ (g = None \/ d = false).
Proof. destruct c, d, g; simpl; intuition congruence. Qed.

Lemma malformed_flag s (t : bool) :
  JSString.truthy s && negb t = true <-> s <> EmptyString /\ ~ t = true.
Proof.
  unfold JSString.truthy.
  destruct (String.eqb_spec s EmptyString), t; simpl; intuition congruence.
Qed.

(** [validatePlugin] reports an error exactly for the plugins that lack
    one of the four required fields, have a malformed ID, or declare one
    of the capabilities search, lookup and pdfDownload without its
    method. *)
Lemma invalid_spec plugin :
  Types.valid plugin = false <-> Validation.fails plugin.
Proof.
  transitivity (Validation.nonempty (Types.validatePlugin plugin) = true).
  { unfold Types.valid. destruct (Types.validatePlugin plugin); split;
      simpl; congruence. }
  unfold Types.validatePlugin.
  rewrite !nonempty_app, !nonempty_error_if, !orb_true_iff.
  rewrite !falsy_string, !absent_option, !unbacked_flag, unbacked_pdf,
    malformed_flag, plugin_id_test.
  unfold Validation.fails, Validation.missing_field, Validation.malformed_id,
    Validation.unbacked, Validation.declares.
  tauto.
Qed.

Lemma valid_spec plugin :
  Types.valid plugin = true <-> ~ Validation.fails plugin.
Proof.
  rewrite <- invalid_spec. destruct (Types.valid plugin); split; congruence.
Qed.

(** C5, as the code has it.  [register] throws exactly when the plugin
    lacks a required field, has a malformed ID, declares one of the
    capabilities search, lookup and pdfDownload without the matching
    method, or when its ID is already registered.  A call that throws
    leaves the manager as it was; a call that returns adds the
    registration at the end of the registry.  Hence a second plugin with
    the ID of a registered one is refused and the registry keeps the
    first. *)
Theorem register_rejection (plugin : SourcePlugin.t) (w : World) :
  let id := SourcePlugin.id plugin in
  let w' := snd (PluginManager.register plugin w) in
  ((exists e, fst (PluginManager.register plugin w) = Throws e) <->
   Validation.fails plugin \/ Registry.registered id (manager w)) /\
  (forall e, fst (PluginManager.register plugin w) = Throws e -> w' = w) /\
  (fst (PluginManager.register plugin w) = Returns tt ->
   State.plugins (manager w')
     = State.plugins (manager w) ++ [(id, Registry.entry plugin (now w))] /\
   forall second,
     SourcePlugin.id second = id ->
     exists e, PluginManager.register second w' = (Throws e, w')).
Proof.
  intros id w'. subst id w'.
  pose proof (register_effect plugin w) as H. cbv zeta in H.
  destruct (Types.valid plugin) eqn:Ev; simpl in H;
    [destruct (JSMap.has _ (State.plugins (manager w))) eqn:Eh; simpl in H |].
  - destruct H as [e He]. rewrite He. simpl. split_and!.
    + split; [by right | eauto].
    + done.
    + discriminate.
  - destruct H as (Hr & Hp & _). rewrite Hr. split_and!.
    + split; [by intros [e ?] |].
      apply valid_spec in Ev. unfold Registry.registered.
      intros [? | ?]; [done | congruence].
    + discriminate.
    + intros _. split; [done |]. intros second Hid.
      pose proof (register_effect second
                    (snd (PluginManager.register plugin w))) as H2.
      cbv zeta in H2. rewrite Hp, Hid, has_append_eq, andb_false_r in H2.
      exact H2.
  - destruct H as [e He]. rewrite He. simpl. split_and!.
    + split; [| eauto]. intros _. left. by apply invalid_spec.
    + done.
    + discriminate.
Qed.

(** C5 as stated fails: a plugin that declares the references capability
    and has no [getReferences] fails the claimed validation, and
    [register] accepts it. *)
Lemma register_accepts_unbacked_references :
  Validation.fails_claimed Example.without_getReferences /\
  fst (PluginManager.register Example.without_getReferences (Example.after []))
    = Returns tt /\
  Registry.registered "crossref"
    (manager (snd (PluginManager.register Example.without_getReferences
                     (Example.after [])))).
Proof.
  split_and!.
  - right. right. right. left. split; reflexivity.
  - reflexivity.
  - reflexivity.
Qed.

Lemma register_rejection_witness :
  let ads := Example.plugin "ads" (Some (Returns (Some Example.status)))
               (Returns (Example.result [])) (Returns None) in
  let w1 := snd (PluginManager.register ads (Example.after [])) in
  fst (PluginManager.register ads (Example.after [])) = Returns tt /\
  exists e, PluginManager.register ads w1 = (Throws e, w1).
Proof.
  intros ads w1.
  destruct (register_rejection ads (Example.after [])) as (_ & _ & H).
  destruct (H eq_refl) as [_ H2].
  split; [reflexivity | exact (H2 ads eq_refl)].
Defined.

(** ** The rate limiter *)

(** [_enforceRateLimit] leaves the registry and the pointer alone, and it
    throws only what the plugin's [getRateLimitStatus] throws. *)
Lemma enforce_effect pluginId w :
  let r := PluginManager._enforceRateLimit pluginId w in
  State.plugins (manager (snd r)) = State.plugins (manager w) /\
  State.activePluginId (manager (snd r)) = State.activePluginId (manager w) /\
  fst r = match PluginManager.get pluginId (manager w) with
          | Some plugin =>
              match SourcePlugin.getRateLimitStatus plugin with
              | Some (Throws e) => Throws e
              | _ => Returns tt
              end
          | None => Returns tt
          end.
Proof.
  cbv zeta. unfold PluginManager._enforceRateLimit. eff.
  destruct (PluginManager.get pluginId (manager w)) as [plugin|]; [| done].
  destruct (SourcePlugin.getRateLimitStatus plugin) as [[[status|]|e]|];
    try done.
  destruct (PluginManager.must_retry_later status); simpl; eff;
    destruct (PluginManager.below _ _); simpl; eff; done.
Qed.




(** The table of delays is an object literal: an ID that names a member
    of [Object.prototype] finds that member in it, which is no number, so
    that no elapsed time is below it. *)
Lemma min_delay_of_inherited_member :
  RegExp.test_full Types.re_plugin_id "constructor" = true /\
  PluginManager._getMinDelay "constructor" = Inherited "constructor" /\
  forall elapsed,
    PluginManager.below elapsed (PluginManager._getMinDelay "constructor")
      = false.
Proof. split_and!; reflexivity. Qed.

(** ** Lookup *)

Lemma known_get s p :
  Registry.known (State.plugins s) p ->
  PluginManager.get (SourcePlugin.id p) s = Some p.
Proof.
  intros (reg & Hget & Hp). unfold PluginManager.get. by rewrite Hget, Hp.
Qed.


Lemma active_known s a :
  Registry.keyed s -> PluginManager.getActive s = Some a ->
  Registry.known (State.plugins s) a.
Proof.
  intros [Hk _]. unfold PluginManager.getActive, PluginManager.get.
  destruct (State.activePluginId s) as [k|]; [| discriminate].
  destruct (JSString.truthy k); [| discriminate].
  destruct (JSMap.get k (State.plugins s)) as [reg|] eqn:E; [| discriminate].
  intros [= <-]. exists reg. split; [| done].
  pose proof (get_in _ _ _ E) as Hin. rewrite Forall_forall in Hk.
  pose proof (Hk _ Hin) as Hid. simpl in Hid. by rewrite Hid.
Qed.







(** ** Federated search *)

Section JSMapSet.
Context {V : Type}.
Implicit Types (m : JSMap.t V) (k : string) (v : V).

Lemma get_alter_eq (f : V -> V) k m :
  JSMap.get k (JSMap.alter f k m) = f <$> JSMap.get k m.
Proof.
  induction m as [|[k' v'] m IH]; simpl; [done |].
  destruct (String.eqb k k') eqn:E; simpl; rewrite E; [done | apply IH].
Qed.

Lemma get_alter_ne (f : V -> V) k k' m :
  k' <> k -> JSMap.get k' (JSMap.alter f k m) = JSMap.get k' m.
Proof.
  intros Hne. induction m as [|[k0 v0] m IH]; simpl; [done |].
  destruct (String.eqb_spec k k0) as [->|]; simpl.
  - by destruct (String.eqb_spec k' k0).
  - destruct (String.eqb k' k0); [done | apply IH].
Qed.

Lemma get_append k k' v m :
  JSMap.get k' (m ++ [(k, v)])
  = match JSMap.get k' m with
    | Some v' => Some v'
    | None => if String.eqb k' k then Some v else None
    end.
Proof.
  induction m as [|[k0 v0] m IH]; simpl; [done |].
  destruct (String.eqb k' k0); [done | apply IH].
Qed.



Lemma has_get_none k m : JSMap.has k m = false <-> JSMap.get k m = None.
Proof. unfold JSMap.has. destruct (JSMap.get k m); split; congruence. Qed.

End JSMapSet.

(** The plugins that [list] returns have pairwise different IDs. *)
Lemma listed_ids_NoDup options s :
  Registry.keyed s ->
  NoDup (map SourcePlugin.id (PluginManager.list_ options s)).
Proof.
  intros [Hk Hnd]. unfold PluginManager.list_, JSMap.values, JSMap.keys in *.
  induction (State.plugins s) as [|[k reg] m IH]; simpl; [constructor |].
  apply Forall_cons in Hk as [Hkey Hk]. apply NoDup_cons in Hnd as [Hfresh Hnd].
  simpl in Hkey. destruct (PluginManager.keep options reg); simpl; [| by apply IH].
  apply NoDup_cons. split; [| by apply IH].
  rewrite Hkey. intros Hin. apply Hfresh.
  apply list_elem_of_fmap in Hin as (p & -> & Hp).
  apply list_elem_of_fmap in Hp as (reg' & -> & Hreg').
  apply list_elem_of_In, filter_In in Hreg' as [Hreg' _].
  apply list_elem_of_In, list_elem_of_fmap in Hreg' as ([k' r'] & -> & Hin').
  rewrite Forall_forall in Hk. rewrite (Hk _ Hin').
  apply list_elem_of_fmap. by exists (k', r').
Qed.





(* ===================================================================== *)
(** * Further properties of the manager *)
(* ===================================================================== *)

(** ** The state after each call, in full *)

Lemma setActive_manager pluginId w :
  manager (snd (PluginManager.setActive pluginId w))
  = if JSMap.has pluginId (State.plugins (manager w))
    then After.setActive pluginId (manager w)
    else manager w.
Proof.
  unfold PluginManager.setActive. eff.
  destruct (JSMap.has pluginId _); reflexivity.
Qed.

Lemma enable_manager pluginId w :
  manager (snd (PluginManager.enable pluginId w))
  = if JSMap.has pluginId (State.plugins (manager w))
    then After.enable pluginId (manager w)
    else manager w.
Proof.
  unfold PluginManager.enable. eff.
  destruct (JSMap.has pluginId _); reflexivity.
Qed.

Lemma disable_manager pluginId w :
  manager (snd (PluginManager.disable pluginId w))
  = if JSMap.has pluginId (State.plugins (manager w))
    then After.disable pluginId (manager w)
    else manager w.
Proof.
  unfold PluginManager.disable, After.disable. eff.
  destruct (JSMap.has pluginId _); simpl; [| reflexivity]. eff.
  unfold PluginManager.is_active. eff.
  destruct (State.activePluginId (manager w)) as [a|]; [| reflexivity].
  destruct (String.eqb a pluginId); reflexivity.
Qed.

Lemma unregister_manager pluginId w :
  manager (snd (PluginManager.unregister pluginId w))
  = if JSMap.has pluginId (State.plugins (manager w))
    then After.unregister pluginId (manager w)
    else manager w.
Proof.
  unfold PluginManager.unregister, After.unregister, JSMap.has. eff.
  destruct (JSMap.get pluginId _) as [reg|]; [| reflexivity].
  destruct (call_quietly_effect
              (SourcePlugin.shutdown (PluginRegistration.plugin reg)) w)
    as [Hr Hm].
  destruct (PluginManager.call_quietly _ w) as [r w1].
  simpl in Hr, Hm. subst r. eff. rewrite Hm.
  unfold PluginManager.is_active. eff.
  destruct (State.activePluginId (manager w)) as [a|]; [| reflexivity].
  destruct (String.eqb a pluginId); reflexivity.
Qed.

Lemma register_manager plugin w :
  manager (snd (PluginManager.register plugin w))
  = if Types.valid plugin &&
       negb (JSMap.has (SourcePlugin.id plugin) (State.plugins (manager w)))
    then After.register plugin (now w) (manager w)
    else manager w.
Proof.
  unfold PluginManager.register, After.register.
  destruct (Types.valid plugin); simpl; [| reflexivity]. eff.
  destruct (JSMap.has _ (State.plugins (manager w))) eqn:Ehas; simpl;
    [reflexivity |].
  assert (Hset : forall v,
            JSMap.set (SourcePlugin.id plugin) v (State.plugins (manager w))
            = State.plugins (manager w) ++ [(SourcePlugin.id plugin, v)])
    by (intros v; unfold JSMap.set; by rewrite Ehas).
  destruct (State.activePluginId (manager w)) eqn:Ea; simpl; eff.
  - unfold State.emit, State.set_plugins. simpl. by rewrite Hset.
  - unfold PluginManager.setActive, After.setActive. eff.
    rewrite Hset, has_append_eq. simpl. eff.
    unfold State.emit, State.set_plugins, State.set_active. simpl.
    by rewrite Hset, Ea.
Qed.

Lemma is_enabled_alter b pluginId k s :
  After.is_enabled k
    (State.set_plugins
       (JSMap.alter (PluginRegistration.set_enabled b) pluginId) s)
  = if String.eqb k pluginId
    then JSMap.has k (State.plugins s) && b
    else After.is_enabled k s.
Proof.
  unfold After.is_enabled, JSMap.has. simpl.
  destruct (String.eqb_spec k pluginId) as [->|Hne].
  - rewrite get_alter_eq. by destruct (JSMap.get pluginId (State.plugins s)).
  - by rewrite get_alter_ne.
Qed.

(** A plugin that [list] returns with [enabledOnly] is enabled. *)
Lemma listed_enabled s p :
  Registry.keyed s -> p ∈ PluginManager.list_ After.enabledOnly s ->
  After.is_enabled (SourcePlugin.id p) s = true.
Proof.
  intros Hk Hp.
  destruct (listed_registered _ _ _ Hk Hp) as (reg & Hget & _ & Hkeep).
  unfold After.is_enabled. rewrite Hget.
  unfold PluginManager.keep in Hkeep. simpl in Hkeep.
  by destruct (PluginRegistration.enabled reg).
Qed.

Lemma keyed_alter b pluginId s :
  Registry.keyed s ->
  Registry.keyed
    (State.set_plugins
       (JSMap.alter (PluginRegistration.set_enabled b) pluginId) s).
Proof.
  apply keyed_skeleton. simpl. apply skeleton_alter.
Qed.

Lemma keyed_emit e s : Registry.keyed s -> Registry.keyed (State.emit e s).
Proof. done. Qed.

(** ** Calls on an ID that is not registered *)

(** X1.  For an ID that is registered, [unregister], [setActive],
    [enable] and [disable] return.  For an ID that is not, each of them
    throws the same error and leaves the manager and its world as they
    were, and the rate limiter does nothing. *)
Theorem unregistered_id_rejected (pluginId : string) (w : World) :
  (Registry.registered pluginId (manager w) ->
   fst (PluginManager.unregister pluginId w) = Returns tt /\
   fst (PluginManager.setActive pluginId w) = Returns tt /\
   fst (PluginManager.enable pluginId w) = Returns tt /\
   fst (PluginManager.disable pluginId w) = Returns tt) /\
  (~ Registry.registered pluginId (manager w) ->
   let error := Throws (PluginManager.not_registered pluginId) in
   PluginManager.unregister pluginId w = (error, w) /\
   PluginManager.setActive pluginId w = (error, w) /\
   PluginManager.enable pluginId w = (error, w) /\
   PluginManager.disable pluginId w = (error, w) /\
   PluginManager._enforceRateLimit pluginId w = (Returns tt, w)).
Proof.
  unfold Registry.registered.
  pose proof (unregister_effect pluginId w) as Hu.
  pose proof (setActive_effect pluginId w) as Hs.
  pose proof (enable_effect pluginId w) as He.
  pose proof (disable_effect pluginId w) as Hd.
  cbv zeta in Hu, He, Hd. unfold JSMap.has in *. split.
  - intros H. destruct (JSMap.get pluginId _); [| discriminate].
    by destruct Hu as [? _], Hs as [? _], He as [? _], Hd as [? _].
  - intros H. cbv zeta.
    destruct (JSMap.get pluginId (State.plugins (manager w))) eqn:E; [done |].
    split_and!; try done.
    unfold PluginManager._enforceRateLimit, PluginManager.get. eff.
    by rewrite E.
Qed.

Lemma unregistered_id_rejected_witness :
  Registry.registered "ads" (manager (Sample.run [Registry.Register Sample.ads])) /\
  ~ Registry.registered "arxiv"
      (manager (Sample.run [Registry.Register Sample.ads])) /\
  fst (PluginManager.disable "ads" (Sample.run [Registry.Register Sample.ads]))
    = Returns tt /\
  PluginManager.setActive "arxiv" (Sample.run [Registry.Register Sample.ads])
    = (Throws (PluginManager.not_registered "arxiv"),
       Sample.run [Registry.Register Sample.ads]).
Proof.
  assert (H1 : Registry.registered "ads"
                 (manager (Sample.run [Registry.Register Sample.ads])))
    by reflexivity.
  assert (H2 : ~ Registry.registered "arxiv"
                 (manager (Sample.run [Registry.Register Sample.ads])))
    by discriminate.
  split; [exact H1 |]. split; [exact H2 |].
  destruct (unregistered_id_rejected "ads"
              (Sample.run [Registry.Register Sample.ads])) as [Hr _].
  destruct (unregistered_id_rejected "arxiv"
              (Sample.run [Registry.Register Sample.ads])) as [_ Hn].
  destruct (Hr H1) as (_ & _ & _ & Hd). destruct (Hn H2) as (_ & Hs & _).
  split; [exact Hd | exact Hs].
Defined.

(** ** Disabling and enabling *)

Lemma is_enabled_emit e k s :
  After.is_enabled k (State.emit e s) = After.is_enabled k s.
Proof. done. Qed.

Lemma list_plugins_only options s s' :
  State.plugins s' = State.plugins s ->
  PluginManager.list_ options s' = PluginManager.list_ options s.
Proof. unfold PluginManager.list_. by intros ->. Qed.

(** X2.  Disabling the active plugin moves the pointer to the first
    enabled plugin in registration order: a registered, enabled plugin
    other than the disabled one; when no plugin is enabled the pointer
    becomes [null].  The disabled plugin stays registered. *)
Theorem disable_active_promotes_enabled (pluginId : string) (w : World) :
  Registry.invariant (manager w) ->
  State.activePluginId (manager w) = Some pluginId ->
  let s' := manager (snd (PluginManager.disable pluginId w)) in
  State.activePluginId s'
    = PluginManager.first_id (PluginManager.list_ After.enabledOnly s') /\
  Registry.registered pluginId s' /\
  After.is_enabled pluginId s' = false /\
  forall a, State.activePluginId s' = Some a ->
    a <> pluginId /\ Registry.registered a s' /\ After.is_enabled a s' = true.
Proof.
  intros [Hk Ha] Hact s'.
  assert (Hreg : JSMap.has pluginId (State.plugins (manager w)) = true).
  { unfold Registry.active_ok in Ha. by rewrite Hact in Ha. }
  assert (Hs' : s' = After.disable pluginId (manager w)).
  { subst s'. by rewrite disable_manager, Hreg. }
  unfold After.disable, PluginManager.is_active in Hs'.
  rewrite Hact, String.eqb_refl in Hs'. cbv zeta in Hs'.
  set (s1 := State.emit _ _) in Hs'.
  assert (Hk1 : Registry.keyed s1) by (by apply keyed_emit, keyed_alter).
  assert (Hlist : PluginManager.list_ After.enabledOnly s'
                  = PluginManager.list_ After.enabledOnly s1)
    by (by rewrite Hs').
  assert (Hoff : After.is_enabled pluginId s1 = false).
  { subst s1. rewrite is_enabled_emit, is_enabled_alter.
    by rewrite String.eqb_refl, andb_false_r. }
  assert (Hen : forall k, After.is_enabled k s' = After.is_enabled k s1)
    by (by rewrite Hs').
  split_and!.
  - by rewrite Hlist, Hs'.
  - unfold Registry.registered. rewrite Hs'. simpl. by rewrite has_alter.
  - by rewrite Hen.
  - intros a Hnew. rewrite Hs' in Hnew. simpl in Hnew.
    apply first_id_in in Hnew as (p & Hp & <-).
    pose proof (listed_enabled s1 p Hk1 Hp) as Hon.
    split_and!.
    + intros Heq. rewrite Heq in Hon. congruence.
    + destruct (listed_registered _ _ _ Hk1 Hp) as (reg & Hget & _).
      unfold Registry.registered. rewrite Hs'. apply get_has. eauto.
    + by rewrite Hen.
Qed.

Lemma disable_active_promotes_enabled_witness :
  let w := Sample.run [Registry.Register Sample.ads;
                       Registry.Register Sample.arxiv] in
  Registry.invariant (manager w) /\
  State.activePluginId (manager w) = Some "ads" /\
  State.activePluginId (manager (snd (PluginManager.disable "ads" w)))
    = Some "arxiv".
Proof.
  intros w.
  assert (Hinv : Registry.invariant (manager w))
    by apply perform_all_invariant, constructor_invariant.
  split; [exact Hinv |]. split; [reflexivity |].
  destruct (disable_active_promotes_enabled "ads" w Hinv eq_refl)
    as (-> & _).
  reflexivity.
Defined.

(** The plugins that [list] returns with [enabledOnly] when none is
    enabled. *)
Lemma none_enabled_none_listed s :
  Registry.keyed s -> (forall k, After.is_enabled k s = false) ->
  PluginManager.list_ After.enabledOnly s = [].
Proof.
  intros Hk Hoff.
  destruct (PluginManager.list_ After.enabledOnly s) as [|p l] eqn:E; [done |].
  assert (Hp : p ∈ PluginManager.list_ After.enabledOnly s)
    by (rewrite E; by left).
  apply (listed_enabled s p Hk) in Hp. by rewrite Hoff in Hp.
Qed.

(** X3.  [enable] never moves the pointer.  Hence disabling the active
    plugin when no other plugin is enabled, and enabling it again, leaves
    the manager with that plugin enabled and no active plugin, and
    [search] then throws. *)
Theorem disable_enable_loses_active (pluginId : string)
    (query : UnifiedQuery.t) (w : World) :
  Registry.invariant (manager w) ->
  State.activePluginId (manager w) = Some pluginId ->
  (forall k, k <> pluginId -> After.is_enabled k (manager w) = false) ->
  let w2 := snd (PluginManager.enable pluginId
                   (snd (PluginManager.disable pluginId w))) in
  State.activePluginId (manager w2) = None /\
  After.is_enabled pluginId (manager w2) = true /\
  PluginManager.search query w2 = (Throws "No active plugin", w2).
Proof.
  intros [Hk Ha] Hact Hothers w2.
  assert (Hreg : JSMap.has pluginId (State.plugins (manager w)) = true).
  { unfold Registry.active_ok in Ha. by rewrite Hact in Ha. }
  set (w1 := snd (PluginManager.disable pluginId w)) in *.
  assert (Hs1 : manager w1 = After.disable pluginId (manager w)).
  { subst w1. by rewrite disable_manager, Hreg. }
  unfold After.disable, PluginManager.is_active in Hs1.
  rewrite Hact, String.eqb_refl in Hs1. cbv zeta in Hs1.
  rewrite none_enabled_none_listed in Hs1.
  2:{ by apply keyed_emit, keyed_alter. }
  2:{ intros k. rewrite is_enabled_emit, is_enabled_alter.
      destruct (String.eqb_spec k pluginId); [by rewrite andb_false_r | auto]. }
  assert (Hs2 : manager w2 = After.enable pluginId (manager w1)).
  { subst w2. rewrite enable_manager, Hs1. simpl. by rewrite has_alter, Hreg. }
  assert (Hnone : State.activePluginId (manager w2) = None)
    by (by rewrite Hs2, Hs1).
  split_and!.
  - done.
  - rewrite Hs2. unfold After.enable.
    rewrite is_enabled_emit, is_enabled_alter.
    rewrite String.eqb_refl, Hs1. simpl. by rewrite has_alter, Hreg.
  - unfold PluginManager.search, PluginManager.getActive. eff.
    by rewrite Hnone.
Qed.

Lemma disable_enable_loses_active_witness :
  let w := Sample.run [Registry.Register Sample.ads] in
  let w2 := snd (PluginManager.enable "ads"
                   (snd (PluginManager.disable "ads" w))) in
  Registry.invariant (manager w) /\
  State.activePluginId (manager w) = Some "ads" /\
  State.activePluginId (manager w2) = None /\
  After.is_enabled "ads" (manager w2) = true.
Proof.
  intros w w2.
  assert (Hinv : Registry.invariant (manager w))
    by apply perform_all_invariant, constructor_invariant.
  split; [exact Hinv |]. split; [reflexivity |].
  assert (Hothers : forall k, k <> "ads" -> After.is_enabled k (manager w) = false).
  { intros k Hne. unfold After.is_enabled. simpl.
    apply String.eqb_neq in Hne. by rewrite Hne. }
  destruct (disable_enable_loses_active "ads" Example.query w Hinv eq_refl
              Hothers) as (H1 & H2 & _).
  split; [exact H1 | exact H2].
Defined.

(** ** The plugins of a registry are valid *)

Lemma all_valid_skeleton s s' :
  Registry.skeleton (State.plugins s') = Registry.skeleton (State.plugins s) ->
  Reachable.all_valid s -> Reachable.all_valid s'.
Proof.
  unfold Reachable.all_valid, Registry.skeleton. intros H Hv.
  assert (Hs : forall m : JSMap.t PluginRegistration.t,
    Forall (fun kv => Types.valid (PluginRegistration.plugin (snd kv)) = true) m
    <-> Forall (fun kp => Types.valid (snd kp) = true)
          (map (fun kv => (fst kv, PluginRegistration.plugin (snd kv))) m)).
  { intros m. induction m as [|kv m IH]; simpl.
    - split; constructor.
    - rewrite !Forall_cons, IH. done. }
  apply Hs. rewrite H. by apply Hs.
Qed.

Lemma perform_valid op w :
  Reachable.all_valid (manager w) ->
  Reachable.all_valid (manager (snd (Registry.perform op w))).
Proof.
  intros Hv. destruct op as [plugin|k|k|k|k| |]; simpl.
  - pose proof (register_effect plugin w) as H. cbv zeta in H.
    destruct (Types.valid plugin && negb (JSMap.has _ _)) eqn:E.
    + destruct H as (_ & Hp & _). unfold Reachable.all_valid. rewrite Hp.
      apply andb_true_iff in E as [Hvalid _].
      apply Forall_app. split; [done |]. by constructor.
    + destruct H as [e ->]. done.
  - pose proof (unregister_effect k w) as H. cbv zeta in H.
    destruct (JSMap.get k _); [| by rewrite H].
    destruct H as (_ & Hp & _). unfold Reachable.all_valid. rewrite Hp.
    by apply Forall_delete.
  - pose proof (setActive_effect k w) as H.
    destruct (JSMap.has k _); [| by rewrite H].
    destruct H as (_ & Hp & _). unfold Reachable.all_valid. by rewrite Hp.
  - pose proof (enable_effect k w) as H. cbv zeta in H.
    destruct (JSMap.has k _); [| by rewrite H].
    destruct H as (_ & Hp & _).
    apply (all_valid_skeleton (manager w)); [| done].
    by rewrite Hp, skeleton_alter.
  - pose proof (disable_effect k w) as H. cbv zeta in H.
    destruct (JSMap.has k _); [| by rewrite H].
    destruct H as (_ & Hp & _).
    apply (all_valid_skeleton (manager w)); [| done].
    by rewrite Hp, skeleton_alter.
  - destruct (initialize_effect w) as (_ & Hp & _).
    by apply (all_valid_skeleton (manager w)).
  - destruct (shutdown_effect w) as (_ & Hp & _).
    unfold Reachable.all_valid. rewrite Hp. constructor.
Qed.

Lemma perform_all_valid ops : forall w,
  Reachable.all_valid (manager w) ->
  Reachable.all_valid (manager (snd (Registry.perform_all ops w))).
Proof.
  induction ops as [|op ops IH]; intros w Hv; simpl; [done |].
  unfold Eff.bind, Eff.try_catch.
  pose proof (perform_valid op w Hv) as H.
  destruct (Registry.perform op w) as [[[]|e] w1]; simpl in *; by apply IH.
Qed.

Lemma reachable_valid time late ops :
  Reachable.all_valid (Reachable.state time late ops).
Proof. apply perform_all_valid. constructor. Qed.

Lemma reachable_invariant time late ops :
  Registry.invariant (Reachable.state time late ops).
Proof. apply perform_all_invariant, constructor_invariant. Qed.

(** A plugin that [list] returns for a capability declares it. *)
Lemma keep_capable enabledOnly key reg :
  PluginManager.keep {| ListOptions.enabledOnly := enabledOnly;
                        ListOptions.capability := Some key |} reg = true ->
  JSString.truthy key = true ->
  SourcePlugin.capable (PluginRegistration.plugin reg) key = true.
Proof.
  unfold PluginManager.keep.
  cbn [ListOptions.enabledOnly ListOptions.capability JS.truthy_str
       from_option].
  intros H Hkey. rewrite Hkey in H. unfold id in H.
  destruct (enabledOnly && _); [discriminate |].
  by destruct (SourcePlugin.capable _ key).
Qed.

(** X4.  After any sequence of calls on a new manager, every registration
    holds a plugin that passes [validatePlugin], under the ID of that
    plugin, which is not empty.  Hence every plugin that a federated
    search is dispatched to has a [search] method, every plugin that
    [lookup] tries has a [getRecord] method, and [getActive] answers
    [null] only when the pointer is [null]. *)
Theorem registered_plugins_stay_valid (time : Z) (late : nat -> N)
    (ops : list Registry.Op) :
  let s := Reachable.state time late ops in
  (forall k reg, JSMap.get k (State.plugins s) = Some reg ->
     Types.valid (PluginRegistration.plugin reg) = true /\
     SourcePlugin.id (PluginRegistration.plugin reg) = k /\
     k <> EmptyString) /\
  (forall p, p ∈ FederatedSpec.dispatched s ->
     exists f, SourcePlugin.search p = Some f) /\
  (forall p, p ∈ LookupSpec.candidates s ->
     exists f, SourcePlugin.getRecord p = Some f) /\
  (PluginManager.getActive s = None <-> State.activePluginId s = None).
Proof.
  intros s.
  pose proof (reachable_valid time late ops) as Hv.
  destruct (reachable_invariant time late ops) as [Hk Ha].
  fold s in Hv, Hk, Ha.
  assert (Hreg : forall k reg, JSMap.get k (State.plugins s) = Some reg ->
     Types.valid (PluginRegistration.plugin reg) = true /\
     SourcePlugin.id (PluginRegistration.plugin reg) = k /\
     k <> EmptyString).
  { intros k reg Hget%get_in.
    unfold Reachable.all_valid in Hv. rewrite Forall_forall in Hv.
    destruct Hk as [Hk _]. rewrite Forall_forall in Hk.
    pose proof (Hv _ Hget) as Hvalid. pose proof (Hk _ Hget) as Hid.
    simpl in Hvalid, Hid. split_and!; [done | done |].
    intros ->. apply valid_spec in Hvalid. apply Hvalid.
    left. by left. }
  assert (Hlisted : forall enabledOnly key p,
    p ∈ PluginManager.list_ {| ListOptions.enabledOnly := enabledOnly;
                               ListOptions.capability := Some key |} s ->
    JSString.truthy key = true ->
    Types.valid p = true /\ SourcePlugin.capable p key = true).
  { intros e key p Hp Hkey.
    destruct (listed_registered _ _ _ Hk Hp) as (reg & Hget & <- & Hkeep).
    split; [by apply (Hreg _ _ Hget) | by apply (keep_capable e)]. }
  split_and!.
  - exact Hreg.
  - intros p Hp. destruct (Hlisted _ _ _ Hp eq_refl) as [Hvalid Hcap].
    apply valid_spec in Hvalid.
    destruct (SourcePlugin.search p) as [f|] eqn:E; [eauto |].
    exfalso. apply Hvalid. right. right. left. done.
  - assert (Hgr : forall p, Types.valid p = true ->
              SourcePlugin.capable p "lookup" = true ->
              exists f, SourcePlugin.getRecord p = Some f).
    { intros p Hvalid%valid_spec Hcap.
      destruct (SourcePlugin.getRecord p) as [f|] eqn:E; [eauto |].
      exfalso. apply Hvalid. right. right. right. left. done. }
    intros p. unfold LookupSpec.candidates.
    rewrite elem_of_app. intros [Hp | Hp].
    + destruct (PluginManager.getActive s) as [a|] eqn:Eact;
        [| by apply elem_of_nil in Hp].
      destruct (SourcePlugin.capable a "lookup") eqn:Ecap;
        [| by apply elem_of_nil in Hp].
      apply list_elem_of_singleton in Hp as ->.
      destruct (active_known _ _ Hk Eact) as (reg & Hget & <-).
      apply Hgr; [by apply (Hreg _ _ Hget) | done].
    + apply list_elem_of_In, filter_In in Hp as [Hp%list_elem_of_In _].
      destruct (Hlisted _ _ _ Hp eq_refl). by apply Hgr.
  - unfold PluginManager.getActive, PluginManager.get.
    unfold Registry.active_ok, Registry.registered in Ha.
    destruct (State.activePluginId s) as [a|]; [| done].
    apply get_has in Ha as [reg Hget].
    destruct (Hreg _ _ Hget) as (_ & _ & Hne).
    unfold JSString.truthy. apply String.eqb_neq in Hne. rewrite Hne, Hget.
    simpl. split; discriminate.
Qed.

(** ** Searching with the active plugin *)

(** The three steps that [search] and the tasks of [federatedSearch]
    share: the rate limit, the call of the plugin, the tagging. *)
Lemma search_steps_effect query p w :
  Registry.known (State.plugins (manager w)) p ->
  let r := (PluginManager._enforceRateLimit (SourcePlugin.id p);;;
            result <- PluginManager.call (SourcePlugin.search p) "search" query;;
            PluginManager.tag (SourcePlugin.id p) result) w in
  State.plugins (manager (snd r)) = State.plugins (manager w) /\
  State.activePluginId (manager (snd r)) = State.activePluginId (manager w) /\
  ((exists res, FederatedSpec.succeeds p query res /\ fst r = Returns res) \/
   (exists e, FederatedSpec.fails p query e /\ fst r = Throws e)).
Proof.
  intros Hknown%known_get. cbv zeta. unfold Eff.bind.
  destruct (enforce_effect (SourcePlugin.id p) w) as (Hp & Ha & Hr).
  rewrite Hknown in Hr.
  destruct (PluginManager._enforceRateLimit (SourcePlugin.id p) w) as [r1 w1].
  simpl in Hp, Ha, Hr. subst r1.
  unfold FederatedSpec.succeeds, FederatedSpec.fails, LookupSpec.status_fails.
  destruct (SourcePlugin.getRateLimitStatus p) as [[status|e]|] eqn:Es; simpl.
  2:{ split; [done |]. split; [done |]. right. exists e. eauto. }
  all: unfold PluginManager.call;
    destruct (SourcePlugin.search p) as [f|] eqn:Ef; eff;
      [destruct (f query) as [raw|e] eqn:Eq; simpl;
         [unfold PluginManager.tag;
          destruct (SearchResult.papers raw) as [papers|] eqn:Ep; eff |] |];
    (split; [done |]); (split; [done |]);
    first [ left; eexists; split; [split; [done | eauto 10] | done]
          | right; eexists; split; [right; split; [done |];
                                    rewrite ?Eq, ?Ep; eauto | done] ].
Qed.

(** The papers of a tagged result name the plugin as their source and are
    otherwise the papers of the plugin, in the same order. *)
Lemma tagged_papers pluginId raw papers :
  let res := FederatedSpec.tagged pluginId raw papers in
  exists tagged,
    SearchResult.papers res = Some tagged /\
    length tagged = length papers /\
    (forall i p, papers !! i = Some p ->
       exists p', tagged !! i = Some p' /\
         p' !! "source" = Some (JStr pluginId) /\
         forall k, k <> "source" -> p' !! k = p !! k).
Proof.
  cbv zeta. eexists. split; [reflexivity |]. split; [by rewrite length_map |].
  intros i p Hi. eexists. split.
  - rewrite list_lookup_fmap, Hi. reflexivity.
  - split; [by rewrite lookup_insert_eq |].
    intros k Hne. by rewrite lookup_insert_ne.
Qed.

(** The plugins of a registry whose plugins are valid. *)
Lemma registered_valid s k reg :
  Reachable.all_valid s -> JSMap.get k (State.plugins s) = Some reg ->
  Types.valid (PluginRegistration.plugin reg) = true.
Proof.
  unfold Reachable.all_valid. rewrite Forall_forall.
  intros Hv Hget%get_in. by apply (Hv (k, reg)).
Qed.

Lemma known_valid s p :
  Reachable.all_valid s -> Registry.known (State.plugins s) p ->
  Types.valid p = true.
Proof. intros Hv (reg & Hget & <-). by eapply registered_valid. Qed.

Lemma listed_valid options s p :
  Reachable.all_valid s -> p ∈ PluginManager.list_ options s ->
  Types.valid p = true.
Proof.
  unfold Reachable.all_valid, PluginManager.list_, JSMap.values.
  rewrite Forall_forall. intros Hv (reg & -> & Hreg)%list_elem_of_fmap.
  apply list_elem_of_In, filter_In in Hreg as [Hreg _].
  apply list_elem_of_In, list_elem_of_fmap in Hreg as (kv & -> & Hin).
  by apply Hv.
Qed.

(** A valid plugin has the capabilities object and the methods of the
    capabilities that [validatePlugin] checks. *)
Lemma valid_backed p :
  Types.valid p = true ->
  (exists caps, SourcePlugin.capabilities p = Some caps) /\
  (SourcePlugin.capable p "search" = true ->
   exists f, SourcePlugin.search p = Some f) /\
  (SourcePlugin.capable p "lookup" = true ->
   exists f, SourcePlugin.getRecord p = Some f) /\
  (SourcePlugin.capable p "pdfDownload" = true ->
   exists f, SourcePlugin.getPdfSources p = Some f).
Proof.
  intros Hvalid%valid_spec. split_and!.
  - destruct (SourcePlugin.capabilities p) as [caps|] eqn:E; [eauto |].
    exfalso. apply Hvalid. left. right. right. by left.
  - intros Hcap. destruct (SourcePlugin.search p) as [f|] eqn:E; [eauto |].
    exfalso. apply Hvalid. right. right. left. done.
  - intros Hcap. destruct (SourcePlugin.getRecord p) as [f|] eqn:E; [eauto |].
    exfalso. apply Hvalid. right. right. right. left. done.
  - intros Hcap.
    destruct (SourcePlugin.getPdfSources p) as [f|] eqn:E; [eauto |].
    exfalso. apply Hvalid. right. right. right. right. split; [done |].
    by left.
Qed.

(** X5.  [search] asks the active plugin only.  Without an active plugin,
    or with one that does not declare the search capability, it throws
    and changes nothing.  Otherwise it calls the [search] method of the
    plugin, which a registered plugin with that capability has, and
    returns the result with every paper's [source] set to the ID of the
    plugin, the other properties, the order and the number of the papers
    being those of the plugin, or it throws what the plugin threw.  The
    registry and the pointer are as before. *)
Theorem search_asks_active_plugin (query : UnifiedQuery.t) (w : World) :
  Registry.keyed (manager w) -> Reachable.all_valid (manager w) ->
  let r := PluginManager.search query w in
  State.plugins (manager (snd r)) = State.plugins (manager w) /\
  State.activePluginId (manager (snd r)) = State.activePluginId (manager w) /\
  match PluginManager.getActive (manager w) with
  | None => r = (Throws "No active plugin", w)
  | Some plugin =>
      if SourcePlugin.capable plugin "search" then
        exists f, SourcePlugin.search plugin = Some f /\
        ((exists raw papers tagged,
            f query = Returns raw /\
            SearchResult.papers raw = Some papers /\
            fst r = Returns (FederatedSpec.tagged (SourcePlugin.id plugin)
                               raw papers) /\
            SearchResult.papers
              (FederatedSpec.tagged (SourcePlugin.id plugin) raw papers)
              = Some tagged /\
            length tagged = length papers /\
            forall i p, papers !! i = Some p ->
              exists p', tagged !! i = Some p' /\
                p' !! "source" = Some (JStr (SourcePlugin.id plugin)) /\
                forall k, k <> "source" -> p' !! k = p !! k) \/
         (exists e, FederatedSpec.fails plugin query e /\ fst r = Throws e))
      else
        r = (Throws ("Plugin " +:+ PluginManager.dq +:+ SourcePlugin.id plugin
                     +:+ PluginManager.dq +:+ " does not support search"), w)
  end.
Proof.
  intros Hk Hv r.
  assert (Hr : r =
    match PluginManager.getActive (manager w) with
    | None => (Throws "No active plugin", w)
    | Some plugin =>
        if SourcePlugin.capable plugin "search" then
          (PluginManager._enforceRateLimit (SourcePlugin.id plugin);;;
           result <- PluginManager.call (SourcePlugin.search plugin)
                       "search" query;;
           PluginManager.tag (SourcePlugin.id plugin) result) w
        else
          (Throws ("Plugin " +:+ PluginManager.dq +:+ SourcePlugin.id plugin
                   +:+ PluginManager.dq +:+ " does not support search"), w)
    end).
  { subst r. unfold PluginManager.search.
    unfold Eff.bind at 1. unfold Eff.gets. cbn [fst snd].
    destruct (PluginManager.getActive (manager w)) as [plugin|]; [| done].
    by destruct (SourcePlugin.capable plugin "search"). }
  clearbody r. subst r.
  destruct (PluginManager.getActive (manager w)) as [plugin|] eqn:Eact;
    [| done].
  pose proof (active_known _ _ Hk Eact) as Hknown.
  destruct (SourcePlugin.capable plugin "search") eqn:Ecap; [| done].
  destruct (valid_backed plugin (known_valid _ _ Hv Hknown))
    as (_ & Hsearch & _).
  destruct (Hsearch Ecap) as [f Hf].
  destruct (search_steps_effect query plugin w Hknown) as (Hp & Ha & Hr).
  split; [exact Hp |]. split; [exact Ha |].
  exists f. split; [exact Hf |].
  destruct Hr as [(res & (_ & f' & raw & papers & Hf' & Hq & Hpap & ->) & Hr)
                 | (e & He & Hr)].
  - left. destruct (tagged_papers (SourcePlugin.id plugin) raw papers)
      as (tagged & H1 & H2 & H3).
    exists raw, papers, tagged. split_and!; try done. congruence.
  - right. eauto.
Qed.

Lemma search_asks_active_plugin_witness :
  let w := Sample.run [Registry.Register Sample.ads;
                       Registry.Register Sample.arxiv] in
  Registry.keyed (manager w) /\ Reachable.all_valid (manager w) /\
  State.activePluginId
    (manager (snd (PluginManager.search Example.query w))) = Some "ads".
Proof.
  intros w.
  assert (Hk : Registry.keyed (manager w))
    by apply perform_all_invariant, constructor_invariant.
  assert (Hv : Reachable.all_valid (manager w))
    by (apply perform_all_valid; constructor).
  split; [exact Hk |]. split; [exact Hv |].
  destruct (search_asks_active_plugin Example.query w Hk Hv) as (_ & -> & _).
  reflexivity.
Defined.

Lemma search_unfold query w :
  PluginManager.search query w =
  match PluginManager.getActive (manager w) with
  | None => (Throws "No active plugin", w)
  | Some plugin =>
      if SourcePlugin.capable plugin "search" then
        (PluginManager._enforceRateLimit (SourcePlugin.id plugin);;;
         result <- PluginManager.call (SourcePlugin.search plugin)
                     "search" query;;
         PluginManager.tag (SourcePlugin.id plugin) result) w
      else
        (Throws ("Plugin " +:+ PluginManager.dq +:+ SourcePlugin.id plugin
                 +:+ PluginManager.dq +:+ " does not support search"), w)
  end.
Proof.
  unfold PluginManager.search.
  unfold Eff.bind at 1. unfold Eff.gets. cbn [fst snd].
  destruct (PluginManager.getActive (manager w)) as [plugin|]; [| done].
  by destruct (SourcePlugin.capable plugin "search").
Qed.

(** A plugin that [list] returns when only enabled plugins are asked for
    is enabled. *)
Lemma listed_is_enabled options s p :
  Registry.keyed s -> ListOptions.enabledOnly options = true ->
  p ∈ PluginManager.list_ options s ->
  After.is_enabled (SourcePlugin.id p) s = true.
Proof.
  intros Hk Hopt Hp.
  destruct (listed_registered _ _ _ Hk Hp) as (reg & Hget & _ & Hkeep).
  unfold After.is_enabled. rewrite Hget.
  unfold PluginManager.keep in Hkeep. rewrite Hopt in Hkeep.
  by destruct (PluginRegistration.enabled reg).
Qed.

(** X6.  [setActive] does not look at the enabled flag.  A plugin that
    is disabled and then made active is the plugin that [search] asks and
    that [lookup] tries first, while no listing of enabled plugins, and so
    no federated search, includes it. *)
Theorem disabled_plugin_can_be_active (pluginId : string)
    (plugin : SourcePlugin.t) (query : UnifiedQuery.t) (w : World) :
  Registry.invariant (manager w) -> Reachable.all_valid (manager w) ->
  PluginManager.get pluginId (manager w) = Some plugin ->
  let call := PluginManager.disable pluginId;;;
              PluginManager.setActive pluginId in
  let w' := snd (call w) in
  fst (call w) = Returns tt /\
  After.is_enabled pluginId (manager w') = false /\
  PluginManager.getActive (manager w') = Some plugin /\
  (forall options p,
     ListOptions.enabledOnly options = true ->
     p ∈ PluginManager.list_ options (manager w') ->
     SourcePlugin.id p <> pluginId) /\
  (forall p, p ∈ FederatedSpec.dispatched (manager w') ->
     SourcePlugin.id p <> pluginId) /\
  (SourcePlugin.capable plugin "search" = true ->
     (exists res, FederatedSpec.succeeds plugin query res /\
        fst (PluginManager.search query w') = Returns res) \/
     (exists e, FederatedSpec.fails plugin query e /\
        fst (PluginManager.search query w') = Throws e)) /\
  (SourcePlugin.capable plugin "lookup" = true ->
     head (LookupSpec.candidates (manager w')) = Some plugin).
Proof.
  intros [Hk Ha] Hv Hget call w'.
  assert (Hreg : JSMap.has pluginId (State.plugins (manager w)) = true).
  { unfold PluginManager.get in Hget. unfold JSMap.has.
    by destruct (JSMap.get pluginId _). }
  assert (Hne : pluginId <> EmptyString).
  { unfold PluginManager.get in Hget.
    destruct (JSMap.get pluginId _) as [reg|] eqn:E; [| discriminate].
    injection Hget as <-.
    pose proof (registered_valid _ _ _ Hv E) as Hvalid.
    destruct Hk as [Hk _]. rewrite Forall_forall in Hk.
    pose proof (Hk _ (get_in _ _ _ E)) as Hid. simpl in Hid.
    intros ->. apply valid_spec in Hvalid. apply Hvalid. left. by left. }
  pose proof (disable_effect pluginId w) as Hd. cbv zeta in Hd.
  pose proof (disable_manager pluginId w) as Hdm.
  rewrite Hreg in Hd, Hdm. destruct Hd as (Hr1 & Hp1 & _).
  subst w' call. unfold Eff.bind.
  destruct (PluginManager.disable pluginId w) as [r1 w1].
  cbn [fst snd] in Hr1, Hp1, Hdm. subst r1.
  pose proof (setActive_effect pluginId w1) as Hs.
  pose proof (setActive_manager pluginId w1) as Hsm.
  assert (Hreg1 : JSMap.has pluginId (State.plugins (manager w1)) = true)
    by (by rewrite Hp1, has_alter).
  rewrite Hreg1 in Hs, Hsm. destruct Hs as (Hr2 & Hp2 & Hact2).
  set (w2 := snd (PluginManager.setActive pluginId w1)) in *.
  assert (Hk2 : Registry.keyed (manager w2)).
  { apply (keyed_skeleton (manager w)); [| done].
    by rewrite Hp2, Hp1, skeleton_alter. }
  assert (Hoff : After.is_enabled pluginId (manager w2) = false).
  { unfold After.is_enabled. rewrite Hp2, Hp1, get_alter_eq.
    by destruct (JSMap.get pluginId _). }
  assert (Hactive : PluginManager.getActive (manager w2) = Some plugin).
  { unfold PluginManager.getActive, PluginManager.get, JSString.truthy.
    apply String.eqb_neq in Hne. rewrite Hact2, Hne, Hp2, Hp1, get_alter_eq.
    unfold PluginManager.get in Hget.
    destruct (JSMap.get pluginId _); [| discriminate].
    simpl. done. }
  assert (Hlist : forall options p,
     ListOptions.enabledOnly options = true ->
     p ∈ PluginManager.list_ options (manager w2) ->
     SourcePlugin.id p <> pluginId).
  { intros options p Hopt Hp Heq.
    pose proof (listed_is_enabled options _ p Hk2 Hopt Hp) as Hon.
    rewrite Heq in Hon. congruence. }
  split_and!; try done.
  - intros p Hp. by apply (Hlist FederatedSpec.options).
  - intros Hcap. rewrite search_unfold, Hactive, Hcap.
    by destruct (search_steps_effect query plugin w2
                   (active_known _ _ Hk2 Hactive)) as (_ & _ & H).
  - intros Hcap. unfold LookupSpec.candidates. by rewrite Hactive, Hcap.
Qed.

Lemma disabled_plugin_can_be_active_witness :
  let w := Sample.run [Registry.Register Sample.ads;
                       Registry.Register Sample.arxiv] in
  let w' := snd ((PluginManager.disable "arxiv";;;
                  PluginManager.setActive "arxiv") w) in
  Registry.invariant (manager w) /\ Reachable.all_valid (manager w) /\
  PluginManager.get "arxiv" (manager w) = Some Sample.arxiv /\
  PluginManager.getActive (manager w') = Some Sample.arxiv /\
  After.is_enabled "arxiv" (manager w') = false.
Proof.
  intros w w'.
  assert (Hinv : Registry.invariant (manager w))
    by apply perform_all_invariant, constructor_invariant.
  assert (Hv : Reachable.all_valid (manager w))
    by (apply perform_all_valid; constructor).
  split; [exact Hinv |]. split; [exact Hv |]. split; [reflexivity |].
  destruct (disabled_plugin_can_be_active "arxiv" Sample.arxiv Example.query w
              Hinv Hv eq_refl) as (_ & H1 & H2 & _).
  split; [exact H2 | exact H1].
Defined.

(** ** The events of the pointer *)

(** X7.  Only [setActive] announces a change of the active plugin.
    Unregistering or disabling the active plugin moves the pointer away
    from it and emits the single event of the removal or the disabling,
    with no [ActiveChanged]; [setActive] emits [ActiveChanged] with the
    previous pointer, also when the plugin was active already. *)
Theorem pointer_moves_without_event (pluginId : string) (w : World) :
  Registry.invariant (manager w) ->
  State.activePluginId (manager w) = Some pluginId ->
  let s := manager w in
  let unregistered := manager (snd (PluginManager.unregister pluginId w)) in
  let disabled := manager (snd (PluginManager.disable pluginId w)) in
  let activated := manager (snd (PluginManager.setActive pluginId w)) in
  (State.activePluginId unregistered <> Some pluginId /\
   State.emitted unregistered
     = State.emitted s ++ [PluginUnregistered pluginId]) /\
  (State.activePluginId disabled <> Some pluginId /\
   State.emitted disabled = State.emitted s ++ [PluginDisabled pluginId]) /\
  (State.activePluginId activated = Some pluginId /\
   State.emitted activated
     = State.emitted s ++ [ActiveChanged (Some pluginId) pluginId]).
Proof.
  intros [Hk Ha] Hact s unregistered disabled activated.
  assert (Hreg : JSMap.has pluginId (State.plugins (manager w)) = true).
  { unfold Registry.active_ok in Ha. by rewrite Hact in Ha. }
  subst unregistered disabled activated s.
  rewrite unregister_manager, disable_manager, setActive_manager, Hreg.
  unfold After.unregister, After.disable, After.setActive,
    PluginManager.is_active.
  rewrite Hact, String.eqb_refl. cbv zeta. set (s := manager w) in *.
  split_and!; try done.
  - simpl. intros Hnew.
    apply first_id_in in Hnew as (p & Hp & Hid).
    assert (Hk1 : Registry.keyed
              (State.emit (PluginUnregistered pluginId)
                 (State.set_plugins (JSMap.delete pluginId) s))).
    { destruct Hk as [Hk Hnd]. split; simpl.
      - by apply Forall_delete.
      - by apply keys_delete_NoDup. }
    destruct (listed_registered _ _ _ Hk1 Hp) as (reg & Hget & _).
    rewrite Hid in Hget. simpl in Hget.
    destruct Hk as [_ Hnd].
    pose proof (has_delete_eq pluginId _ Hnd) as Hno.
    unfold JSMap.has in Hno. by rewrite Hget in Hno.
  - simpl. intros Hnew.
    apply first_id_in in Hnew as (p & Hp & Hid).
    assert (Hk1 : Registry.keyed
              (State.emit (PluginDisabled pluginId)
                 (State.set_plugins
                    (JSMap.alter (PluginRegistration.set_enabled false)
                       pluginId) s))).
    { by apply keyed_emit, keyed_alter. }
    pose proof (listed_enabled _ p Hk1 Hp) as Hon.
    rewrite Hid, is_enabled_emit, is_enabled_alter, String.eqb_refl in Hon.
    by rewrite andb_false_r in Hon.
Qed.

Lemma pointer_moves_without_event_witness :
  let w := Sample.run [Registry.Register Sample.ads;
                       Registry.Register Sample.arxiv] in
  Registry.invariant (manager w) /\
  State.activePluginId (manager w) = Some "ads" /\
  State.emitted (manager (snd (PluginManager.unregister "ads" w)))
    = State.emitted (manager w) ++ [PluginUnregistered "ads"].
Proof.
  intros w.
  assert (Hinv : Registry.invariant (manager w))
    by apply perform_all_invariant, constructor_invariant.
  split; [exact Hinv |]. split; [reflexivity |].
  destruct (pointer_moves_without_event "ads" w Hinv eq_refl)
    as ((_ & H) & _).
  exact H.
Defined.

(** ** The rate limiter: exhausted quotas and what it leaves alone *)

Lemma must_retry_later_spec status :
  PluginManager.must_retry_later status = true <->
  RateLimitStatus.remaining status <= 0 /\
  exists seconds, RateLimitStatus.retryAfter status = Some seconds /\
                  seconds <> 0.
Proof.
  unfold PluginManager.must_retry_later.
  rewrite andb_true_iff, Z.leb_le.
  destruct (RateLimitStatus.retryAfter status) as [seconds|].
  - rewrite negb_true_iff, Z.eqb_neq. split.
    + intros [? ?]. eauto.
    + intros [? (x & [= <-] & ?)]. done.
  - split; [by intros [_ ?] | by intros [_ (x & ? & _)]].
Qed.

(** X8.  A plugin that reports an exhausted quota with a [retryAfter] is
    waited for: the rate limiter returns no sooner than [retryAfter]
    seconds later, for a [retryAfter] within the longest delay of a timer
    (2147483647 ms), and suspends the manager once or twice.  With quota
    left, or without a [retryAfter], an exhausted quota included, there is
    no such wait: the manager is suspended only when the last request is
    closer than the minimum delay, and otherwise the rate limiter returns
    at once. *)
Theorem exhausted_quota_waits (pluginId : string) (plugin : SourcePlugin.t)
    (status : RateLimitStatus.t) (w : World) :
  PluginManager.get pluginId (manager w) = Some plugin ->
  SourcePlugin.getRateLimitStatus plugin = Some (Returns (Some status)) ->
  let w' := snd (PluginManager._enforceRateLimit pluginId w) in
  let lastRequest := default 0 (State.lastRequestTime (manager w) !! pluginId) in
  (forall seconds,
     RateLimitStatus.remaining status <= 0 ->
     RateLimitStatus.retryAfter status = Some seconds -> seconds <> 0 ->
     seconds * 1000 <= 2147483647 ->
     now w + Z.max 0 (seconds * 1000) <= now w' /\
     (awaited w' = S (awaited w) \/ awaited w' = S (S (awaited w)))) /\
  (0 < RateLimitStatus.remaining status \/
   RateLimitStatus.retryAfter status = None \/
   RateLimitStatus.retryAfter status = Some 0 ->
   if PluginManager.below (now w - lastRequest)
        (PluginManager._getMinDelay pluginId)
   then awaited w' = S (awaited w)
   else awaited w' = awaited w /\ now w' = now w).
Proof.
  intros Hget Hstatus. cbv zeta.
  unfold PluginManager._enforceRateLimit. eff. rewrite Hget, Hstatus.
  split.
  - intros seconds Hrem Hretry Hne _.
    assert (Hm : PluginManager.must_retry_later status = true).
    { apply must_retry_later_spec. eauto. }
    rewrite Hm, Hretry. simpl. eff.
    destruct (PluginManager.below _ _); simpl; eff; split; auto; lia.
  - intros Hno.
    assert (Hm : PluginManager.must_retry_later status = false).
    { apply not_true_is_false.
      intros (Hrem & seconds & Hretry & Hne)%must_retry_later_spec.
      destruct Hno as [? | [? | ?]]; [lia | congruence | congruence]. }
    rewrite Hm. simpl. eff.
    destruct (PluginManager.below _ _); simpl; eff; done.
Qed.

Lemma exhausted_quota_waits_witness :
  let w := Sample.run [Registry.Register Sample.throttled] in
  PluginManager.get "inspire" (manager w) = Some Sample.throttled /\
  SourcePlugin.getRateLimitStatus Sample.throttled
    = Some (Returns (Some Sample.exhausted)) /\
  now w + 2000 <= now (snd (PluginManager._enforceRateLimit "inspire" w)).
Proof.
  intros w. split; [reflexivity |]. split; [reflexivity |].
  destruct (exhausted_quota_waits "inspire" Sample.throttled Sample.exhausted
              w eq_refl eq_refl) as [H _].
  assert (Hrem : RateLimitStatus.remaining Sample.exhausted <= 0)
    by (simpl; lia).
  assert (Hne : 2 <> 0) by lia.
  assert (Hmax : 2 * 1000 <= 2147483647) by lia.
  destruct (H 2 Hrem eq_refl Hne Hmax) as [Hnow _].
  exact Hnow.
Defined.

(** X9.  The rate limiter of one plugin touches nothing but the record of
    that plugin's last request: the registry, the pointer, the events and
    the records of the other IDs are as before, and the clock never goes
    back.  It throws only when the plugin's [getRateLimitStatus] throws,
    and then nothing has changed. *)
Theorem rate_limiter_frame (pluginId : string) (w : World) :
  let r := PluginManager._enforceRateLimit pluginId w in
  let s := manager w in
  let s' := manager (snd r) in
  State.plugins s' = State.plugins s /\
  State.activePluginId s' = State.activePluginId s /\
  State.emitted s' = State.emitted s /\
  (forall k, k <> pluginId ->
     State.lastRequestTime s' !! k = State.lastRequestTime s !! k) /\
  now w <= now (snd r) /\
  (forall e, fst r = Throws e ->
     snd r = w /\
     exists plugin, PluginManager.get pluginId s = Some plugin /\
       SourcePlugin.getRateLimitStatus plugin = Some (Throws e)).
Proof.
  cbv zeta. unfold PluginManager._enforceRateLimit. eff.
  destruct (PluginManager.get pluginId (manager w)) as [plugin|] eqn:Eget;
    [| split_and!; first [done | lia]].
  destruct (SourcePlugin.getRateLimitStatus plugin) as [[[status|]|e]|]
    eqn:Estatus.
  - destruct (PluginManager.must_retry_later status); simpl; eff;
      destruct (PluginManager.below _ _); simpl; eff;
      (split_and!; try done; try lia;
       intros k Hne; by rewrite lookup_insert_ne).
  - split_and!; first [done | lia].
  - split_and!; try done; try lia.
    intros e' [= <-]. split; [done |]. eauto.
  - split_and!; first [done | lia].
Qed.

(** ** The PDF sources that the manager collects *)

Lemma collect_effect sourceId pdfPlugins : forall allSources w,
  fst (ManagerPdf.collect pdfPlugins sourceId allSources w)
    = Returns (allSources ++
               flat_map (ManagerPdf.contribution sourceId) pdfPlugins) /\
  manager (snd (ManagerPdf.collect pdfPlugins sourceId allSources w))
    = manager w.
Proof.
  induction pdfPlugins as [|p rest IH]; intros allSources w; simpl.
  - unfold Eff.ret. simpl. by rewrite app_nil_r.
  - unfold ManagerPdf.contribution, PluginManager.call.
    unfold Eff.bind, Eff.try_catch, Eff.await, Eff.ret, Eff.throw.
    destruct (SourcePlugin.getPdfSources p) as [f|]; cbn [fst snd].
    + destruct (f sourceId) as [sources|e]; cbn [fst snd].
      * destruct (IH (allSources ++ sources) (Eff.suspend 0 w)) as [H1 H2].
        rewrite H1, H2. by rewrite app_assoc.
      * destruct (IH allSources (Eff.suspend 0 w)) as [H1 H2].
        by rewrite H1, H2.
    + destruct (IH allSources w) as [H1 H2]. by rewrite H1, H2.
Qed.

Lemma getPdfSources_unfold source sourceId w :
  ManagerPdf.getPdfSources source sourceId w =
  match ManagerPdf.provider source (manager w) with
  | Some plugin =>
      PluginManager.call (SourcePlugin.getPdfSources plugin)
        "getPdfSources" sourceId w
  | None =>
      (pdfPlugins <- Eff.gets (PluginManager.list_ ManagerPdf.options);;
       ManagerPdf.collect pdfPlugins sourceId []) w
  end.
Proof.
  unfold ManagerPdf.getPdfSources, ManagerPdf.provider.
  unfold Eff.bind at 1. unfold Eff.gets at 1. cbn [fst snd].
  destruct source; try done.
  destruct (PluginManager.get s (manager w)) as [plugin|]; [| done].
  by destruct (SourcePlugin.capable plugin "pdfDownload").
Qed.

Lemma provider_known source s plugin :
  ManagerPdf.provider source s = Some plugin ->
  SourcePlugin.capable plugin "pdfDownload" = true /\
  exists k reg, source = JStr k /\
    JSMap.get k (State.plugins s) = Some reg /\
    PluginRegistration.plugin reg = plugin.
Proof.
  unfold ManagerPdf.provider, PluginManager.get.
  destruct source as [| | | |k|]; try discriminate.
  destruct (JSMap.get k (State.plugins s)) as [reg|] eqn:E; [| discriminate].
  destruct (SourcePlugin.capable _ "pdfDownload") eqn:Ecap; [| discriminate].
  intros [= <-]. split; [done |]. by exists k, reg.
Qed.

(** X10.  The manager's [getPdfSources] asks the plugin that provided the
    paper when that plugin is registered and declares the pdfDownload
    capability, enabled or not, and passes on its answer, a failure
    included, without trying another plugin.  Otherwise it concatenates
    the answers of the enabled plugins with that capability in
    registration order, leaving out the plugins that fail, and never
    throws.  The manager is unchanged either way: these calls are not
    rate limited. *)
Theorem manager_pdf_sources (source : JSVal) (sourceId : string) (w : World) :
  Reachable.all_valid (manager w) ->
  let r := ManagerPdf.getPdfSources source sourceId w in
  let pdfPlugins := PluginManager.list_ ManagerPdf.options (manager w) in
  manager (snd r) = manager w /\
  match ManagerPdf.provider source (manager w) with
  | Some plugin =>
      exists f, SourcePlugin.getPdfSources plugin = Some f /\
                fst r = f sourceId
  | None =>
      fst r = Returns (flat_map (ManagerPdf.contribution sourceId) pdfPlugins) /\
      forall x,
        x ∈ flat_map (ManagerPdf.contribution sourceId) pdfPlugins <->
        exists p f sources,
          p ∈ pdfPlugins /\ SourcePlugin.getPdfSources p = Some f /\
          f sourceId = Returns sources /\ x ∈ sources
  end.
Proof.
  intros Hv. cbv zeta. rewrite getPdfSources_unfold.
  destruct (ManagerPdf.provider source (manager w)) as [plugin|] eqn:Eprov.
  - apply provider_known in Eprov as (Hcap & k & reg & _ & Hget & <-).
    destruct (valid_backed _ (registered_valid _ _ _ Hv Hget))
      as (_ & _ & _ & Hpdf).
    destruct (Hpdf Hcap) as [f Hf]. rewrite Hf. simpl. eauto.
  - unfold Eff.bind, Eff.gets. cbn [fst snd].
    destruct (collect_effect sourceId
                (PluginManager.list_ ManagerPdf.options (manager w)) [] w)
      as [H1 H2].
    split; [done |]. split; [done |].
    intros x. rewrite !list_elem_of_In, in_flat_map. split.
    + intros (p & Hp & Hx). unfold ManagerPdf.contribution in Hx.
      destruct (SourcePlugin.getPdfSources p) as [f|] eqn:Ef; [| done].
      destruct (f sourceId) as [sources|e] eqn:Ea; [| done].
      exists p, f, sources. by rewrite !list_elem_of_In.
    + intros (p & f & sources & Hp & Hf & Ha & Hx).
      exists p. rewrite list_elem_of_In in Hp. split; [done |].
      unfold ManagerPdf.contribution. rewrite Hf, Ha.
      by apply list_elem_of_In.
Qed.

Lemma manager_pdf_sources_witness :
  let scans := Sample.pdf_plugin "scans" None (Returns [Sample.link]) in
  let broken := Sample.pdf_plugin "broken" None (Throws "offline") in
  let w := Sample.run [Registry.Register Sample.ads;
                       Registry.Register broken;
                       Registry.Register scans] in
  Reachable.all_valid (manager w) /\
  fst (ManagerPdf.getPdfSources (JStr "ads") "2024ApJ...961...12S" w)
    = Returns [Sample.link] /\
  fst (ManagerPdf.getPdfSources (JStr "broken") "2024ApJ...961...12S" w)
    = Throws "offline".
Proof.
  intros scans broken w.
  assert (Hv : Reachable.all_valid (manager w))
    by (apply perform_all_valid; constructor).
  split; [exact Hv |]. split.
  - destruct (manager_pdf_sources (JStr "ads") "2024ApJ...961...12S" w Hv)
      as [_ [H _]].
    exact H.
  - destruct (manager_pdf_sources (JStr "broken") "2024ApJ...961...12S" w Hv)
      as [_ (f & Hf & H)].
    injection Hf as <-. exact H.
Defined.

(** ** The start of the plugins *)

Lemma Forall_alter {V} (P : string * V -> Prop) (f : V -> V) k
    (m : JSMap.t V) :
  (forall k' v, P (k', v) -> P (k', f v)) ->
  Forall P m -> Forall P (JSMap.alter f k m).
Proof.
  intros Hf. induction 1 as [|[k' v] m Hkv Hm IH]; simpl; [done |].
  destruct (String.eqb k k'); constructor; auto.
Qed.

Lemma ids_match_alter b k s :
  Lifecycle.ids_match s ->
  Lifecycle.ids_match
    (State.set_plugins (JSMap.alter (PluginRegistration.set_enabled b) k) s).
Proof. unfold Lifecycle.ids_match. simpl. by apply Forall_alter. Qed.

Lemma initialize_one_plugins reg w :
  State.plugins (manager (snd (PluginManager.initialize_one reg w)))
  = Lifecycle.step reg (State.plugins (manager w)).
Proof.
  unfold PluginManager.initialize_one, Lifecycle.step,
    Lifecycle.fails_to_initialize.
  by destruct (SourcePlugin.initialize _) as [[[]|e]|].
Qed.

Lemma initialize_loop_plugins regs : forall w,
  State.plugins
    (manager (snd (PluginManager.for_each PluginManager.initialize_one regs w)))
  = fold_left (fun m reg => Lifecycle.step reg m) regs
      (State.plugins (manager w)).
Proof.
  induction regs as [|reg regs IH]; intros w; simpl; [done |].
  unfold Eff.bind.
  destruct (initialize_one_effect reg w) as (Hr & _).
  pose proof (initialize_one_plugins reg w) as Hp.
  destruct (PluginManager.initialize_one reg w) as [r w1].
  simpl in Hr, Hp. subst r. by rewrite IH, Hp.
Qed.

Lemma initialize_plugins w :
  State.plugins (manager (snd (PluginManager.initialize w)))
  = fold_left (fun m reg => Lifecycle.step reg m)
      (JSMap.values (State.plugins (manager w)))
      (State.plugins (manager w)).
Proof.
  unfold PluginManager.initialize. unfold Eff.bind at 1. unfold Eff.gets.
  cbn [fst snd]. unfold Eff.bind.
  pose proof (initialize_loop_plugins
                (JSMap.values (State.plugins (manager w))) w) as Hp.
  destruct (for_each_invariant PluginManager.initialize_one (fun _ => True)
              (JSMap.values (State.plugins (manager w)))) with (w := w)
    as [Hr _]; [| done |].
  { intros reg w1 _. destruct (initialize_one_effect reg w1) as (? & _).
    done. }
  destruct (PluginManager.for_each _ _ w) as [r w1].
  simpl in Hr, Hp. subst r. by rewrite <- Hp.
Qed.

(** The registration under a key after the start of the plugins in
    [regs]. *)
Lemma get_started regs : forall m k,
  JSMap.get k (fold_left (fun m reg => Lifecycle.step reg m) regs m)
  = (fun reg =>
       if existsb (fun r => String.eqb (PluginRegistration.id r) k &&
                            Lifecycle.fails_to_initialize
                              (PluginRegistration.plugin r)) regs
       then PluginRegistration.set_enabled false reg
       else reg) <$> JSMap.get k m.
Proof.
  induction regs as [|r regs IH]; intros m k; simpl.
  - by destruct (JSMap.get k m).
  - rewrite IH. unfold Lifecycle.step.
    destruct (Lifecycle.fails_to_initialize (PluginRegistration.plugin r));
      [| by rewrite andb_false_r].
    rewrite andb_true_r.
    destruct (String.eqb_spec (PluginRegistration.id r) k) as [->|Hne].
    + rewrite get_alter_eq. destruct (JSMap.get k m) as [reg|]; simpl; [| done].
      by destruct (existsb _ regs).
    + rewrite get_alter_ne by done. done.
Qed.

(** Among the registrations of a registry, the one with ID [k] is the one
    stored under [k]. *)
Lemma existsb_by_id (f : PluginRegistration.t -> bool) k
    (m : JSMap.t PluginRegistration.t) :
  Forall (fun kv => PluginRegistration.id (snd kv) = fst kv) m ->
  NoDup (JSMap.keys m) ->
  existsb (fun r => String.eqb (PluginRegistration.id r) k && f r)
          (JSMap.values m)
  = match JSMap.get k m with Some reg => f reg | None => false end.
Proof.
  unfold JSMap.keys, JSMap.values.
  induction m as [|[k' v] m IH]; simpl; [done |].
  intros [Hid Hm]%Forall_cons [Hfresh Hnd]%NoDup_cons. simpl in Hid.
  rewrite Hid, (String.eqb_sym k' k).
  destruct (String.eqb_spec k k') as [->|Hne]; simpl; [| by apply IH].
  destruct (f v); [done |]. simpl.
  rewrite IH by done.
  destruct (JSMap.get k' m) as [reg|] eqn:E; [| done].
  exfalso. apply Hfresh. apply get_in in E.
  apply list_elem_of_fmap. by exists (k', reg).
Qed.

(** X11.  [initialize] never throws and keeps the registrations, their
    order and the pointer.  A plugin whose [initialize] hook throws is
    disabled and stays registered; every other plugin keeps its flag.
    The pointer is not moved, also when the active plugin is the one that
    is disabled. *)
Theorem initialize_disables_failing (w : World) :
  Registry.keyed (manager w) -> Lifecycle.ids_match (manager w) ->
  let s := manager w in
  let s' := manager (snd (PluginManager.initialize w)) in
  fst (PluginManager.initialize w) = Returns tt /\
  State.activePluginId s' = State.activePluginId s /\
  JSMap.keys (State.plugins s') = JSMap.keys (State.plugins s) /\
  (forall k, JSMap.get k (State.plugins s')
             = Lifecycle.started <$> JSMap.get k (State.plugins s)) /\
  (forall k plugin, PluginManager.get k s = Some plugin ->
     PluginManager.get k s' = Some plugin /\
     After.is_enabled k s'
       = After.is_enabled k s && negb (Lifecycle.fails_to_initialize plugin)).
Proof.
  intros [Hk Hnd] Hids s s'.
  destruct (initialize_effect w) as (Hr & Hskel & Hact). fold s s' in Hskel, Hact.
  assert (Hget : forall k, JSMap.get k (State.plugins s')
             = Lifecycle.started <$> JSMap.get k (State.plugins s)).
  { intros k. subst s'. rewrite initialize_plugins, get_started.
    rewrite (existsb_by_id _ k _ Hids Hnd). fold s.
    destruct (JSMap.get k (State.plugins s)) as [reg|]; [| done].
    done. }
  split_and!; try done.
  - unfold JSMap.keys. apply (f_equal (map fst)) in Hskel.
    unfold Registry.skeleton in Hskel. by rewrite !map_map in Hskel.
  - intros k plugin Hp. unfold PluginManager.get, After.is_enabled in *.
    rewrite Hget. destruct (JSMap.get k (State.plugins s)) as [reg|];
      [| discriminate].
    injection Hp as <-. simpl. unfold Lifecycle.started.
    destruct (Lifecycle.fails_to_initialize (PluginRegistration.plugin reg));
      simpl; [by rewrite andb_false_r | by rewrite andb_true_r].
Qed.

Lemma ids_match_started regs : forall m,
  Forall (fun kv => PluginRegistration.id (snd kv) = fst kv) m ->
  Forall (fun kv => PluginRegistration.id (snd kv) = fst kv)
    (fold_left (fun m reg => Lifecycle.step reg m) regs m).
Proof.
  induction regs as [|r regs IH]; intros m Hm; simpl; [done |].
  apply IH. unfold Lifecycle.step.
  destruct (Lifecycle.fails_to_initialize _); [| done].
  by apply Forall_alter.
Qed.

Lemma perform_ids_match op w :
  Lifecycle.ids_match (manager w) ->
  Lifecycle.ids_match (manager (snd (Registry.perform op w))).
Proof.
  intros Hv. destruct op as [plugin|k|k|k|k| |]; simpl.
  - pose proof (register_effect plugin w) as H. cbv zeta in H.
    destruct (Types.valid plugin && negb (JSMap.has _ _)) eqn:E.
    + destruct H as (_ & Hp & _). unfold Lifecycle.ids_match. rewrite Hp.
      apply Forall_app. split; [done |]. by constructor.
    + destruct H as [e ->]. done.
  - pose proof (unregister_effect k w) as H. cbv zeta in H.
    destruct (JSMap.get k _); [| by rewrite H].
    destruct H as (_ & Hp & _). unfold Lifecycle.ids_match. rewrite Hp.
    by apply Forall_delete.
  - pose proof (setActive_effect k w) as H.
    destruct (JSMap.has k _); [| by rewrite H].
    destruct H as (_ & Hp & _). unfold Lifecycle.ids_match. by rewrite Hp.
  - pose proof (enable_effect k w) as H. cbv zeta in H.
    destruct (JSMap.has k _); [| by rewrite H].
    destruct H as (_ & Hp & _). unfold Lifecycle.ids_match. rewrite Hp.
    by apply Forall_alter.
  - pose proof (disable_effect k w) as H. cbv zeta in H.
    destruct (JSMap.has k _); [| by rewrite H].
    destruct H as (_ & Hp & _). unfold Lifecycle.ids_match. rewrite Hp.
    by apply Forall_alter.
  - unfold Lifecycle.ids_match. rewrite initialize_plugins.
    by apply ids_match_started.
  - destruct (shutdown_effect w) as (_ & Hp & _).
    unfold Lifecycle.ids_match. rewrite Hp. constructor.
Qed.

Lemma perform_all_ids_match ops : forall w,
  Lifecycle.ids_match (manager w) ->
  Lifecycle.ids_match (manager (snd (Registry.perform_all ops w))).
Proof.
  induction ops as [|op ops IH]; intros w Hv; simpl; [done |].
  unfold Eff.bind, Eff.try_catch.
  pose proof (perform_ids_match op w Hv) as H.
  destruct (Registry.perform op w) as [[[]|e] w1]; simpl in *; by apply IH.
Qed.

Lemma initialize_disables_failing_witness :
  let scans := Sample.pdf_plugin "scans" (Some (Throws "offline"))
                 (Returns [Sample.link]) in
  let w := Sample.run [Registry.Register scans;
                       Registry.Register Sample.ads] in
  let s' := manager (snd (PluginManager.initialize w)) in
  Registry.keyed (manager w) /\ Lifecycle.ids_match (manager w) /\
  State.activePluginId s' = Some "scans" /\
  After.is_enabled "scans" s' = false /\
  After.is_enabled "ads" s' = true.
Proof.
  intros scans w s'. subst s'.
  assert (Hk : Registry.keyed (manager w))
    by apply perform_all_invariant, constructor_invariant.
  assert (Hids : Lifecycle.ids_match (manager w))
    by (apply perform_all_ids_match; constructor).
  split; [exact Hk |]. split; [exact Hids |].
  destruct (initialize_disables_failing w Hk Hids) as (_ & Hact & _ & _ & Hen).
  split; [rewrite Hact; reflexivity |].
  destruct (Hen "scans" scans eq_refl) as [_ H1].
  destruct (Hen "ads" Sample.ads eq_refl) as [_ H2].
  split; [rewrite H1; reflexivity | rewrite H2; reflexivity].
Defined.

(** ** Registering and unregistering *)

Lemma delete_append_fresh {V} k (v : V) (m : JSMap.t V) :
  JSMap.has k m = false -> JSMap.delete k (m ++ [(k, v)]) = m.
Proof.
  unfold JSMap.has. induction m as [|[k' v'] m IH]; simpl.
  - by rewrite String.eqb_refl.
  - destruct (String.eqb k k'); [discriminate |]. intros H. by rewrite IH.
Qed.

(** X12.  Registering a plugin and unregistering it again gives back the
    registry, in its order, and the records of the rate limiter.  The
    pointer is as before when a plugin was active; a manager without
    active plugin ends with its first registered plugin active, enabled
    or not. *)
Theorem register_unregister_round_trip (plugin : SourcePlugin.t) (w : World) :
  Registry.invariant (manager w) ->
  Types.valid plugin = true ->
  ~ Registry.registered (SourcePlugin.id plugin) (manager w) ->
  let call := PluginManager.register plugin;;;
              PluginManager.unregister (SourcePlugin.id plugin) in
  let s := manager w in
  let s' := manager (snd (call w)) in
  fst (call w) = Returns tt /\
  State.plugins s' = State.plugins s /\
  State.lastRequestTime s' = State.lastRequestTime s /\
  State.activePluginId s'
    = match State.activePluginId s with
      | Some a => Some a
      | None => PluginManager.first_id (PluginManager.list_ ListOptions.none s)
      end.
Proof.
  intros [Hk Ha] Hvalid Hfresh call s s'.
  apply not_true_is_false in Hfresh. unfold Registry.registered in Hfresh.
  pose proof (register_effect plugin w) as Hr. cbv zeta in Hr.
  rewrite Hvalid, Hfresh in Hr. simpl in Hr.
  destruct Hr as (Hr1 & Hp1 & Hact1 & Hlast1 & _).
  subst s' call s. unfold Eff.bind.
  destruct (PluginManager.register plugin w) as [r1 w1].
  cbn [fst snd] in *. subst r1.
  pose proof (unregister_effect (SourcePlugin.id plugin) w1) as Hu.
  cbv zeta in Hu. rewrite Hp1, get_append in Hu.
  apply has_get_none in Hfresh. rewrite Hfresh, String.eqb_refl in Hu.
  apply has_get_none in Hfresh.
  destruct Hu as (Hr2 & Hp2 & Hact2 & Hlast2).
  rewrite delete_append_fresh in Hp2, Hact2 by done.
  split_and!; [done | done | congruence |].
  rewrite Hact2. unfold PluginManager.is_active. rewrite Hact1.
  unfold Registry.active_ok, Registry.registered in Ha.
  destruct (State.activePluginId (manager w)) as [a|]; simpl.
  - destruct (String.eqb_spec a (SourcePlugin.id plugin)) as [->|]; [| done].
    congruence.
  - by rewrite String.eqb_refl, list_none.
Qed.

Lemma register_unregister_round_trip_witness :
  let w := Sample.run [Registry.Register Sample.ads;
                       Registry.Disable "ads"] in
  let w' := snd ((PluginManager.register Sample.arxiv;;;
                  PluginManager.unregister "arxiv") w) in
  Registry.invariant (manager w) /\
  Types.valid Sample.arxiv = true /\
  ~ Registry.registered "arxiv" (manager w) /\
  State.activePluginId (manager w) = None /\
  State.plugins (manager w') = State.plugins (manager w) /\
  State.activePluginId (manager w') = Some "ads".
Proof.
  intros w w'. subst w'.
  assert (Hinv : Registry.invariant (manager w))
    by apply perform_all_invariant, constructor_invariant.
  assert (Hvalid : Types.valid Sample.arxiv = true) by reflexivity.
  assert (Hfresh : ~ Registry.registered "arxiv" (manager w)) by discriminate.
  split; [exact Hinv |]. split; [exact Hvalid |]. split; [exact Hfresh |].
  split; [reflexivity |].
  destruct (register_unregister_round_trip Sample.arxiv w Hinv Hvalid Hfresh)
    as (_ & Hp & _ & Hact).
  split; [exact Hp | etransitivity; [exact Hact | reflexivity]].
Defined.

(** ** After shutdown *)

(** X13.  [shutdown] never throws, whatever the hooks of the plugins do.
    It leaves a manager without plugins and without active plugin, which
    keeps the records of the rate limiter: then [search] throws, [lookup]
    finds nothing, a federated search gives two empty maps, and a plugin
    that is registered next becomes the active one. *)
Theorem shutdown_empties_manager (w : World) :
  let w' := snd (PluginManager.shutdown w) in
  fst (PluginManager.shutdown w) = Returns tt /\
  State.plugins (manager w') = [] /\
  State.activePluginId (manager w') = None /\
  State.lastRequestTime (manager w') = State.lastRequestTime (manager w) /\
  State.emitted (manager w') = State.emitted (manager w) ++ [ShutDown] /\
  (forall query,
     PluginManager.search query w' = (Throws "No active plugin", w')) /\
  (forall identifier,
     PluginManager.lookup identifier w' = (Returns None, w')) /\
  (forall query completion,
     completion [] = [] ->
     PluginManager.federatedSearch query completion w'
       = (Returns (JSMap.empty, JSMap.empty), w')) /\
  (forall plugin,
     Types.valid plugin = true ->
     fst (PluginManager.register plugin w') = Returns tt /\
     State.activePluginId (manager (snd (PluginManager.register plugin w')))
       = Some (SourcePlugin.id plugin)).
Proof.
  cbv zeta.
  assert (H : fst (PluginManager.shutdown w) = Returns tt /\
              manager (snd (PluginManager.shutdown w))
              = State.emit ShutDown
                  (State.set_active None
                     (State.set_plugins (fun _ => JSMap.empty) (manager w)))).
  { unfold PluginManager.shutdown. eff.
    destruct (for_each_invariant
      (fun reg => PluginManager.call_quietly
         (SourcePlugin.shutdown (PluginRegistration.plugin reg)))
      (fun w1 => manager w1 = manager w)
      (JSMap.values (State.plugins (manager w)))) with (w := w)
      as [Hr Hm]; [| done |].
    { intros reg w1 Hw1. destruct (call_quietly_effect
        (SourcePlugin.shutdown (PluginRegistration.plugin reg)) w1) as [? ?].
      split; [done | congruence]. }
    destruct (PluginManager.for_each _ _ w) as [r w1].
    simpl in Hr, Hm. subst r. eff. by rewrite Hm. }
  destruct H as [Hr Hm].
  set (w' := snd (PluginManager.shutdown w)) in *.
  split_and!; try (by rewrite Hm).
  - done.
  - intros query. rewrite search_unfold.
    unfold PluginManager.getActive. by rewrite Hm.
  - intros identifier. unfold PluginManager.lookup.
    unfold Eff.bind, Eff.gets, PluginManager.list_, PluginManager.getActive.
    cbn [fst snd]. by rewrite Hm.
  - intros query completion Hc. unfold PluginManager.federatedSearch.
    unfold Eff.bind, Eff.gets, PluginManager.list_. cbn [fst snd].
    rewrite Hm. simpl. by rewrite Hc.
  - intros plugin Hvalid.
    pose proof (register_effect plugin w') as H. cbv zeta in H.
    rewrite Hvalid, Hm in H. simpl in H.
    destruct H as (H1 & _ & H2 & _). done.
Qed.

Lemma shutdown_empties_manager_witness :
  let w := Sample.run [Registry.Register Sample.ads] in
  let w' := snd (PluginManager.shutdown w) in
  State.plugins (manager w') = [] /\
  PluginManager.federatedSearch Example.query (fun l => l) w'
    = (Returns (JSMap.empty, JSMap.empty), w') /\
  State.activePluginId (manager (snd (PluginManager.register Sample.arxiv w')))
    = Some "arxiv".
Proof.
  intros w w'. subst w'.
  destruct (shutdown_empties_manager w)
    as (_ & Hp & _ & _ & _ & _ & _ & Hf & Hreg).
  split; [exact Hp |].
  split; [exact (Hf Example.query (fun l => l) eq_refl) |].
  destruct (Hreg Sample.arxiv eq_refl) as [_ H]. exact H.
Defined.

(** ** createPaper: the properties of the data win *)

(** X14.  In the paper that [createPaper] returns, every own property of
    [data] has the value that [data] gives it, [source] and [sourceId]
    included: the two arguments are defaults, as are the title
    ["Untitled"] and the empty list of authors, for the properties that
    [data] lacks.  The paper has no other property.  Hence [createPaper]
    on a paper that it has returned, with whatever source, gives that
    paper back. *)
Theorem createPaper_data_wins (data : gmap string JSVal)
    (source sourceId : JSVal) :
  let paper := Types.createPaper data source sourceId in
  (forall k v, data !! k = Some v -> paper !! k = Some v) /\
  (forall k, data !! k = None ->
     paper !! k =
       if String.eqb k "title" then Some (JStr "Untitled")
       else if String.eqb k "authors" then Some (JArr [])
       else if String.eqb k "source" then Some source
       else if String.eqb k "sourceId" then Some sourceId
       else None) /\
  (forall source' sourceId',
     Types.createPaper paper source' sourceId' = paper).
Proof.
  intros paper.
  assert (Hown : forall k v, data !! k = Some v -> paper !! k = Some v).
  { intros k v H. by apply lookup_union_Some_l. }
  assert (Hdef : forall k, data !! k = None ->
     paper !! k =
       if String.eqb k "title" then Some (JStr "Untitled")
       else if String.eqb k "authors" then Some (JArr [])
       else if String.eqb k "source" then Some source
       else if String.eqb k "sourceId" then Some sourceId
       else None).
  { intros k H. subst paper. unfold Types.createPaper.
    rewrite lookup_union_r by done.
    destruct (String.eqb_spec k "title") as [->|H1].
    { rewrite !lookup_insert_ne by done. rewrite lookup_insert_eq.
      unfold JS.prop. by rewrite H. }
    destruct (String.eqb_spec k "authors") as [->|H2].
    { rewrite !lookup_insert_ne by done. rewrite lookup_insert_eq.
      unfold JS.prop. by rewrite H. }
    destruct (String.eqb_spec k "source") as [->|H3].
    { rewrite !lookup_insert_ne by done. by rewrite lookup_insert_eq. }
    destruct (String.eqb_spec k "sourceId") as [->|H4].
    { by rewrite lookup_insert_eq. }
    by rewrite !lookup_insert_ne by done. }
  split; [exact Hown |]. split; [exact Hdef |].
  intros source' sourceId'. unfold Types.createPaper at 1.
  apply map_eq. intros k.
  destruct (paper !! k) as [v|] eqn:E.
  - by apply lookup_union_Some_l.
  - rewrite lookup_union_r by done.
    destruct (data !! k) as [v|] eqn:Ed.
    { rewrite (Hown _ _ Ed) in E. discriminate. }
    rewrite (Hdef _ Ed) in E.
    destruct (String.eqb_spec k "title"); [discriminate |].
    destruct (String.eqb_spec k "authors"); [discriminate |].
    destruct (String.eqb_spec k "source"); [discriminate |].
    destruct (String.eqb_spec k "sourceId"); [discriminate |].
    by rewrite !lookup_insert_ne by done.
Qed.

(** ** File names of PDFs *)

Lemma append_cons c a b : String c a +:+ b = String c (a +:+ b).
Proof. reflexivity. Qed.

Lemma chars_append a b :
  JSString.chars (a +:+ b) = JSString.chars a ++ JSString.chars b.
Proof.
  induction a as [|c a IH]; [done |].
  rewrite append_cons. simpl. by rewrite IH.
Qed.

Lemma of_chars_nil_inv l : JSString.of_chars l = EmptyString -> l = [].
Proof. by destruct l. Qed.

Lemma truthy_nonempty s : JSString.truthy s = true <-> s <> EmptyString.
Proof.
  unfold JSString.truthy. rewrite negb_true_iff.
  destruct (String.eqb_spec s EmptyString); split; congruence.
Qed.

Lemma sanitize_char_safe c :
  RegExp.in_class PaperUtils.safe (PaperUtils.sanitize_char c) = true.
Proof.
  unfold PaperUtils.sanitize_char.
  destruct (RegExp.in_class PaperUtils.safe c) eqn:E; [done | reflexivity].
Qed.

Lemma sanitize_char_id c :
  RegExp.in_class PaperUtils.safe c = true -> PaperUtils.sanitize_char c = c.
Proof. unfold PaperUtils.sanitize_char. by intros ->. Qed.

(** X15.  The name that [sanitizeBibcodeForFilename] returns is never
    empty and is made of letters, digits, dots, underscores and hyphens
    only.  It has the length of the bibcode, differs from it only where
    the bibcode has another character, and equals it when there is none;
    a missing or empty bibcode gives ["unknown"].  Sanitizing a name again
    changes nothing. *)
Theorem sanitized_bibcode_is_safe (bibcode : option string) :
  let name := PaperUtils.sanitizeBibcodeForFilename bibcode in
  name <> EmptyString /\
  Forall (fun c => RegExp.in_class PaperUtils.safe c = true)
         (JSString.chars name) /\
  (JS.truthy_str bibcode = false -> name = "unknown") /\
  (forall b, bibcode = Some b -> b <> EmptyString ->
     String.length name = String.length b /\
     (forall i c, JSString.chars b !! i = Some c ->
        JSString.chars name !! i
          = Some (if RegExp.in_class PaperUtils.safe c then c
                  else "_"%char)) /\
     (Forall (fun c => RegExp.in_class PaperUtils.safe c = true)
             (JSString.chars b) -> name = b)) /\
  PaperUtils.sanitizeBibcodeForFilename (Some name) = name.
Proof.
  intros name.
  assert (Hsafe : Forall (fun c => RegExp.in_class PaperUtils.safe c = true)
                    (JSString.chars name)).
  { subst name. unfold PaperUtils.sanitizeBibcodeForFilename.
    destruct (JS.truthy_str bibcode).
    - rewrite chars_of_chars. apply Forall_forall.
      intros c (c0 & -> & _)%list_elem_of_fmap. apply sanitize_char_safe.
    - repeat constructor. }
  assert (Hne : name <> EmptyString).
  { subst name. unfold PaperUtils.sanitizeBibcodeForFilename.
    destruct bibcode as [b|]; simpl; [| done].
    destruct (JSString.truthy b) eqn:E; [| done].
    apply truthy_nonempty in E. intros H%of_chars_nil_inv.
    apply fmap_nil_inv in H. apply E.
    rewrite <- (of_chars_chars b). unfold id in H. by rewrite H. }
  assert (Hid : forall l,
            Forall (fun c => RegExp.in_class PaperUtils.safe c = true) l ->
            map PaperUtils.sanitize_char l = l).
  { induction 1 as [|c l Hc Hl IH]; simpl; [done |].
    by rewrite sanitize_char_id, IH. }
  split_and!; try done.
  - subst name. unfold PaperUtils.sanitizeBibcodeForFilename. by intros ->.
  - intros b -> Hb. subst name. unfold PaperUtils.sanitizeBibcodeForFilename.
    apply truthy_nonempty in Hb. simpl. rewrite Hb. unfold id. split_and!.
    + by rewrite <- !length_chars, chars_of_chars, length_map.
    + intros i c Hi. rewrite chars_of_chars, list_lookup_fmap, Hi. done.
    + intros Hall. rewrite (Hid _ Hall). apply of_chars_chars.
  - unfold PaperUtils.sanitizeBibcodeForFilename at 1. simpl.
    apply truthy_nonempty in Hne. rewrite Hne. unfold id.
    rewrite (Hid _ Hsafe). apply of_chars_chars.
Qed.

Lemma no_overlap_tail m b :
  Substring.no_overlap m b = true ->
  Substring.no_overlap (Substring.tail m) b = true.
Proof. destruct m as [|c m]; simpl; [done |]. by intros [_ ?]%andb_true_iff. Qed.

Lemma prefix_nil_r m : String.prefix m EmptyString = true -> m = EmptyString.
Proof. by destruct m. Qed.

Lemma prefix_empty b : String.prefix EmptyString b = true.
Proof. by destruct b. Qed.

Lemma append_nil b : EmptyString +:+ b = b.
Proof. reflexivity. Qed.

(** A needle that starts in a nonempty first part and has no overlap with
    the second part lies in the first part. *)
Lemma prefix_append b : forall a m,
  a <> EmptyString ->
  Substring.no_overlap (Substring.tail m) b = true ->
  String.prefix m (a +:+ b) = String.prefix m a.
Proof.
  induction a as [|c a IH]; intros m Ha Hm; [done |].
  destruct m as [|x m]; [done |].
  rewrite append_cons. simpl. destruct (ascii_dec x c); [| done].
  simpl in Hm. destruct a as [|c' a].
  - rewrite append_nil. destruct m as [|y m]; [by rewrite prefix_empty |].
    simpl in Hm. apply andb_true_iff in Hm as [Hm _].
    apply negb_true_iff in Hm. simpl. exact Hm.
  - apply IH; [done | by apply no_overlap_tail].
Qed.

Lemma includes_append a b m :
  m <> EmptyString ->
  Substring.no_overlap (Substring.tail m) b = true ->
  JSString.includes (a +:+ b) m
  = JSString.includes a m || JSString.includes b m.
Proof.
  intros Hm Hfree. induction a as [|c a IH].
  - rewrite append_nil. simpl. destruct m; [done |]. done.
  - rewrite append_cons.
    change (JSString.includes (String c (a +:+ b)) m)
      with (String.prefix m (String c (a +:+ b)) ||
            JSString.includes (a +:+ b) m).
    change (JSString.includes (String c a) m)
      with (String.prefix m (String c a) || JSString.includes a m).
    rewrite <- append_cons, prefix_append by done.
    by rewrite IH, orb_assoc.
Qed.

(** X16.  [getSourceTypeFromFilename] reads back the source type that
    [generatePdfFilename] wrote, except when the sanitized bibcode itself
    holds the marker of a source type that is looked for earlier: an
    EPRINT_PDF name is always read back; a PUB_PDF name unless the
    bibcode part holds [_EPRINT_PDF]; an ADS_PDF name unless it holds
    [_EPRINT_PDF] or [_PUB_PDF]. *)
Theorem pdf_filename_round_trip (bibcode : option string) :
  let safe := PaperUtils.sanitizeBibcodeForFilename bibcode in
  let read sourceType :=
    PaperUtils.getSourceTypeFromFilename
      (Some (PaperUtils.generatePdfFilename bibcode sourceType)) in
  read "EPRINT_PDF" = Some "EPRINT_PDF" /\
  read "PUB_PDF" = (if JSString.includes safe "_EPRINT_PDF"
                    then Some "EPRINT_PDF" else Some "PUB_PDF") /\
  read "ADS_PDF" = (if JSString.includes safe "_EPRINT_PDF"
                    then Some "EPRINT_PDF"
                    else if JSString.includes safe "_PUB_PDF"
                    then Some "PUB_PDF" else Some "ADS_PDF").
Proof.
  intros safe read. subst read.
  unfold PaperUtils.getSourceTypeFromFilename, PaperUtils.generatePdfFilename.
  fold safe.
  assert (Htruthy : forall rest, JSString.truthy (safe +:+ "_" +:+ rest) = true).
  { intros rest. apply truthy_nonempty. by destruct safe. }
  cbn [JS.truthy_str default from_option]. unfold id.
  rewrite !Htruthy. cbn [negb].
  rewrite !(includes_append safe) by done.
  cbn. rewrite !orb_true_r, !orb_false_r.
  split_and!; [done | done |].
  destruct (JSString.includes safe "_EPRINT_PDF"); [done |].
  by destruct (JSString.includes safe "_PUB_PDF").
Qed.

(** ** extractArxivId *)

Lemma run_at_end r s :
  RegExp.run r s RegExp.at_end = true <-> RegExp.lang r s.
Proof.
  rewrite run_spec. split.
  - intros (w1 & w2 & -> & H & Hk). destruct w2; [| discriminate].
    by rewrite app_nil_r.
  - intros H. exists s, []. by rewrite app_nil_r.
Qed.

(** The group found is a split of the input between the two patterns. *)
Lemma first_group_sound r1 r2 : forall rest pre g,
  PaperUtils.first_group r1 r2 pre rest = Some g ->
  exists p q, rest = p ++ q /\ g = pre ++ p /\
              RegExp.lang r1 g /\ RegExp.lang r2 q.
Proof.
  induction rest as [|c rest IH]; intros pre g; simpl.
  - destruct (RegExp.run r1 pre _ && _) eqn:E; [| discriminate].
    intros [= <-]. apply andb_true_iff in E as [H1%run_at_end H2%run_at_end].
    exists [], []. by rewrite !app_nil_r.
  - destruct (PaperUtils.first_group r1 r2 (pre ++ [c]) rest) as [g'|] eqn:E.
    + intros [= <-]. apply IH in E as (p & q & -> & -> & H1 & H2).
      exists (c :: p), q.
      split_and!; [done | by rewrite <- app_assoc | done | done].
    + destruct (RegExp.run r1 pre _ && _) eqn:E'; [| discriminate].
      intros [= <-].
      apply andb_true_iff in E' as [H1%run_at_end H2%run_at_end].
      exists [], (c :: rest). by rewrite !app_nil_r.
Qed.

(** A group is found whenever the input has a split. *)
Lemma first_group_complete r1 r2 : forall rest pre p q,
  rest = p ++ q -> RegExp.lang r1 (pre ++ p) -> RegExp.lang r2 q ->
  is_Some (PaperUtils.first_group r1 r2 pre rest).
Proof.
  induction rest as [|c rest IH]; intros pre p q Hrest H1 H2; simpl.
  - symmetry in Hrest. apply app_eq_nil in Hrest as [-> ->].
    rewrite app_nil_r in H1.
    apply run_at_end in H1, H2. by rewrite H1, H2.
  - destruct (PaperUtils.first_group r1 r2 (pre ++ [c]) rest) eqn:E; [done |].
    destruct p as [|c' p].
    + simpl in Hrest. subst q. rewrite app_nil_r in H1.
      apply run_at_end in H1, H2. by rewrite H1, H2.
    + injection Hrest as <- ->.
      destruct (IH (pre ++ [c]) p q eq_refl) as [g Hg]; [| done |].
      * by rewrite <- app_assoc.
      * congruence.
Qed.

Lemma lang_re_number w :
  RegExp.lang PaperUtils.re_number w <-> ArxivId.number w.
Proof.
  unfold PaperUtils.re_number, ArxivId.number. rewrite lang_seq. split.
  - intros (yymm & w1 & -> & H1 & H2).
    apply (lang_rep Shape.digit) in H1 as (Hy & Hlo & Hhi);
      [| apply class_digit].
    apply lang_seq in H2 as (dot & n & -> & ->%lang_chr & H3).
    apply (lang_rep Shape.digit) in H3 as (Hn & Hnlo & Hnhi);
      [| apply class_digit].
    simpl in Hhi, Hnhi. exists yymm, n. split_and!; try done; lia.
  - intros (yymm & n & -> & Hy & Hylen & Hn & Hnlen).
    exists yymm, ("."%char :: n). split; [done |]. split.
    + apply (lang_rep Shape.digit); [apply class_digit |].
      simpl. split_and!; [done | lia | lia].
    + apply lang_seq. exists ["."%char], n. split; [done |].
      split; [by apply lang_chr |].
      apply (lang_rep Shape.digit); [apply class_digit |].
      simpl. split_and!; [done | lia | lia].
Qed.

Lemma number_numeric w : ArxivId.number w -> Forall ArxivId.numeric w.
Proof.
  intros (yymm & n & -> & Hy & _ & Hn & _).
  apply Forall_app. split.
  - eapply Forall_impl; [exact Hy |]. intros c ?. by left.
  - constructor; [by right |].
    eapply Forall_impl; [exact Hn |]. intros c ?. by left.
Qed.

Lemma v_not_numeric : ~ ArxivId.numeric "v".
Proof.
  intros [H | H]; [| discriminate].
  unfold Shape.digit in H. change (JSString.code "v") with 118%N in H. lia.
Qed.

(** A word splits in one way only into numeric characters and a
    version. *)
Lemma number_version_unique : forall n1 n2 v1 v2,
  n1 ++ v1 = n2 ++ v2 ->
  Forall ArxivId.numeric n1 -> Forall ArxivId.numeric n2 ->
  Shape.version v1 -> Shape.version v2 -> n1 = n2.
Proof.
  assert (Hstart : forall c v l,
    ArxivId.numeric c -> Shape.version v -> v = c :: l -> False).
  { intros c v l Hc [-> | (m & -> & _)] [=]. subst. by apply v_not_numeric. }
  induction n1 as [|c n1 IH]; intros n2 v1 v2 Heq H1 H2 Hv1 Hv2.
  - destruct n2 as [|c n2]; [done |]. simpl in Heq.
    apply Forall_cons in H2 as [Hc _]. exfalso. eauto.
  - destruct n2 as [|c' n2].
    + simpl in Heq. apply Forall_cons in H1 as [Hc _]. exfalso.
      symmetry in Heq. eauto.
    + injection Heq as <- Heq.
      apply Forall_cons in H1 as [_ H1]. apply Forall_cons in H2 as [_ H2].
      f_equal. by apply (IH n2 v1 v2).
Qed.

Lemma first_group_number id :
  match PaperUtils.first_group PaperUtils.re_number PaperUtils.re_version []
          (JSString.chars id) with
  | Some g =>
      ArxivId.number g /\
      exists v, Shape.version v /\ JSString.chars id = g ++ v
  | None => ~ Shape.arxiv_new (JSString.chars id)
  end.
Proof.
  destruct (PaperUtils.first_group _ _ _ _) as [g|] eqn:E.
  - apply first_group_sound in E as (p & q & Hid & -> & H1 & H2).
    simpl in *. apply lang_re_number in H1. apply lang_version in H2.
    split; [done |]. by exists q.
  - intros (yymm & n & v & Hid & Hy & Hylen & Hn & Hnlen & Hv).
    destruct (first_group_complete PaperUtils.re_number PaperUtils.re_version
                (JSString.chars id) [] (yymm ++ "."%char :: n) v) as [g Hg].
    + rewrite Hid. by rewrite <- app_assoc.
    + apply lang_re_number. by exists yymm, n.
    + by apply lang_version.
    + congruence.
Qed.

Lemma startsWith_append prefix s :
  JSString.startsWith (prefix +:+ s) prefix = true.
Proof.
  unfold JSString.startsWith. induction prefix as [|c p IH].
  - apply prefix_empty.
  - rewrite append_cons. simpl. by destruct (ascii_dec c c).
Qed.

Lemma startsWith_inv prefix : forall s,
  JSString.startsWith s prefix = true ->
  s = prefix +:+ JSString.of_chars
                   (drop (String.length prefix) (JSString.chars s)).
Proof.
  unfold JSString.startsWith. induction prefix as [|c p IH]; intros s H.
  - rewrite append_nil. cbn [String.length drop].
    symmetry. apply of_chars_chars.
  - destruct s as [|c' s]; [discriminate |]. simpl in H.
    destruct (ascii_dec c c') as [<-|]; [| discriminate].
    rewrite append_cons. f_equal. by apply IH.
Qed.

Lemma drop_prefix prefix s :
  JSString.of_chars (drop (String.length prefix)
                       (JSString.chars (prefix +:+ s))) = s.
Proof.
  rewrite chars_append, <- length_chars, drop_app_length.
  apply of_chars_chars.
Qed.

(** What [extractArxivId] makes of the first identifier. *)
Lemma extract_cons id rest :
  (forall r, ArxivId.recognised id r ->
     PaperUtils.extract (id :: rest) = Some r) /\
  (ArxivId.unrecognised id ->
     PaperUtils.extract (id :: rest) = PaperUtils.extract rest) /\
  ((exists r, ArxivId.recognised id r) \/ ArxivId.unrecognised id).
Proof.
  simpl. pose proof (first_group_number id) as Hg.
  destruct (JSString.startsWith id "arXiv:") eqn:Es.
  - pose proof (startsWith_inv _ _ Es) as Hid. split_and!.
    + intros r [-> | (Hs & _)]; [| congruence].
      by rewrite (drop_prefix "arXiv:").
    + intros [? _]. congruence.
    + left. eexists. left. exact Hid.
  - destruct (PaperUtils.first_group _ _ _ _) as [g|].
    + destruct Hg as (Hnum & v & Hv & Hid). split_and!.
      * intros r [-> | (_ & Hr & v' & Hv' & Hid')].
        { by rewrite startsWith_append in Es. }
        f_equal. rewrite <- (of_chars_chars r). f_equal.
        rewrite Hid in Hid'.
        apply (number_version_unique _ _ _ _ Hid');
          auto using number_numeric.
      * intros [_ Hno]. exfalso. apply Hno.
        destruct Hnum as (yymm & n & -> & ? & ? & ? & ?).
        exists yymm, n, v. rewrite Hid. by rewrite <- app_assoc.
      * left. exists (JSString.of_chars g). right.
        rewrite chars_of_chars. eauto.
    + split_and!.
      * intros r [-> | (_ & Hr & v' & Hv' & Hid')].
        { by rewrite startsWith_append in Es. }
        exfalso. apply Hg.
        destruct Hr as (yymm & n & Hr & ? & ? & ? & ?).
        exists yymm, n, v'. rewrite Hid', Hr. by rewrite <- app_assoc.
      * done.
      * by right.
Qed.

(** X17.  [extractArxivId] answers for the first identifier that it
    recognises, in the order of the list: for one that starts with
    [arXiv:], all that follows the prefix, a version included; for one
    that is a number [YYMM.NNNNN] with an optional version, the number
    without the version.  It answers [null] exactly when it recognises
    no identifier, and for a list that is [null]. *)
Theorem extractArxivId_first_recognised (identifiers : list string) :
  PaperUtils.extractArxivId None = None /\
  (forall r,
     PaperUtils.extractArxivId (Some identifiers) = Some r <->
     exists before id after,
       identifiers = before ++ id :: after /\
       Forall ArxivId.unrecognised before /\ ArxivId.recognised id r) /\
  (PaperUtils.extractArxivId (Some identifiers) = None <->
   Forall ArxivId.unrecognised identifiers).
Proof.
  split; [done |]. simpl.
  induction identifiers as [|id rest [IH1 IH2]].
  - split.
    + intros r. split; [discriminate |].
      intros (before & id & after & H & _). by destruct before.
    + split; [constructor | done].
  - destruct (extract_cons id rest) as (Hrec & Hun & Hcase). split.
    + intros r. split.
      * destruct Hcase as [[r' Hr'] | Hno].
        { rewrite (Hrec _ Hr'). intros [= <-].
          exists [], id, rest. split; [done |]. split; [constructor | done]. }
        rewrite (Hun Hno). intros (before & id' & after & -> & Hb & Hr)%IH1.
        exists (id :: before), id', after. split; [done |].
        split; [by constructor | done].
      * intros (before & id' & after & Heq & Hb & Hr).
        destruct before as [|b before]; simpl in Heq.
        { injection Heq as <- <-. by apply Hrec. }
        injection Heq as <- ->. apply Forall_cons in Hb as [Hb Hbefore].
        rewrite (Hun Hb). apply IH1. eauto 6.
    + split.
      * destruct Hcase as [[r' Hr'] | Hno].
        { rewrite (Hrec _ Hr'). discriminate. }
        rewrite (Hun Hno). intros H%IH2. by constructor.
      * intros [Hno Hrest]%Forall_cons. rewrite (Hun Hno). by apply IH2.
Qed.

(** ** From the identifiers of a record to the arXiv PDF *)

Lemma esources_with_id esources bibcode arxivId :
  existsb PdfSpec.arxiv_link esources = false ->
  arxivId <> EmptyString ->
  let links := AdsPlugin.esourcesToPdfSources esources bibcode None in
  AdsPlugin.esourcesToPdfSources esources bibcode (Some arxivId)
  = links ++ [PdfSpec.constructed (AdsPlugin.cleanId arxivId)
                (Z.of_nat (length links))].
Proof.
  intros H Hid links. subst links. rewrite esources_without_id.
  pose proof (fold_esources_arxiv esources [] 0) as Harxiv.
  pose proof (fold_esources_priority esources [] 0 eq_refl) as Hprio.
  unfold AdsPlugin.esourcesToPdfSources.
  destruct (fold_left _ _ _) as [sources priority].
  simpl in Harxiv, Hprio.
  assert (JS.truthy_str (Some arxivId) = true) as ->.
  { simpl. unfold JSString.truthy. by destruct arxivId. }
  rewrite Harxiv, H. simpl negb. cbn [andb fst default from_option]. unfold id.
  unfold PdfSpec.constructed, AdsPlugin.mk. by rewrite Hprio.
Qed.

Lemma number_plain w :
  ArxivId.number w ->
  (":"%char ∉ w) /\ ~ PdfSpec.has_version w /\ w <> [].
Proof.
  intros Hnum. pose proof (number_numeric _ Hnum) as Hall.
  rewrite Forall_forall in Hall. split_and!.
  - intros [H | H]%Hall; [by apply colon_not_digit | discriminate].
  - intros (pre & n & -> & _).
    apply v_not_numeric, Hall. rewrite elem_of_app. right. by left.
  - destruct Hnum as (yymm & n & -> & _). by destruct yymm.
Qed.

Lemma number_not_prefixed (id : string) n v :
  ArxivId.number n -> JSString.chars id = n ++ v ->
  JSString.startsWith id "arXiv:" = false.
Proof.
  intros (yymm & m & -> & Hy & Hlen & _) Hid.
  destruct (JSString.startsWith id "arXiv:") eqn:E; [| done].
  apply startsWith_inv in E. rewrite E, chars_append in Hid.
  destruct yymm as [|c yymm]; [discriminate |].
  injection Hid as <- _. apply Forall_cons in Hy as [Hc _].
  unfold Shape.digit in Hc. change (JSString.code "a") with 97%N in Hc. lia.
Qed.

(** X18.  The arXiv PDF that the ADS plugin constructs does not depend on
    how the record writes the identifier.  For a number [YYMM.NNNNN],
    with or without a version, with or without the prefix [arXiv:], as
    the first recognised identifier of the record, and esources without
    an arXiv link, [esourcesToPdfSources] on what [extractArxivId] answers
    ends with the one entry for [https://arxiv.org/pdf/YYMM.NNNNN.pdf]. *)
Theorem extracted_id_gives_canonical_pdf (number : string) (v : list ascii)
    (rest : list string) (esources : list Esource.t) (bibcode : string) :
  ArxivId.number (JSString.chars number) -> Shape.version v ->
  existsb PdfSpec.arxiv_link esources = false ->
  let versioned := JSString.of_chars (JSString.chars number ++ v) in
  let links := AdsPlugin.esourcesToPdfSources esources bibcode None in
  let entry := PdfSpec.constructed number (Z.of_nat (length links)) in
  PaperUtils.extractArxivId (Some (versioned :: rest)) = Some number /\
  PaperUtils.extractArxivId (Some (("arXiv:" +:+ versioned) :: rest))
    = Some versioned /\
  forall id, id = versioned \/ id = "arXiv:" +:+ versioned ->
    AdsPlugin.esourcesToPdfSources esources bibcode
      (PaperUtils.extractArxivId (Some (id :: rest)))
    = links ++ [entry].
Proof.
  intros Hnum Hv Hno versioned links entry.
  destruct (number_plain _ Hnum) as (Hcolon & Hversion & Hne).
  assert (Hchars : JSString.chars versioned = JSString.chars number ++ v)
    by apply chars_of_chars.
  assert (Hbare : PaperUtils.extractArxivId (Some (versioned :: rest))
                  = Some number).
  { apply (extract_cons versioned rest). right.
    split; [by apply (number_not_prefixed _ _ v Hnum) |].
    split; [done |]. by exists v. }
  assert (Hprefixed :
    PaperUtils.extractArxivId (Some (("arXiv:" +:+ versioned) :: rest))
    = Some versioned).
  { apply (extract_cons ("arXiv:" +:+ versioned) rest). by left. }
  assert (Hclean1 : AdsPlugin.cleanId number = number).
  { apply cleanId_decorated; [| done | done].
    exists [], []. rewrite app_nil_r. split; [done |].
    split; [by left | by left]. }
  assert (Hclean2 : AdsPlugin.cleanId versioned = number).
  { apply cleanId_decorated; [| done | done].
    exists [], v. split; [done |]. split; [by left | done]. }
  assert (Hnumber : number <> EmptyString).
  { intros ->. by apply Hne. }
  assert (Hversioned : versioned <> EmptyString).
  { intros H. rewrite H in Hchars. simpl in Hchars.
    symmetry in Hchars. by apply app_eq_nil in Hchars as [? _]. }
  split; [exact Hbare |]. split; [exact Hprefixed |].
  intros id [-> | ->].
  - rewrite Hbare, esources_with_id by done. cbv zeta. by rewrite Hclean1.
  - rewrite Hprefixed, esources_with_id by done. cbv zeta. by rewrite Hclean2.
Qed.

Lemma extracted_id_gives_canonical_pdf_witness :
  let publisher := {| Esource.link_type := Some "ESOURCE|PUB_PDF";
                      Esource.type := None;
                      Esource.url := Some "https://doi.org/10.1086/305772" |} in
  ArxivId.number (JSString.chars "2401.12345") /\
  Shape.version (JSString.chars "v2") /\
  AdsPlugin.esourcesToPdfSources [publisher] "2024ApJ...961...12S"
    (PaperUtils.extractArxivId (Some ["arXiv:2401.12345v2"]))
  = AdsPlugin.esourcesToPdfSources [publisher] "2024ApJ...961...12S" None ++
    [PdfSpec.constructed "2401.12345" 1].
Proof.
  intros publisher.
  assert (Hdigit : forall c, (48 <=? JSString.code c)%N &&
                             (JSString.code c <=? 57)%N = true ->
                             Shape.digit c).
  { intros c [H1%N.leb_le H2%N.leb_le]%andb_true_iff. done. }
  assert (Hnum : ArxivId.number (JSString.chars "2401.12345")).
  { exists (JSString.chars "2401"), (JSString.chars "12345").
    split; [reflexivity |].
    split; [repeat (constructor; [by apply Hdigit |]); constructor |].
    split; [reflexivity |].
    split; [repeat (constructor; [by apply Hdigit |]); constructor |].
    simpl; lia. }
  assert (Hv : Shape.version (JSString.chars "v2")).
  { right. exists (JSString.chars "2"). split; [reflexivity |].
    split; [| discriminate].
    repeat (constructor; [by apply Hdigit |]); constructor. }
  split; [exact Hnum |]. split; [exact Hv |].
  destruct (extracted_id_gives_canonical_pdf "2401.12345"
              (JSString.chars "v2") [] [publisher] "2024ApJ...961...12S"
              Hnum Hv eq_refl) as (_ & _ & H).
  exact (H "arXiv:2401.12345v2" (or_intror eq_refl)).
Defined.

(** ** normalizeBibcode *)

Lemma toLowerCase_char_idem c :
  PaperUtils.toLowerCase_char (PaperUtils.toLowerCase_char c)
  = PaperUtils.toLowerCase_char c.
Proof. destruct c as [[] [] [] [] [] [] [] []]; reflexivity. Qed.

Lemma toLowerCase_char_dot c :
  PaperUtils.is_dot (PaperUtils.toLowerCase_char c) = PaperUtils.is_dot c.
Proof. destruct c as [[] [] [] [] [] [] [] []]; reflexivity. Qed.

Lemma toLowerCase_char_upper c :
  ~ Shape.upper (PaperUtils.toLowerCase_char c).
Proof.
  unfold Shape.upper.
  destruct c as [[] [] [] [] [] [] [] []]; vm_compute;
    intros [H1 H2]; by (apply H1 || apply H2).
Qed.

Lemma filter_idem {A} (p : A -> bool) (l : list A) :
  List.filter p (List.filter p l) = List.filter p l.
Proof.
  induction l as [|a l IH]; simpl; [done |].
  destruct (p a) eqn:E; simpl; [by rewrite E, IH | done].
Qed.

Lemma filter_map_commute {A} (p : A -> bool) (f : A -> A) (l : list A) :
  (forall a, p (f a) = p a) ->
  List.filter p (map f l) = map f (List.filter p l).
Proof.
  intros H. induction l as [|a l IH]; simpl; [done |].
  rewrite H. destruct (p a); simpl; by rewrite IH.
Qed.

(** The characters of a normalized bibcode, whatever the bibcode. *)
Lemma normalizeBibcode_chars bibcode :
  JSString.chars (PaperUtils.normalizeBibcode bibcode)
  = map PaperUtils.toLowerCase_char
      (List.filter (fun c => negb (PaperUtils.is_dot c))
         (JSString.chars (default EmptyString bibcode))).
Proof.
  unfold PaperUtils.normalizeBibcode. destruct bibcode as [b|]; simpl; [| done].
  unfold JSString.truthy.
  destruct (String.eqb_spec b EmptyString) as [->|]; simpl; [done |].
  apply chars_of_chars.
Qed.

(** X19.  A normalized bibcode holds no dot and no letter from A to Z,
    and is not longer than the bibcode.  Normalizing twice is normalizing
    once.  Normalizing commutes with concatenation; a bibcode with one
    more dot, and the bibcode in small letters, are normalized to the
    same string as the bibcode. *)
Theorem normalizeBibcode_canonical (bibcode : option string) :
  let normal := PaperUtils.normalizeBibcode bibcode in
  Forall (fun c => c <> "."%char /\ ~ Shape.upper c) (JSString.chars normal) /\
  (String.length normal <= String.length (default EmptyString bibcode))%nat /\
  PaperUtils.normalizeBibcode (Some normal) = normal /\
  (forall a b,
     bibcode = Some (a +:+ b) ->
     normal = PaperUtils.normalizeBibcode (Some a) +:+
              PaperUtils.normalizeBibcode (Some b)) /\
  (forall a b,
     bibcode = Some (a +:+ "." +:+ b) ->
     normal = PaperUtils.normalizeBibcode (Some (a +:+ b))) /\
  (forall b,
     bibcode = Some b ->
     PaperUtils.normalizeBibcode
       (Some (JSString.of_chars
                (map PaperUtils.toLowerCase_char (JSString.chars b))))
     = normal).
Proof.
  intros normal.
  assert (Heq : forall x y : string,
            JSString.chars x = JSString.chars y -> x = y).
  { intros x y H. by rewrite <- (of_chars_chars x), H, of_chars_chars. }
  split_and!.
  - subst normal. rewrite normalizeBibcode_chars.
    apply Forall_forall. intros c (c0 & -> & Hin)%list_elem_of_fmap.
    apply list_elem_of_In, filter_In in Hin as [_ Hdot].
    split; [| apply toLowerCase_char_upper].
    intros H. rewrite <- toLowerCase_char_dot in Hdot.
    rewrite H in Hdot. discriminate.
  - subst normal. rewrite <- !length_chars, normalizeBibcode_chars, length_map.
    generalize (JSString.chars (default EmptyString bibcode)) as l.
    induction l as [|c l IH]; simpl; [done |].
    destruct (negb (PaperUtils.is_dot c)); simpl; lia.
  - apply Heq. rewrite normalizeBibcode_chars. cbn [default from_option].
    unfold id. subst normal. rewrite normalizeBibcode_chars.
    rewrite filter_map_commute by (intros; by rewrite toLowerCase_char_dot).
    rewrite filter_idem, map_map.
    apply map_ext. intros. apply toLowerCase_char_idem.
  - intros a b ->. apply Heq. subst normal.
    rewrite chars_append, !normalizeBibcode_chars. cbn [default from_option].
    unfold id. by rewrite chars_append, List.filter_app, map_app.
  - intros a b ->. apply Heq. subst normal.
    rewrite !normalizeBibcode_chars. cbn [default from_option]. unfold id.
    rewrite !chars_append, !List.filter_app, !map_app. done.
  - intros b ->. apply Heq. subst normal.
    rewrite !normalizeBibcode_chars. cbn [default from_option]. unfold id.
    rewrite chars_of_chars.
    rewrite filter_map_commute by (intros; by rewrite toLowerCase_char_dot).
    rewrite map_map. apply map_ext. intros. apply toLowerCase_char_idem.
Qed.

(** ** truncateText *)

Lemma length_append a b :
  String.length (a +:+ b) = (String.length a + String.length b)%nat.
Proof. by rewrite <- !length_chars, chars_append, length_app. Qed.

Lemma truncateText_chars (s : string) maxLength :
  s <> EmptyString ->
  JSString.chars (BookExport.truncateText (Some s) maxLength)
  = if Z.of_nat (String.length s) <=? maxLength then JSString.chars s
    else take (Z.to_nat (maxLength - 3)) (JSString.chars s) ++
         JSString.chars "...".
Proof.
  intros Hs%truthy_nonempty. unfold BookExport.truncateText.
  cbn [JS.truthy_str default from_option]. unfold id. rewrite Hs. cbn [negb].
  destruct (_ <=? maxLength); [done |].
  unfold BookExport.substring_to. by rewrite chars_append, chars_of_chars.
Qed.

Lemma truncateText_short (s : string) maxLength :
  Z.of_nat (String.length s) <= maxLength ->
  BookExport.truncateText (Some s) maxLength = s.
Proof.
  intros H%Z.leb_le. unfold BookExport.truncateText.
  cbn [JS.truthy_str default from_option]. unfold id. rewrite H.
  unfold JSString.truthy.
  by destruct (String.eqb_spec s EmptyString) as [->|].
Qed.

(** X20.  The text that [truncateText] returns is the text itself when it
    is not longer than [maxLength], and otherwise its first
    [maxLength - 3] characters followed by three dots.  For a [maxLength]
    of 3 or more it is never longer than [maxLength], and truncating it
    again changes nothing; for a smaller [maxLength] a text that is too
    long becomes the three dots, which are longer than [maxLength]. *)
Theorem truncateText_fits (text : option string) (maxLength : Z) :
  let short := BookExport.truncateText text maxLength in
  Z.of_nat (String.length short) <= Z.max maxLength 3 /\
  (3 <= maxLength ->
   Z.of_nat (String.length short) <= maxLength /\
   BookExport.truncateText (Some short) maxLength = short) /\
  (forall s, text = Some s -> s <> EmptyString ->
     JSString.chars short
     = if Z.of_nat (String.length s) <=? maxLength then JSString.chars s
       else take (Z.to_nat (maxLength - 3)) (JSString.chars s) ++
            JSString.chars "...") /\
  (forall s, text = Some s -> s <> EmptyString -> maxLength < 3 ->
     maxLength < Z.of_nat (String.length s) -> short = "...").
Proof.
  intros short.
  assert (Hfalsy : JS.truthy_str text = false -> short = EmptyString).
  { intros H. subst short. unfold BookExport.truncateText. by rewrite H. }
  assert (Hlen : forall s, text = Some s -> s <> EmptyString ->
    Z.of_nat (String.length short)
    = if Z.of_nat (String.length s) <=? maxLength
      then Z.of_nat (String.length s)
      else Z.min (Z.max 0 (maxLength - 3)) (Z.of_nat (String.length s)) + 3).
  { intros s -> Hs. subst short.
    rewrite <- (length_chars (BookExport.truncateText _ _)).
    rewrite truncateText_chars by done.
    destruct (_ <=? maxLength); [by rewrite length_chars |].
    rewrite length_app, length_take, length_chars. simpl. lia. }
  assert (Hcases : JS.truthy_str text = false \/
                   exists s, text = Some s /\ s <> EmptyString).
  { destruct text as [s|]; [| by left]. simpl.
    destruct (JSString.truthy s) eqn:E; [right | by left].
    exists s. split; [done | by apply truthy_nonempty]. }
  split_and!.
  - destruct Hcases as [H | (s & Hs & Hne)].
    + rewrite (Hfalsy H). simpl. lia.
    + rewrite (Hlen s Hs Hne).
      destruct (_ <=? maxLength) eqn:E; [apply Z.leb_le in E |]; lia.
  - intros Hmax. destruct Hcases as [H | (s & Hs & Hne)].
    + rewrite (Hfalsy H). simpl. split; [lia | done].
    + pose proof (Hlen s Hs Hne) as Hl.
      destruct (Z.of_nat (String.length s) <=? maxLength) eqn:E.
      * apply Z.leb_le in E. split; [lia |]. apply truncateText_short. lia.
      * apply Z.leb_gt in E. split; [lia |]. apply truncateText_short. lia.
  - intros s -> Hne. subst short. by apply truncateText_chars.
  - intros s -> Hne Hmax Hlong.
    rewrite <- (of_chars_chars short). subst short.
    rewrite truncateText_chars by done.
    assert ((Z.of_nat (String.length s) <=? maxLength) = false) as ->
      by (apply Z.leb_gt; lia).
    assert (Z.to_nat (maxLength - 3) = 0%nat) as -> by lia.
    done.
Qed.

(** ** Queries are read-only *)

Lemma read_only_refl w : Frame.read_only w w.
Proof. unfold Frame.read_only. split_and!; try done; lia. Qed.

Lemma read_only_trans w1 w2 w3 :
  Frame.read_only w1 w2 -> Frame.read_only w2 w3 -> Frame.read_only w1 w3.
Proof.
  intros (Hp & Ha & He & Hl & Hn & Hs & Hd) (Hp' & Ha' & He' & Hl' & Hn' & Hs' & Hd').
  unfold Frame.read_only. split_and!; try congruence; try lia.
  intros k Hk. rewrite Hl' by (by rewrite Hp). by apply Hl.
Qed.

Lemma preserves_ret {A} (a : A) : Frame.preserves (Eff.ret a).
Proof. intros w. apply read_only_refl. Qed.

Lemma preserves_throw {A} e : Frame.preserves (@Eff.throw A e).
Proof. intros w. apply read_only_refl. Qed.

Lemma preserves_gets {A} (f : State.t -> A) : Frame.preserves (Eff.gets f).
Proof. intros w. apply read_only_refl. Qed.

Lemma preserves_Date_now : Frame.preserves Eff.Date_now.
Proof. intros w. apply read_only_refl. Qed.

Lemma preserves_setTimeout ms : Frame.preserves (Eff.setTimeout ms).
Proof.
  intros w. unfold Frame.read_only, Eff.setTimeout, Eff.suspend. simpl.
  split_and!; try done; lia.
Qed.

Lemma preserves_await {A} (answer : Outcome A) :
  Frame.preserves (Eff.await answer).
Proof.
  intros w. unfold Frame.read_only, Eff.await, Eff.suspend. simpl.
  split_and!; try done; lia.
Qed.

Lemma preserves_bind {A B} (c : M A) (k : A -> M B) :
  Frame.preserves c -> (forall a, Frame.preserves (k a)) ->
  Frame.preserves (Eff.bind c k).
Proof.
  intros Hc Hk w. unfold Eff.bind. specialize (Hc w).
  destruct (c w) as [[a|e] w1]; simpl in *; [| done].
  eapply read_only_trans; [exact Hc | apply Hk].
Qed.

Lemma preserves_try_catch {A} (c : M A) (h : Error -> M A) :
  Frame.preserves c -> (forall e, Frame.preserves (h e)) ->
  Frame.preserves (Eff.try_catch c h).
Proof.
  intros Hc Hh w. unfold Eff.try_catch. specialize (Hc w).
  destruct (c w) as [[a|e] w1]; simpl in *; [done |].
  eapply read_only_trans; [exact Hc | apply Hh].
Qed.

Lemma preserves_enforceRateLimit pluginId :
  Frame.preserves (PluginManager._enforceRateLimit pluginId).
Proof.
  intros w. unfold PluginManager._enforceRateLimit, Frame.read_only. eff.
  destruct (PluginManager.get pluginId (manager w)) as [plugin|] eqn:Eget;
    [| split_and!; first [done | lia]].
  assert (Hreg : JSMap.has pluginId (State.plugins (manager w)) = true).
  { unfold PluginManager.get in Eget. unfold JSMap.has.
    by destruct (JSMap.get pluginId _). }
  destruct (SourcePlugin.getRateLimitStatus plugin) as [[[status|]|e]|];
    try (split_and!; first [done | lia]).
  destruct (PluginManager.must_retry_later status); simpl; eff;
    destruct (PluginManager.below _ _); simpl; eff;
    (split_and!; try done; try lia;
     intros k Hk; apply lookup_insert_ne; congruence).
Qed.

Lemma preserves_call {A B} (method : option (A -> Outcome B)) name arg :
  Frame.preserves (PluginManager.call method name arg).
Proof.
  unfold PluginManager.call.
  destruct method; [apply preserves_await | apply preserves_throw].
Qed.

Lemma preserves_tag pluginId result :
  Frame.preserves (PluginManager.tag pluginId result).
Proof.
  unfold PluginManager.tag.
  destruct (SearchResult.papers result);
    [apply preserves_ret | apply preserves_throw].
Qed.

Create HintDb frame.
#[local] Hint Resolve preserves_ret preserves_throw preserves_gets
  preserves_Date_now preserves_setTimeout preserves_await
  preserves_enforceRateLimit preserves_call preserves_tag : frame.

Ltac frame :=
  repeat first
    [ progress auto with frame
    | apply preserves_bind; [| intros ?]
    | apply preserves_try_catch; [| intros ?]
    | match goal with
      | |- Frame.preserves (match ?x with _ => _ end) => destruct x
      | |- Frame.preserves (if ?b then _ else _) => destruct b
      end ].

Lemma preserves_search query : Frame.preserves (PluginManager.search query).
Proof. unfold PluginManager.search. frame. Qed.

Lemma preserves_search_task query plugin acc :
  Frame.preserves (PluginManager.search_task query plugin acc).
Proof. unfold PluginManager.search_task. frame. Qed.

Lemma preserves_all_settled query tasks : forall acc,
  Frame.preserves (PluginManager.all_settled query tasks acc).
Proof.
  induction tasks as [|plugin tasks IH]; intros acc; simpl; [frame |].
  apply preserves_bind; [apply preserves_search_task | apply IH].
Qed.

Lemma preserves_federatedSearch query completion :
  Frame.preserves (PluginManager.federatedSearch query completion).
Proof.
  unfold PluginManager.federatedSearch.
  apply preserves_bind; [frame | intros; apply preserves_all_settled].
Qed.

Lemma preserves_lookupWithPlugin plugin identifier idType :
  Frame.preserves (PluginManager._lookupWithPlugin plugin identifier idType).
Proof. unfold PluginManager._lookupWithPlugin. frame. Qed.

Lemma preserves_try_lookup plugin identifier idType :
  Frame.preserves (PluginManager.try_lookup plugin identifier idType).
Proof.
  unfold PluginManager.try_lookup.
  apply preserves_try_catch; [apply preserves_lookupWithPlugin | frame].
Qed.

Lemma preserves_try_others active identifier idType lookupPlugins :
  Frame.preserves
    (PluginManager.try_others active lookupPlugins identifier idType).
Proof.
  induction lookupPlugins as [|plugin rest IH]; simpl; [frame |].
  destruct (match active with Some _ => _ | None => _ end); [done |].
  apply preserves_bind; [apply preserves_try_lookup |].
  intros [paper|]; [frame | done].
Qed.

Lemma preserves_lookup identifier :
  Frame.preserves (PluginManager.lookup identifier).
Proof.
  unfold PluginManager.lookup.
  apply preserves_bind; [frame | intros lookupPlugins].
  apply preserves_bind; [frame | intros active].
  apply preserves_bind.
  - destruct active as [a|]; [| frame].
    destruct (SourcePlugin.capable a "lookup");
      [apply preserves_try_lookup | frame].
  - intros [paper|]; [frame | apply preserves_try_others].
Qed.

Lemma preserves_collect sourceId pdfPlugins : forall allSources,
  Frame.preserves (ManagerPdf.collect pdfPlugins sourceId allSources).
Proof.
  induction pdfPlugins as [|p rest IH]; intros allSources; simpl; [frame |].
  apply preserves_bind; [frame | apply IH].
Qed.

Lemma preserves_getPdfSources source sourceId :
  Frame.preserves (ManagerPdf.getPdfSources source sourceId).
Proof.
  unfold ManagerPdf.getPdfSources.
  apply preserves_bind; [frame | intros plugin].
  destruct plugin as [plugin|].
  - destruct (SourcePlugin.capable plugin "pdfDownload"); [frame |].
    apply preserves_bind; [frame | intros; apply preserves_collect].
  - apply preserves_bind; [frame | intros; apply preserves_collect].
Qed.

(** X21.  The queries of the manager are read-only on its registry:
    [search], [federatedSearch], [lookup] and [getPdfSources], whether
    they return or throw, leave the registrations, their flags and order,
    the active pointer and the emitted events as they were, move the
    clock forward only, and change the records of the rate limiter for
    registered plugins only. *)
Theorem queries_are_read_only (w : World) :
  (forall query, Frame.read_only w (snd (PluginManager.search query w))) /\
  (forall query completion,
     Frame.read_only w
       (snd (PluginManager.federatedSearch query completion w))) /\
  (forall identifier,
     Frame.read_only w (snd (PluginManager.lookup identifier w))) /\
  (forall source sourceId,
     Frame.read_only w (snd (ManagerPdf.getPdfSources source sourceId w))).
Proof.
  split_and!; intros.
  - apply preserves_search.
  - apply preserves_federatedSearch.
  - apply preserves_lookup.
  - apply preserves_getPdfSources.
Qed.

(** ** What list returns *)

Lemma keep_spec options reg :
  PluginManager.keep options reg = true <->
  (ListOptions.enabledOnly options = true ->
   PluginRegistration.enabled reg = true) /\
  (forall c, ListOptions.capability options = Some c -> c <> EmptyString ->
     SourcePlugin.capable (PluginRegistration.plugin reg) c = true).
Proof.
  unfold PluginManager.keep.
  destruct (ListOptions.enabledOnly options),
    (PluginRegistration.enabled reg); cbn [negb andb].
  2:{ split; [discriminate | intros [H _]; by specialize (H eq_refl)]. }
  all: destruct (ListOptions.capability options) as [c|];
    cbn [JS.truthy_str default from_option]; unfold id;
    [| split; [intros _; split; [done | discriminate] | done]];
    unfold JSString.truthy;
    destruct (String.eqb_spec c EmptyString) as [->|Hc]; cbn [negb andb];
    [ split; [intros _; split; [done | by intros ? [= <-]] | done]
    | destruct (SourcePlugin.capable _ c) eqn:Ecap; cbn [negb];
      [ split; [intros _; split; [done | by intros ? [= <-]] | done]
      | split; [discriminate |];
        intros [_ H]; by rewrite (H c eq_refl Hc) in Ecap ] ].
Qed.

Lemma filter_sublist {A} (p : A -> bool) (l : list A) :
  sublist (List.filter p l) l.
Proof.
  induction l as [|a l IH]; simpl; [done |].
  destruct (p a); [by apply sublist_skip | by apply sublist_cons].
Qed.

(** X22.  In a registry of valid plugins, and for options whose
    [capability] is absent, empty or the name of one of the seven
    capability flags (the flags are what the capabilities of a plugin are
    modelled by), [list(options)] returns, in registration order and
    without repeating an ID, exactly the registered plugins that pass the
    filters: the enabled ones when [enabledOnly] is set, and the ones
    whose capabilities hold the flag when [capability] names one.  An
    empty [capability] filters nothing. *)
Theorem list_filters_registry (options : ListOptions.t) (s : State.t) :
  Registry.keyed s -> Reachable.all_valid s ->
  (forall c, ListOptions.capability options = Some c ->
     c = EmptyString \/
     c ∈ ["search"; "lookup"; "references"; "citations"; "pdfDownload";
          "bibtex"; "metadata"]) ->
  (forall p, p ∈ PluginManager.list_ options s <->
     exists reg caps,
       JSMap.get (SourcePlugin.id p) (State.plugins s) = Some reg /\
       PluginRegistration.plugin reg = p /\
       SourcePlugin.capabilities p = Some caps /\
       (ListOptions.enabledOnly options = true ->
        PluginRegistration.enabled reg = true) /\
       (forall c, ListOptions.capability options = Some c ->
          c <> EmptyString -> Capabilities.flag caps c = true)) /\
  sublist (PluginManager.list_ options s)
          (PluginManager.list_ ListOptions.none s) /\
  NoDup (map SourcePlugin.id (PluginManager.list_ options s)).
Proof.
  intros Hk Hv _. split_and!.
  - intros p. split.
    + intros Hp.
      destruct (listed_registered _ _ _ Hk Hp) as (reg & Hget & <- & Hkeep).
      destruct (valid_backed _ (registered_valid _ _ _ Hv Hget))
        as ([caps Hcaps] & _).
      exists reg, caps. apply keep_spec in Hkeep as [H1 H2].
      split_and!; try done.
      intros c Hc Hne. specialize (H2 c Hc Hne).
      unfold SourcePlugin.capable in H2. by rewrite Hcaps in H2.
    + intros (reg & caps & Hget & <- & Hcaps & H1 & H2).
      unfold PluginManager.list_. apply list_elem_of_fmap. exists reg.
      split; [done |]. apply list_elem_of_In, filter_In. split.
      * apply list_elem_of_In, list_elem_of_fmap.
        exists (SourcePlugin.id (PluginRegistration.plugin reg), reg).
        split; [done | by apply get_in].
      * apply keep_spec. split; [done |]. intros c Hc Hne.
        unfold SourcePlugin.capable. rewrite Hcaps. by apply H2.
  - rewrite list_none. unfold PluginManager.list_.
    apply fmap_sublist, filter_sublist.
  - by apply listed_ids_NoDup.
Qed.

Lemma list_filters_registry_witness :
  let scans := Sample.pdf_plugin "scans" None (Returns [Sample.link]) in
  let s := manager (Sample.run [Registry.Register Sample.ads;
                                Registry.Register scans;
                                Registry.Disable "ads"]) in
  Registry.keyed s /\ Reachable.all_valid s /\
  PluginManager.list_ After.enabledOnly s = [scans] /\
  NoDup (map SourcePlugin.id (PluginManager.list_ After.enabledOnly s)).
Proof.
  intros scans s.
  assert (Hk : Registry.keyed s)
    by apply perform_all_invariant, constructor_invariant.
  assert (Hv : Reachable.all_valid s)
    by (apply perform_all_valid; constructor).
  split; [exact Hk |]. split; [exact Hv |]. split; [reflexivity |].
  assert (Hflag : forall c,
            ListOptions.capability After.enabledOnly = Some c ->
            c = EmptyString \/
            c ∈ ["search"; "lookup"; "references"; "citations"; "pdfDownload";
                 "bibtex"; "metadata"]) by discriminate.
  destruct (list_filters_registry After.enabledOnly s Hk Hv Hflag)
    as (_ & _ & H).
  exact H.
Defined.

(** ** translateQueryToADS *)

Lemma append_nonempty_l a b : a <> EmptyString -> a +:+ b <> EmptyString.
Proof. by destruct a. Qed.

Lemma concat_empty sep (l : list string) :
  Forall (fun part => part <> EmptyString) l ->
  String.concat sep l = EmptyString -> l = [].
Proof.
  destruct l as [|a [|b l]]; [done | |].
  - intros [Ha _]%Forall_cons. simpl. done.
  - intros [Ha _]%Forall_cons. simpl. intros H.
    exfalso. by apply (append_nonempty_l a (sep +:+ String.concat sep (b :: l))).
Qed.

Lemma part_empty name value :
  AdsQuery.part name value = [] <-> JS.truthy_str value = false.
Proof. unfold AdsQuery.part. by destruct (JS.truthy_str value). Qed.

Lemma year_part_empty year :
  AdsQuery.year_part year = [] <-> year = None \/ year = Some (0, None).
Proof.
  unfold AdsQuery.year_part. destruct year as [[first [last|]]|].
  - split; [discriminate | intros [? | ?]; discriminate].
  - destruct (Z.eqb_spec first 0) as [->|Hne].
    + split; auto.
    + split; [discriminate | intros [? | [= ?]]; [discriminate | done]].
  - split; auto.
Qed.

Lemma keywords_part_empty keywords :
  AdsQuery.keywords_part keywords = [] <-> keywords = [].
Proof. by destruct keywords. Qed.

Lemma parts_nonempty query :
  Forall (fun part => part <> EmptyString) (AdsQuery.parts query).
Proof.
  unfold AdsQuery.parts, AdsQuery.part, AdsQuery.year_part,
    AdsQuery.keywords_part.
  repeat apply Forall_app_2.
  1-4: destruct (JS.truthy_str _); repeat constructor; done.
  - destruct (UnifiedQuery.year query) as [[first [last|]]|];
      [| destruct (first =? 0) |]; repeat constructor; done.
  - destruct (UnifiedQuery.keywords query); repeat constructor; done.
Qed.

Lemma parts_empty query :
  AdsQuery.parts query = [] <->
  JS.truthy_str (UnifiedQuery.title query) = false /\
  JS.truthy_str (UnifiedQuery.author query) = false /\
  JS.truthy_str (UnifiedQuery.abstract query) = false /\
  JS.truthy_str (UnifiedQuery.fullText query) = false /\
  (UnifiedQuery.year query = None \/ UnifiedQuery.year query = Some (0, None)) /\
  UnifiedQuery.keywords query = [].
Proof.
  unfold AdsQuery.parts. split.
  - intros H.
    apply app_eq_nil in H as [H1%part_empty H].
    apply app_eq_nil in H as [H2%part_empty H].
    apply app_eq_nil in H as [H3%part_empty H].
    apply app_eq_nil in H as [H4%part_empty H].
    apply app_eq_nil in H as [H5%year_part_empty H6].
    apply (proj1 (keywords_part_empty _)) in H6.
    by split_and!.
  - intros (H1 & H2 & H3 & H4 & H5 & H6).
    apply (part_empty "title") in H1. apply (part_empty "author") in H2.
    apply (part_empty "abs") in H3. apply (part_empty "full") in H4.
    apply year_part_empty in H5. rewrite H6.
    by rewrite H1, H2, H3, H4, H5.
Qed.

Lemma truthy_str_some (v : option string) :
  JS.truthy_str v = true <-> exists s, v = Some s /\ s <> EmptyString.
Proof.
  destruct v as [s|]; simpl.
  - rewrite truthy_nonempty. split; [eauto | by intros (? & [= <-] & ?)].
  - split; [discriminate | by intros (? & ? & _)].
Qed.

(** X23.  [translateQueryToADS] gives the empty query string exactly for
    a query that names no criterion: options such as the sort order and
    the limit do not count, nor does the year 0.  A raw query is passed
    on as it is, whatever else the query holds; without it a bibcode, then
    a DOI, then an arXiv identifier decide alone, the identifier losing a
    prefix [arXiv:] in any case and keeping its version. *)
Theorem translateQueryToADS_criteria (query : UnifiedQuery.t) :
  let ads := AdsQuery.translateQueryToADS query in
  (ads = EmptyString <-> AdsQuery.blank query) /\
  (forall raw, UnifiedQuery.raw query = Some raw -> raw <> EmptyString ->
     ads = raw) /\
  (JS.truthy_str (UnifiedQuery.raw query) = false ->
   (forall bibcode,
      UnifiedQuery.bibcode query = Some bibcode -> bibcode <> EmptyString ->
      ads = AdsQuery.quoted "bibcode" bibcode) /\
   (JS.truthy_str (UnifiedQuery.bibcode query) = false ->
    (forall doi,
       UnifiedQuery.doi query = Some doi -> doi <> EmptyString ->
       ads = AdsQuery.quoted "doi" doi) /\
    (JS.truthy_str (UnifiedQuery.doi query) = false ->
     (forall prefix rest,
        UnifiedQuery.arxivId query
          = Some (JSString.of_chars (prefix ++ JSString.chars rest)) ->
        RegExp.lang AdsPlugin.re_arxiv_prefix prefix ->
        ads = "arxiv:" +:+ rest) /\
     (forall arxivId,
        UnifiedQuery.arxivId query = Some arxivId ->
        arxivId <> EmptyString ->
        RegExp.test_prefix AdsPlugin.re_arxiv_prefix arxivId = false ->
        ads = "arxiv:" +:+ arxivId)))).
Proof.
  intros ads. subst ads. unfold AdsQuery.translateQueryToADS. split_and!.
  - unfold AdsQuery.blank.
    destruct (JS.truthy_str (UnifiedQuery.raw query)) eqn:Eraw.
    { apply truthy_str_some in Eraw as (raw & -> & Hraw). simpl.
      unfold id. split; [done | by intros [? _]]. }
    destruct (JS.truthy_str (UnifiedQuery.bibcode query)) eqn:Ebib.
    { split; [by intros H%append_nonempty_l | by intros (_ & ? & _)]. }
    destruct (JS.truthy_str (UnifiedQuery.doi query)) eqn:Edoi.
    { split; [by intros H%append_nonempty_l | by intros (_ & _ & ? & _)]. }
    destruct (JS.truthy_str (UnifiedQuery.arxivId query)) eqn:Earxiv.
    { split; [by intros H%append_nonempty_l | by intros (_ & _ & _ & ? & _)]. }
    rewrite <- parts_empty. split.
    + intros H%concat_empty; [done | apply parts_nonempty].
    + by intros (_ & _ & _ & _ & ->).
  - intros raw -> Hraw%truthy_nonempty. simpl. by rewrite Hraw.
  - intros ->. split_and!.
    + intros bibcode -> Hb%truthy_nonempty. simpl. by rewrite Hb.
    + intros ->. split_and!.
      * intros doi -> Hd%truthy_nonempty. simpl. by rewrite Hd.
      * intros ->. split.
        { intros prefix rest -> Hprefix.
          assert (Hne : JSString.of_chars (prefix ++ JSString.chars rest)
                        <> EmptyString).
          { intros H%of_chars_nil_inv. apply app_eq_nil in H as [-> _].
            apply lang_arxiv_prefix in Hprefix as (p & H & _).
            by destruct p. }
          apply truthy_nonempty in Hne. simpl. rewrite Hne. unfold id.
          f_equal. unfold RegExp.remove_prefix.
          assert (RegExp.test_prefix AdsPlugin.re_arxiv_prefix
                    (JSString.of_chars (prefix ++ JSString.chars rest))
                  = true) as ->.
          { apply test_prefix_spec. rewrite chars_of_chars. eauto. }
          rewrite chars_of_chars.
          apply lang_arxiv_prefix in Hprefix as (p & -> & Hlen).
          destruct p as [|? [|? [|? [|? [|? [|]]]]]]; try discriminate.
          simpl. apply of_chars_chars. }
        { intros arxivId -> Hne%truthy_nonempty Htest. simpl.
          rewrite Hne. unfold id, RegExp.remove_prefix. by rewrite Htest. }
Qed.

Lemma translateQueryToADS_criteria_witness :
  AdsQuery.translateQueryToADS Example.query
    = AdsQuery.quoted "title" "galaxy" /\
  ~ AdsQuery.blank Example.query.
Proof.
  split; [reflexivity |].
  destruct (translateQueryToADS_criteria Example.query) as [Hblank _].
  intros H%Hblank. discriminate.
Defined.

(** ** wrapText *)

Lemma string_append_assoc a b c : (a +:+ b) +:+ c = a +:+ (b +:+ c).
Proof.
  induction a as [|x a IH]; [done |]. rewrite !append_cons. by rewrite IH.
Qed.

Lemma concat_snoc sep (l : list string) x :
  l <> [] ->
  String.concat sep (l ++ [x]) = String.concat sep l +:+ sep +:+ x.
Proof.
  induction l as [|a l IH]; [done |]. intros _.
  destruct l as [|b l]; [done |].
  change (String.concat sep ((a :: b :: l) ++ [x]))
    with (a +:+ sep +:+ String.concat sep ((b :: l) ++ [x])).
  change (String.concat sep (a :: b :: l))
    with (a +:+ sep +:+ String.concat sep (b :: l)).
  rewrite IH by done. by rewrite !string_append_assoc.
Qed.

Lemma concat_snoc_joined sep (l : list string) a b :
  String.concat sep (l ++ [a +:+ sep +:+ b])
  = String.concat sep (l ++ [a]) +:+ sep +:+ b.
Proof.
  destruct l as [|x l]; [done |].
  rewrite !concat_snoc by done. by rewrite !string_append_assoc.
Qed.

Section WrapFacts.

Variable too_wide : string -> bool.

Lemma flush_nonempty (st : list string * string) :
  snd st <> EmptyString -> BookExport.flush st = fst st ++ [snd st].
Proof.
  intros H%truthy_nonempty. unfold BookExport.flush. by rewrite H.
Qed.

Lemma flush_empty (st : list string * string) :
  snd st = EmptyString -> BookExport.flush st = fst st.
Proof. intros H. unfold BookExport.flush. by rewrite H. Qed.

Lemma wrap_step_wrapped words st word :
  word ∈ words -> BookExport.wrapped too_wide words st ->
  BookExport.wrapped too_wide words (BookExport.wrap_step too_wide st word).
Proof.
  destruct st as [lines cur]. intros Hword Hall.
  unfold BookExport.wrapped, BookExport.wrap_step in *.
  assert (Hflush : forall lines' : list string,
    Forall (fun line => line <> EmptyString /\
                        (line ∈ words \/ too_wide line = false)) lines' ->
    Forall (fun line => line <> EmptyString /\
                        (line ∈ words \/ too_wide line = false))
           (BookExport.flush (lines', word))).
  { intros lines' H. unfold BookExport.flush. simpl.
    destruct (JSString.truthy word) eqn:E; [| done].
    apply truthy_nonempty in E. rewrite Forall_app. split; [done |].
    constructor; [| constructor]. split; [done | by left]. }
  destruct (String.eqb_spec cur EmptyString) as [->|Hne].
  - rewrite flush_empty in Hall by done. simpl in Hall.
    cbn [JSString.truthy String.eqb negb]. rewrite andb_false_r.
    by apply Hflush.
  - rewrite flush_nonempty in Hall by done. simpl in Hall.
    assert (JSString.truthy cur = true) as -> by (by apply truthy_nonempty).
    rewrite andb_true_r.
    destruct (too_wide (cur +:+ " " +:+ word)) eqn:Ewide; [by apply Hflush |].
    rewrite flush_nonempty by (by destruct cur). simpl.
    apply Forall_app in Hall as [Hlines _].
    rewrite Forall_app. split; [done |].
    constructor; [| constructor]. split; [by destruct cur | by right].
Qed.

Lemma wrap_loop_wrapped words : forall rest st,
  (forall word, word ∈ rest -> word ∈ words) ->
  BookExport.wrapped too_wide words st ->
  BookExport.wrapped too_wide words
    (fold_left (BookExport.wrap_step too_wide) rest st).
Proof.
  induction rest as [|word rest IH]; intros st Hin Hst; simpl; [done |].
  apply IH; [intros w Hw; apply Hin; by right |].
  apply wrap_step_wrapped; [apply Hin; by left | done].
Qed.

(** The lines joined by a space are the words joined by a space, when no
    word is empty. *)
Lemma wrap_step_joined st read word :
  word <> EmptyString ->
  (snd st = EmptyString -> fst st = [] /\ read = []) ->
  (snd st <> EmptyString -> read <> []) ->
  String.concat " " (BookExport.flush st) = String.concat " " read ->
  let st' := BookExport.wrap_step too_wide st word in
  snd st' <> EmptyString /\
  String.concat " " (BookExport.flush st')
  = String.concat " " (read ++ [word]).
Proof.
  destruct st as [lines cur]. intros Hword Hempty Hread Hjoin. simpl in *.
  unfold BookExport.wrap_step.
  destruct (String.eqb_spec cur EmptyString) as [->|Hne].
  - destruct (Hempty eq_refl) as [-> ->].
    cbn [JSString.truthy String.eqb negb]. rewrite andb_false_r. simpl.
    split; [done |]. by rewrite flush_nonempty.
  - rewrite flush_nonempty in Hjoin by done. simpl in Hjoin.
    assert (JSString.truthy cur = true) as -> by (by apply truthy_nonempty).
    rewrite andb_true_r. specialize (Hread Hne).
    destruct (too_wide (cur +:+ " " +:+ word)); simpl.
    + split; [done |]. rewrite flush_nonempty by done. simpl.
      rewrite (concat_snoc " " (lines ++ [cur]) word) by (by destruct lines).
      rewrite (concat_snoc " " read word) by done.
      by rewrite Hjoin.
    + split; [by destruct cur |].
      rewrite flush_nonempty by (by destruct cur). simpl.
      rewrite concat_snoc_joined, Hjoin. by rewrite concat_snoc.
Qed.

Lemma wrap_loop_joined : forall rest st read,
  Forall (fun word => word <> EmptyString) rest ->
  (snd st = EmptyString -> fst st = [] /\ read = []) ->
  (snd st <> EmptyString -> read <> []) ->
  String.concat " " (BookExport.flush st) = String.concat " " read ->
  String.concat " "
    (BookExport.flush (fold_left (BookExport.wrap_step too_wide) rest st))
  = String.concat " " (read ++ rest).
Proof.
  induction rest as [|word rest IH]; intros st read Hall H1 H2 Hjoin; simpl.
  - by rewrite app_nil_r.
  - apply Forall_cons in Hall as [Hword Hall].
    destruct (wrap_step_joined st read word Hword H1 H2 Hjoin) as [Hne Hj].
    replace (read ++ word :: rest) with ((read ++ [word]) ++ rest)
      by (by rewrite <- app_assoc).
    apply IH; try done.
    intros _. by destruct read.
Qed.

End WrapFacts.

(** The pieces of a text without white space at its ends are not
    empty. *)
Lemma split_chars_nonempty : forall s piece gap,
  (forall c, last s = Some c -> JSString.is_white_space c = false) ->
  (piece <> [] \/ (gap = true /\ s <> []) \/
   exists c, head s = Some c /\ JSString.is_white_space c = false) ->
  Forall (fun word => word <> EmptyString)
         (BookExport.split_chars piece gap s).
Proof.
  assert (Hpiece : forall piece : list ascii,
            piece <> [] -> JSString.of_chars (rev piece) <> EmptyString).
  { intros piece Hne H%of_chars_nil_inv. apply Hne.
    rewrite <- (rev_involutive piece), H. done. }
  induction s as [|c s IH]; intros piece gap Hlast Hstart; simpl.
  - constructor; [| constructor]. apply Hpiece.
    destruct Hstart as [H | [[_ H] | (c & H & _)]]; done.
  - assert (Hlast' : forall c', last s = Some c' ->
                       JSString.is_white_space c' = false).
    { intros c' Hc'. apply Hlast. by destruct s. }
    destruct (JSString.is_white_space c) eqn:Ews.
    + assert (Hs : s <> []).
      { intros ->. specialize (Hlast c eq_refl). congruence. }
      destruct gap.
      * apply IH; [done | right; left; done].
      * constructor; [| apply IH; [done | right; left; done]].
        apply Hpiece.
        destruct Hstart as [H | [[H _] | (c' & [= <-] & H)]];
          [done | done | congruence].
    + apply IH; [done | by left].
Qed.

(** X24.  [wrapText] returns no empty line, and every line is a single
    word or is not wider than [maxWidth], whatever the font measures.
    For a text without white space at its ends, the lines joined by
    single spaces are the words joined by single spaces: no word is lost,
    repeated, split or moved. *)
Theorem wrapText_keeps_words (too_wide : string -> bool) (text : string) :
  let words := BookExport.split_white_space text in
  let lines := BookExport.wrapText too_wide (Some text) in
  Forall (fun line => line <> EmptyString /\
                      (line ∈ words \/ too_wide line = false)) lines /\
  (text <> EmptyString ->
   (forall c, head (JSString.chars text) = Some c ->
      JSString.is_white_space c = false) ->
   (forall c, last (JSString.chars text) = Some c ->
      JSString.is_white_space c = false) ->
   Forall (fun word => word <> EmptyString) words /\
   String.concat " " lines = String.concat " " words) /\
  BookExport.wrapText too_wide None = [] /\
  BookExport.wrapText too_wide (Some EmptyString) = [].
Proof.
  intros words lines. split_and!; try done.
  - subst lines. unfold BookExport.wrapText.
    destruct (JS.truthy_str (Some text)); [| constructor].
    cbn [negb default from_option]. unfold id. fold words.
    apply wrap_loop_wrapped; [done | constructor].
  - intros Htext Hhead Hlast.
    assert (Hwords : Forall (fun word => word <> EmptyString) words).
    { apply split_chars_nonempty; [done |]. right. right.
      destruct (JSString.chars text) as [|c l] eqn:E.
      - exfalso. apply Htext. by rewrite <- (of_chars_chars text), E.
      - exists c. split; [done | by apply Hhead]. }
    split; [done |]. apply truthy_nonempty in Htext. subst lines.
    unfold BookExport.wrapText. cbn [JS.truthy_str].
    rewrite Htext. cbn [negb default from_option]. unfold id. fold words.
    by rewrite (wrap_loop_joined too_wide words ([], EmptyString) []).
Qed.

Lemma wrapText_keeps_words_witness :
  let too_wide := fun line : string => (11 <? String.length line)%nat in
  BookExport.wrapText too_wide (Some "dark matter halos")
    = ["dark matter"; "halos"] /\
  String.concat " " (BookExport.wrapText too_wide (Some "dark matter halos"))
    = String.concat " " (BookExport.split_white_space "dark matter halos").
Proof.
  intros too_wide. split; [reflexivity |].
  assert (Htext : "dark matter halos" <> EmptyString) by discriminate.
  destruct (wrapText_keeps_words too_wide "dark matter halos") as (_ & H & _).
  destruct (H Htext) as [_ Hjoin].
  - by intros c [= <-].
  - by intros c [= <-].
  - exact Hjoin.
Defined.

(** ** The properties above on sample inputs *)

Lemma registered_plugins_stay_valid_witness :
  let ops := [Registry.Register Sample.ads; Registry.Register Sample.arxiv;
              Registry.Disable "ads"; Registry.Unregister "ads"] in
  exists reg,
    JSMap.get "arxiv" (State.plugins (Reachable.state 0 Example.punctual ops))
      = Some reg /\
    Types.valid (PluginRegistration.plugin reg) = true /\
    SourcePlugin.id (PluginRegistration.plugin reg) = "arxiv".
Proof.
  intros ops.
  destruct (registered_plugins_stay_valid 0 Example.punctual ops)
    as (H & _).
  eexists. split; [reflexivity |].
  destruct (H "arxiv" _ eq_refl) as (Hvalid & Hid & _).
  split; [exact Hvalid | exact Hid].
Defined.

Lemma rate_limiter_frame_witness :
  let w := Sample.run [Registry.Register Sample.ads;
                       Registry.Register Sample.arxiv] in
  let w' := snd (PluginManager._enforceRateLimit "arxiv" w) in
  State.lastRequestTime (manager w') !! "ads"
    = State.lastRequestTime (manager w) !! "ads" /\
  State.plugins (manager w') = State.plugins (manager w).
Proof.
  intros w w'. subst w'.
  destruct (rate_limiter_frame "arxiv" w) as (Hp & _ & _ & Hl & _).
  assert (Hne : "ads" <> "arxiv") by discriminate.
  split; [exact (Hl "ads" Hne) | exact Hp].
Defined.

Lemma createPaper_data_wins_witness :
  let data : gmap string JSVal :=
    {[ "title" := JStr "Dark matter halos"; "source" := JStr "arxiv" ]} in
  let paper := Types.createPaper data (JStr "ads") (JStr "2024ApJ...961...12S") in
  paper !! "source" = Some (JStr "arxiv") /\
  paper !! "sourceId" = Some (JStr "2024ApJ...961...12S") /\
  Types.createPaper paper (JStr "inspire") (JStr "1") = paper.
Proof.
  intros data paper. subst paper.
  destruct (createPaper_data_wins data (JStr "ads")
              (JStr "2024ApJ...961...12S")) as (Hown & Hdef & Hidem).
  split; [apply Hown; reflexivity |].
  split; [exact (Hdef "sourceId" eq_refl) | apply Hidem].
Defined.

Lemma sanitized_bibcode_is_safe_witness :
  PaperUtils.sanitizeBibcodeForFilename (Some "2003A&A...400..1A")
    = "2003A_A...400..1A" /\
  String.length (PaperUtils.sanitizeBibcodeForFilename
                   (Some "2003A&A...400..1A")) = 17%nat.
Proof.
  split; [reflexivity |].
  destruct (sanitized_bibcode_is_safe (Some "2003A&A...400..1A"))
    as (_ & _ & _ & H & _).
  assert (Hne : "2003A&A...400..1A" <> EmptyString) by discriminate.
  destruct (H "2003A&A...400..1A" eq_refl Hne) as (Hlen & _).
  exact Hlen.
Defined.

Lemma pdf_filename_round_trip_witness :
  PaperUtils.getSourceTypeFromFilename
    (Some (PaperUtils.generatePdfFilename (Some "2003A&A...400..1A") "PUB_PDF"))
    = Some "PUB_PDF" /\
  PaperUtils.getSourceTypeFromFilename
    (Some (PaperUtils.generatePdfFilename (Some "2020&PUB&PDF......A")
             "ADS_PDF"))
    = Some "PUB_PDF".
Proof.
  destruct (pdf_filename_round_trip (Some "2003A&A...400..1A"))
    as (_ & H1 & _).
  destruct (pdf_filename_round_trip (Some "2020&PUB&PDF......A"))
    as (_ & _ & H2).
  split; [exact H1 | exact H2].
Defined.

Lemma extractArxivId_first_recognised_witness :
  PaperUtils.extractArxivId
    (Some ["2024ApJ...961...12S"; "arXiv:2401.12345v2"; "2401.12345"])
    = Some "2401.12345v2".
Proof.
  destruct (extractArxivId_first_recognised
              ["2024ApJ...961...12S"; "arXiv:2401.12345v2"; "2401.12345"])
    as (_ & H & _).
  apply H. exists ["2024ApJ...961...12S"], "arXiv:2401.12345v2", ["2401.12345"].
  split; [reflexivity |]. split; [| by left].
  constructor; [| constructor]. split; [reflexivity |].
  pose proof (first_group_number "2024ApJ...961...12S") as Hg.
  exact Hg.
Defined.

Lemma normalizeBibcode_canonical_witness :
  PaperUtils.normalizeBibcode (Some "2024ApJ...961...12S") = "2024apj96112s" /\
  PaperUtils.normalizeBibcode (Some "2024apj96112s") = "2024apj96112s".
Proof.
  split; [reflexivity |].
  destruct (normalizeBibcode_canonical (Some "2024ApJ...961...12S"))
    as (_ & _ & H & _).
  exact H.
Defined.

Lemma truncateText_fits_witness :
  BookExport.truncateText (Some "The formation of dark matter halos") 20
    = "The formation of ..." /\
  Z.of_nat (String.length
    (BookExport.truncateText (Some "The formation of dark matter halos") 20))
    <= 20.
Proof.
  split; [reflexivity |].
  destruct (truncateText_fits (Some "The formation of dark matter halos") 20)
    as (_ & H & _).
  assert (Hmax : 3 <= 20) by lia.
  destruct (H Hmax) as [Hlen _]. exact Hlen.
Defined.

Lemma queries_are_read_only_witness :
  let w := Sample.run [Registry.Register Sample.ads;
                       Registry.Register Sample.arxiv] in
  State.plugins (manager (snd (PluginManager.lookup "10.1086/305772" w)))
    = State.plugins (manager w) /\
  now w <= now (snd (PluginManager.federatedSearch Example.query (fun l => l) w)).
Proof.
  intros w.
  destruct (queries_are_read_only w) as (_ & Hf & Hl & _).
  destruct (Hl "10.1086/305772") as (Hp & _).
  destruct (Hf Example.query (fun l => l)) as (_ & _ & _ & _ & Hnow & _).
  split; [exact Hp | exact Hnow].
Defined.

(** ** titleSimilarity *)

Lemma shared_words (words1 words2 : gset string) :
  filter (fun w => w ∈ words2) words1 = words1 ∩ words2.
Proof.
  apply set_eq. intros w. rewrite elem_of_filter, elem_of_intersection. tauto.
Qed.

Lemma inter_subseteq_union (A B : gset string) : A ∩ B ⊆ A ∪ B.
Proof.
  transitivity A; [apply intersection_subseteq_l | apply union_subseteq_l].
Qed.

Lemma inter_equiv_union (A B : gset string) : A ∩ B ≡ A ∪ B -> A = B.
Proof.
  intros H. apply set_eq. intros x. specialize (H x).
  rewrite elem_of_intersection, elem_of_union in H. tauto.
Qed.

Lemma inter_same (A : gset string) : A ∩ A = A.
Proof. apply set_eq. intros x. rewrite elem_of_intersection. tauto. Qed.

Lemma union_same (A : gset string) : A ∪ A = A.
Proof. apply set_eq. intros x. rewrite elem_of_union. tauto. Qed.

Lemma inter_empty_l (A : gset string) : ∅ ∩ A = ∅.
Proof.
  apply set_eq. intros x. rewrite elem_of_intersection, elem_of_empty. tauto.
Qed.

Lemma inter_empty_r (A : gset string) : A ∩ ∅ = ∅.
Proof.
  apply set_eq. intros x. rewrite elem_of_intersection, elem_of_empty. tauto.
Qed.

Lemma titleSimilarity_unfold (t1 t2 : string) :
  t1 <> EmptyString -> t2 <> EmptyString ->
  Similarity.titleSimilarity (Some t1) (Some t2)
  = if (size (Similarity.words t1) =? 0)%nat ||
       (size (Similarity.words t2) =? 0)%nat
    then 0%Q
    else (Z.of_nat (size (Similarity.words t1 ∩ Similarity.words t2))
          # Pos.of_nat (size (Similarity.words t1 ∪ Similarity.words t2)))%Q.
Proof.
  intros H1%truthy_nonempty H2%truthy_nonempty.
  unfold Similarity.titleSimilarity. cbn [JS.truthy_str default from_option].
  unfold id. rewrite H1, H2. cbn [negb orb]. by rewrite shared_words.
Qed.

Lemma positive_of_nat (n : nat) :
  n <> 0%nat -> Z.pos (Pos.of_nat n) = Z.of_nat n.
Proof.
  intros H. rewrite <- (positive_nat_Z (Pos.of_nat n)).
  by rewrite Nat2Pos.id.
Qed.

Lemma blank_plain c :
  Similarity.blank (PaperUtils.toLowerCase_char (Similarity.blank c))
  = Similarity.blank (PaperUtils.toLowerCase_char c).
Proof. destruct c as [[] [] [] [] [] [] [] []]; reflexivity. Qed.

Lemma plain_idem l :
  Similarity.plain (Similarity.plain l) = Similarity.plain l.
Proof.
  unfold Similarity.plain. rewrite !map_map. apply map_ext. intros c.
  rewrite blank_plain. by rewrite toLowerCase_char_idem.
Qed.

(** X25.  [titleSimilarity] is symmetric and lies between 0 and 1.  For
    two titles that are not empty it is 1 exactly when the titles have
    the same words of substance, at least one, and 0 exactly when they
    share none; the words of substance of a title are its words of more
    than two characters that are no stop words, in small letters and
    without punctuation, so that the case of the letters, punctuation,
    the order of the words and their repetition do not count. *)
Theorem titleSimilarity_measure (title1 title2 : option string) :
  let similarity := Similarity.titleSimilarity title1 title2 in
  similarity = Similarity.titleSimilarity title2 title1 /\
  (0 <= similarity)%Q /\ (similarity <= 1)%Q /\
  (forall t1 t2,
     title1 = Some t1 -> title2 = Some t2 ->
     t1 <> EmptyString -> t2 <> EmptyString ->
     ((similarity == 1)%Q <->
        Similarity.words t1 = Similarity.words t2 /\
        Similarity.words t1 <> ∅) /\
     ((similarity == 0)%Q <->
        Similarity.words t1 ∩ Similarity.words t2 = ∅)) /\
  (forall t,
     Similarity.words
       (JSString.of_chars (Similarity.plain (JSString.chars t)))
     = Similarity.words t).
Proof.
  intros similarity.
  assert (Hcases : (JS.truthy_str title1 = false \/
                    JS.truthy_str title2 = false) \/
                   exists t1 t2, title1 = Some t1 /\ title2 = Some t2 /\
                                 t1 <> EmptyString /\ t2 <> EmptyString).
  { destruct (JS.truthy_str title1) eqn:E1; [| by left; left].
    destruct (JS.truthy_str title2) eqn:E2; [| by left; right].
    apply truthy_str_some in E1 as (t1 & -> & H1).
    apply truthy_str_some in E2 as (t2 & -> & H2).
    right. by exists t1, t2. }
  assert (Hfalsy : JS.truthy_str title1 = false \/
                   JS.truthy_str title2 = false ->
                   similarity = 0%Q /\
                   Similarity.titleSimilarity title2 title1 = 0%Q).
  { intros H. subst similarity. unfold Similarity.titleSimilarity.
    destruct H as [-> | ->]; cbn [negb orb];
      rewrite ?orb_true_r; done. }
  assert (Hsize : forall t1 t2,
    size (Similarity.words t1) <> 0%nat ->
    size (Similarity.words t1 ∪ Similarity.words t2) <> 0%nat).
  { intros t1 t2 H1 H0. apply H1.
    pose proof (subseteq_size (Similarity.words t1)
                  (Similarity.words t1 ∪ Similarity.words t2)) as Hle.
    specialize (Hle (union_subseteq_l _ _)). lia. }
  assert (Hinter : forall t1 t2,
    (size (Similarity.words t1 ∩ Similarity.words t2)
     <= size (Similarity.words t1 ∪ Similarity.words t2))%nat).
  { intros t1 t2. apply subseteq_size, inter_subseteq_union. }
  split_and!.
  - destruct Hcases as [H | (t1 & t2 & -> & -> & H1 & H2)].
    + destruct (Hfalsy H) as [-> ->]. done.
    + subst similarity. rewrite !titleSimilarity_unfold by done.
      rewrite (orb_comm (size (Similarity.words t2) =? 0)%nat).
      rewrite (intersection_comm_L (Similarity.words t2)).
      by rewrite (union_comm_L (Similarity.words t2)).
  - destruct Hcases as [H | (t1 & t2 & -> & -> & H1 & H2)].
    + destruct (Hfalsy H) as [-> _]. done.
    + subst similarity. rewrite titleSimilarity_unfold by done.
      destruct (_ || _); [done |]. unfold Qle. simpl. lia.
  - destruct Hcases as [H | (t1 & t2 & -> & -> & H1 & H2)].
    + destruct (Hfalsy H) as [-> _]. done.
    + subst similarity. rewrite titleSimilarity_unfold by done.
      destruct (_ || _) eqn:E; [done |].
      apply orb_false_iff in E as [E1%Nat.eqb_neq _].
      unfold Qle. simpl. rewrite positive_of_nat by (by apply Hsize).
      specialize (Hinter t1 t2). lia.
  - intros t1 t2 -> -> H1 H2. subst similarity.
    rewrite titleSimilarity_unfold by done.
    destruct (Nat.eqb_spec (size (Similarity.words t1)) 0) as [E1|E1];
      [| destruct (Nat.eqb_spec (size (Similarity.words t2)) 0) as [E2|E2]];
      cbn [orb].
    + apply size_empty_iff in E1. apply leibniz_equiv in E1.
      split.
      * split; [intros H; by vm_compute in H | by intros [_ ?]].
      * split; [intros _; rewrite E1; apply inter_empty_l | done].
    + apply size_empty_iff in E2. apply leibniz_equiv in E2.
      split.
      * split; [intros H; by vm_compute in H |].
        intros [Heq Hne]. by rewrite Heq in Hne.
      * split; [intros _; rewrite E2; apply inter_empty_r | done].
    + specialize (Hsize t1 t2 E1). specialize (Hinter t1 t2).
      unfold Qeq. simpl. rewrite positive_of_nat by done. split.
      * split.
        { intros H.
          assert (Hsame : Similarity.words t1 ∩ Similarity.words t2
                          = Similarity.words t1 ∪ Similarity.words t2).
          { apply set_subseteq_size_eq; [apply inter_subseteq_union | lia]. }
          split; [apply inter_equiv_union; by rewrite Hsame |].
          intros Hempty. apply E1. rewrite Hempty. apply size_empty. }
        { intros [Heq _]. rewrite <- Heq, inter_same, union_same. lia. }
      * split.
        { intros H. apply leibniz_equiv, size_empty_iff. lia. }
        { intros ->. rewrite size_empty. lia. }
  - intros t. unfold Similarity.words, Similarity.normalize.
    by rewrite chars_of_chars, plain_idem.
Qed.

Lemma titleSimilarity_measure_witness :
  Similarity.titleSimilarity (Some "The formation of dark matter halos")
    (Some "Dark matter halos: formation and evolution") = (4 # 5)%Q /\
  Similarity.titleSimilarity (Some "Dark matter halos: formation and evolution")
    (Some "The formation of dark matter halos") = (4 # 5)%Q.
Proof.
  split; [reflexivity |].
  destruct (titleSimilarity_measure
              (Some "The formation of dark matter halos")
              (Some "Dark matter halos: formation and evolution"))
    as (Hsym & _).
  rewrite <- Hsym. reflexivity.
Defined.
